(** * The old-space sweeper of the VM heap (runtime/vm/heap/sweeper.cc)

    A shallow embedding of [GCSweeper::SweepPage], [GCSweeper::SweepLargePage]
    and [ConcurrentSweeperTask], and the properties of the sweep that the
    design document states about them.

    The heap is a byte-addressed memory; machine integers are [Z] with the
    wrap-around of the target word written out.  Loops of the source are
    fixpoints over a fuel argument; running out of fuel is an outcome of its
    own, distinct from a failed [ASSERT]. *)

From Stdlib Require Import ZArith List Bool Lia Sorted.
Import ListNotations.
Local Open Scope Z_scope.

Set Implicit Arguments.

(** ** Outcomes of a run

    A run returns a value and the world that it leaves, or it stops at a
    failure, in the world that it had reached by then. *)

Inductive Failure : Type :=
| AssertionFailed   (* an ASSERT of a DEBUG build did not hold *)
| InvalidPointer    (* a pointer to no page, or a NULL pointer, was dereferenced *)
| OutOfFuel.        (* the model stopped a loop that was still running *)

Inductive Outcome (W A : Type) : Type :=
| Ret (r : A * W)
| Stop (f : Failure) (w : W).

Arguments Ret {W A} r.
Arguments Stop {W A} f w.

(** ** What the build and the headers outside this file fix

    [sweeper.cc] includes vm/globals.h, vm/heap/heap.h, vm/heap/pages.h,
    vm/raw_object.h and the assembler.  Their constants and the layout of
    the object header are taken as parameters here. *)

Class Platform : Type := {
  (* vm/globals.h *)
  kWordSizeLog2 : Z;
  (* whether the file is compiled with DEBUG defined *)
  DEBUG : bool;
  (* Heap::kZapByte *)
  kZapByte : Z;
  (* compiler::Assembler::GetBreakInstructionFiller() *)
  GetBreakInstructionFiller : Z;
  (* RawObject: the header word of an object holds its mark bit and size *)
  tags_marked : Z -> bool;
  tags_clear_mark : Z -> Z;
  tags_size : Z -> Z;
  (* HeapPage::Of: the page that holds the object at an address *)
  page_of_addr : Z -> Z
}.

Section Machine.
Context {P : Platform}.

Definition kWordSize : Z := Z.shiftl 1 kWordSizeLog2.

(** Number of values of a machine word: [kWordSize] bytes of 8 bits. *)
Definition word_modulus : Z := 256 ^ kWordSize.

(** [uword]: unsigned arithmetic wraps modulo the word. *)
Definition uword (x : Z) : Z := x mod word_modulus.

(** [intptr_t]: the signed reading of a word. *)
Definition intptr (x : Z) : Z :=
  (x + word_modulus / 2) mod word_modulus - word_modulus / 2.

(** ** Byte-addressed memory *)

Definition mem : Type := Z -> Z.

Definition byte_at (m : mem) (a : Z) : Z := m a mod 256.

(** Little-endian load of [n] bytes. *)
Fixpoint load_bytes (n : nat) (m : mem) (a : Z) : Z :=
  match n with
  | O => 0
  | S k => byte_at m a + 256 * load_bytes k m (a + 1)
  end.

Definition in_range (a n x : Z) : bool := (a <=? x) && (x <? a + n).

(** Little-endian store of the low [n] bytes of [v]. *)
Definition store_bytes (n : Z) (m : mem) (a v : Z) : mem :=
  fun x => if in_range a n x then (v / 256 ^ (x - a)) mod 256 else m x.

Definition load_word (m : mem) (a : Z) : Z := load_bytes (Z.to_nat kWordSize) m a.
Definition store_word (m : mem) (a v : Z) : mem := store_bytes kWordSize m a v.

(** [memset(dst, c, n)]: [c] is converted to unsigned char, [n] is a size_t. *)
Definition memset (m : mem) (dst c n : Z) : mem :=
  fun x => if in_range dst (uword n) x then c mod 256 else m x.

End Machine.


(** ** Pages, the free list and the old space *)

Definition NULL : Z := 0.

(** [HeapPage::PageType] *)
Inductive PageType : Type := kData | kExecutable.

Definition PageType_eqb (a b : PageType) : bool :=
  match a, b with
  | kData, kData | kExecutable, kExecutable => true
  | _, _ => false
  end.

(** The fields of a [HeapPage] that the sweeper reads or writes. *)
Record HeapPage : Type := {
  object_start : Z;
  object_end : Z;
  type : PageType;
  is_image_page : bool;
  used_in_bytes : Z;
  next : Z
}.

(** [PageSpace::Phase] *)
Inductive Phase : Type := kDone | kMarking | kSweeping.

Definition Phase_eqb (a b : Phase) : bool :=
  match a, b with
  | kDone, kDone | kMarking, kMarking | kSweeping, kSweeping => true
  | _, _ => false
  end.

(** A call of [FreeList::Free] or [FreeList::FreeLocked].  The free list is a
    collaborator: the model keeps each call with its arguments and with the
    memory as it is when the range is handed over. *)
Record FreeListCall : Type := {
  fl_locked : bool;
  fl_addr : Z;
  fl_size : Z;
  fl_memory : mem
}.

(** What the sweeper task does to its collaborators, in program order. *)
Inductive Event : Type :=
| EnterIsolateAsHelper
| ExitIsolateAsHelper
| MonitorEnter                 (* MonitorLocker ml(old_space_->tasks_lock()) *)
| MonitorExit                  (* end of the MonitorLocker's scope *)
| MonitorNotify                (* ml.Notify() *)
| MonitorNotifyAll             (* ml.NotifyAll() *)
| SetTasks (n : Z)
| SetPhase (p : Phase)
| CallSweepLargePage (page : Z)
| CallSweepPage (page : Z)
| CallFreeLargePage (page prev : Z)
| CallTruncateLargePage (page bytes : Z)
| CallFreePage (page prev : Z).

#[projections(primitive)]
Record World : Type := {
  memory : mem;
  pages : Z -> option HeapPage;
  freelist : list FreeListCall;
  mark_tests : list Z;   (* the addresses whose mark bit was tested, in order *)
  tasks : Z;
  phase : Phase;
  trace : list Event
}.

Definition with_memory (m : mem) (w : World) : World :=
  {| memory := m; pages := pages w; freelist := freelist w;
     mark_tests := mark_tests w;
     tasks := tasks w; phase := phase w; trace := trace w |}.

Definition with_pages (ps : Z -> option HeapPage) (w : World) : World :=
  {| memory := memory w; pages := ps; freelist := freelist w;
     mark_tests := mark_tests w;
     tasks := tasks w; phase := phase w; trace := trace w |}.

Definition with_freelist (fl : list FreeListCall) (w : World) : World :=
  {| memory := memory w; pages := pages w; freelist := fl;
     mark_tests := mark_tests w;
     tasks := tasks w; phase := phase w; trace := trace w |}.

Definition with_mark_tests (ts : list Z) (w : World) : World :=
  {| memory := memory w; pages := pages w; freelist := freelist w;
     mark_tests := ts;
     tasks := tasks w; phase := phase w; trace := trace w |}.

Definition with_tasks (n : Z) (w : World) : World :=
  {| memory := memory w; pages := pages w; freelist := freelist w;
     mark_tests := mark_tests w;
     tasks := n; phase := phase w; trace := trace w |}.

Definition with_phase (p : Phase) (w : World) : World :=
  {| memory := memory w; pages := pages w; freelist := freelist w;
     mark_tests := mark_tests w;
     tasks := tasks w; phase := p; trace := trace w |}.

Definition with_trace (t : list Event) (w : World) : World :=
  {| memory := memory w; pages := pages w; freelist := freelist w;
     mark_tests := mark_tests w;
     tasks := tasks w; phase := phase w; trace := t |}.

(** ** The monad of the model: state passing over [World], with failure *)

Definition M (A : Type) : Type := World -> Outcome World A.

Definition ret {A : Type} (a : A) : M A := fun w => Ret (a, w).

Definition bind {A B : Type} (c : M A) (k : A -> M B) : M B :=
  fun w => match c w with
           | Ret (a, w') => k a w'
           | Stop f w' => Stop f w'
           end.

Definition fail {A : Type} (f : Failure) : M A := fun w => Stop f w.

Declare Scope sweep_scope.
Delimit Scope sweep_scope with sweep.
Notation "x <- c ;; k" := (bind c (fun x => k))
  (at level 61, c at next level, right associativity) : sweep_scope.
Notation "c ;; k" := (bind c (fun _ => k))
  (at level 61, right associativity) : sweep_scope.
Local Open Scope sweep_scope.

Definition emit (e : Event) : M unit :=
  fun w => Ret (tt, with_trace (trace w ++ [e]) w).

Section Sweeper.
Context {P : Platform}.

(** [ASSERT(c)]: checked in DEBUG builds only. *)
Definition ASSERT (c : bool) : M unit :=
  if DEBUG && negb c then fail AssertionFailed else ret tt.

(** *** RawObject *)

Record RawObject : Type := FromAddr { ToAddr : Z }.

Definition IsMarked (o : RawObject) : M bool :=
  fun w => Ret (tags_marked (load_word (memory w) (ToAddr o)),
                with_mark_tests (mark_tests w ++ [ToAddr o]) w).

Definition ClearMarkBit (o : RawObject) : M unit :=
  fun w => Ret (tt, with_memory
                      (store_word (memory w) (ToAddr o)
                         (tags_clear_mark (load_word (memory w) (ToAddr o)))) w).

Definition HeapSize (o : RawObject) : M Z :=
  fun w => Ret (tags_size (load_word (memory w) (ToAddr o)), w).

Definition HeapPage_Of (o : RawObject) : Z := page_of_addr (ToAddr o).

(** [*reinterpret_cast<uword*>(addr) = v] and [memset(dst, c, n)] *)
Definition write_uword (addr v : Z) : M unit :=
  fun w => Ret (tt, with_memory (store_word (memory w) addr v) w).

Definition Memset (dst c n : Z) : M unit :=
  fun w => Ret (tt, with_memory (memset (memory w) dst c n) w).

(** *** HeapPage *)

Definition load_page (page : Z) : M HeapPage :=
  fun w => match pages w page with
           | Some p => Ret (p, w)
           | None => Stop InvalidPointer w
           end.

Definition set_used_in_bytes (page : Z) (v : Z) : M unit :=
  fun w => match pages w page with
           | Some p =>
               let p' := {| object_start := object_start p; object_end := object_end p;
                            type := type p; is_image_page := is_image_page p;
                            used_in_bytes := v; next := next p |} in
               Ret (tt, with_pages (fun q => if q =? page then Some p' else pages w q) w)
           | None => Stop InvalidPointer w
           end.

(** *** FreeList *)

Definition Free (addr size : Z) : M unit :=
  fun w => Ret (tt, with_freelist
                      (freelist w ++ [{| fl_locked := false; fl_addr := addr;
                                         fl_size := size; fl_memory := memory w |}]) w).

Definition FreeLocked (addr size : Z) : M unit :=
  fun w => Ret (tt, with_freelist
                      (freelist w ++ [{| fl_locked := true; fl_addr := addr;
                                         fl_size := size; fl_memory := memory w |}]) w).

(** *** GCSweeper::SweepPage *)

(** The loop that fills a garbage run of an executable page:
    [while (cursor < end) { *cursor = filler; cursor += kWordSize; }] *)
Fixpoint fill_run (fuel : nat) (cursor end_ : Z) : M unit :=
  match fuel with
  | O => fail OutOfFuel
  | S fuel' =>
      if cursor <? end_ then
        write_uword cursor GetBreakInstructionFiller ;;
        fill_run fuel' (uword (cursor + kWordSize)) end_
      else ret tt
  end.

(** The loop that extends a free block over the unmarked objects after it:
    [while (free_end < end) { if (next_obj->IsMarked()) break;
                              free_end += next_obj->HeapSize(); }] *)
Fixpoint extend_free_block (fuel : nat) (free_end end_ : Z) : M Z :=
  match fuel with
  | O => fail OutOfFuel
  | S fuel' =>
      if free_end <? end_ then
        let next_obj := FromAddr free_end in
        marked <- IsMarked next_obj ;;
        if marked then ret free_end
        else
          size <- HeapSize next_obj ;;
          extend_free_block fuel' (uword (free_end + size)) end_
      else ret free_end
  end.

(** The locals of [SweepPage] that its scan loop updates. *)
#[projections(primitive)]
Record Scan : Type := { current : Z; used : Z }.

(** One pass through the body of [while (current < end)]. *)
Definition sweep_object (fuel : nat) (page : Z) (is_executable locked : bool)
    (start end_ : Z) (s : Scan) : M Scan :=
  let raw_obj := FromAddr (current s) in
  ASSERT (HeapPage_Of raw_obj =? page) ;;
  marked <- IsMarked raw_obj ;;
  if marked then
    ClearMarkBit raw_obj ;;
    obj_size <- HeapSize raw_obj ;;
    ret {| current := uword (current s + obj_size);
           used := intptr (used s + obj_size) |}
  else
    size <- HeapSize raw_obj ;;
    free_end <- extend_free_block fuel (uword (current s + size)) end_ ;;
    let obj_size := intptr (free_end - current s) in
    (if is_executable then
       fill_run fuel (current s) (uword (current s + obj_size))
     else if DEBUG then
       Memset (current s) kZapByte obj_size
     else ret tt) ;;
    (if negb (current s =? start) || negb (free_end =? end_) then
       if locked then FreeLocked (current s) obj_size
       else Free (current s) obj_size
     else ret tt) ;;
    ret {| current := uword (current s + obj_size); used := used s |}.

Fixpoint sweep_loop (fuel : nat) (page : Z) (is_executable locked : bool)
    (start end_ : Z) (s : Scan) : M Scan :=
  match fuel with
  | O => fail OutOfFuel
  | S fuel' =>
      if current s <? end_ then
        s' <- sweep_object fuel' page is_executable locked start end_ s ;;
        sweep_loop fuel' page is_executable locked start end_ s'
      else ret s
  end.

Definition SweepPage (fuel : nat) (page : Z) (locked : bool) : M bool :=
  p <- load_page page ;;
  ASSERT (negb (is_image_page p)) ;;
  let is_executable := PageType_eqb (type p) kExecutable in
  let start := object_start p in
  let end_ := object_end p in
  s <- sweep_loop fuel page is_executable locked start end_
         {| current := start; used := 0 |} ;;
  ASSERT (current s =? end_) ;;
  set_used_in_bytes page (used s) ;;
  ret (negb (used s =? 0)).

(** *** GCSweeper::SweepLargePage *)

(** The DEBUG loop over the trailing filler objects of a large page. *)
Fixpoint zap_fillers (fuel : nat) (cur end_ : Z) : M unit :=
  match fuel with
  | O => fail OutOfFuel
  | S fuel' =>
      if cur <? end_ then
        let cur_obj := FromAddr cur in
        marked <- IsMarked cur_obj ;;
        ASSERT (negb marked) ;;
        obj_size <- HeapSize cur_obj ;;
        Memset cur kZapByte obj_size ;;
        zap_fillers fuel' (uword (cur + obj_size)) end_
      else ret tt
  end.

Definition SweepLargePage (fuel : nat) (page : Z) : M Z :=
  p <- load_page page ;;
  ASSERT (negb (is_image_page p)) ;;
  let raw_obj := FromAddr (object_start p) in
  ASSERT (HeapPage_Of raw_obj =? page) ;;
  marked <- IsMarked raw_obj ;;
  words_to_end <-
    (if marked then
       ClearMarkBit raw_obj ;;
       size <- HeapSize raw_obj ;;
       ret (Z.shiftr size kWordSizeLog2)
     else ret 0) ;;
  (if DEBUG then
     size <- HeapSize raw_obj ;;
     zap_fillers fuel (uword (ToAddr raw_obj + size)) (object_end p)
   else ret tt) ;;
  ret words_to_end.

(** *** ConcurrentSweeperTask *)

Record ConcurrentSweeperTask : Type := {
  task_isolate_ : Z;
  old_space_ : Z;
  first_ : Z;
  last_ : Z;
  large_first_ : Z;
  large_last_ : Z;
  freelist_ : Z
}.

(** [old_space_->set_tasks(n)], [old_space_->set_phase(p)] *)
Definition set_tasks (n : Z) : M unit :=
  fun w => Ret (tt, with_trace (trace w ++ [SetTasks n]) (with_tasks n w)).

Definition set_phase (p : Phase) : M unit :=
  fun w => Ret (tt, with_trace (trace w ++ [SetPhase p]) (with_phase p w)).

Definition get_tasks : M Z := fun w => Ret (tasks w, w).
Definition get_phase : M Phase := fun w => Ret (phase w, w).

(** [old_space_->...]: a member of the old space is reached through the
    pointer that the task holds.  The world has one old space; a NULL
    pointer does not lead to it. *)
Definition through_old_space (old_space : Z) : M unit :=
  fun w => if old_space =? NULL then Stop InvalidPointer w else Ret (tt, w).

(** The constructor.  The assertions are those of a DEBUG build; the
    monitor is reached through [old_space_] in every build. *)
Definition ConcurrentSweeperTask_new (isolate old_space first last large_first
    large_last freelist_ptr : Z) : M ConcurrentSweeperTask :=
  ASSERT (negb (isolate =? NULL)) ;;
  ASSERT (negb (first =? NULL)) ;;
  ASSERT (negb (old_space =? NULL)) ;;
  ASSERT (negb (last =? NULL)) ;;
  ASSERT (negb (freelist_ptr =? NULL)) ;;
  through_old_space old_space ;;
  emit MonitorEnter ;;
  n <- get_tasks ;;
  set_tasks (intptr (n + 1)) ;;
  set_phase kSweeping ;;
  emit MonitorExit ;;
  ret {| task_isolate_ := isolate; old_space_ := old_space; first_ := first;
         last_ := last; large_first_ := large_first; large_last_ := large_last;
         freelist_ := freelist_ptr |}.

(** The walk over the large pages, [page] and [prev_page] being its locals. *)
Fixpoint sweep_large_pages (fuel : nat) (t : ConcurrentSweeperTask)
    (page prev_page : Z) : M unit :=
  match fuel with
  | O => fail OutOfFuel
  | S fuel' =>
      if negb (page =? NULL) then
        next_page <-
          (if page =? large_last_ t then ret NULL
           else p <- load_page page ;; ret (next p)) ;;
        p <- load_page page ;;
        ASSERT (PageType_eqb (type p) kData) ;;
        emit (CallSweepLargePage page) ;;
        words_to_end <- SweepLargePage fuel' page ;;
        prev_page' <-
          (if words_to_end =? 0 then
             emit (CallFreeLargePage page prev_page) ;; ret prev_page
           else
             emit (CallTruncateLargePage page
                     (intptr (Z.shiftl words_to_end kWordSizeLog2))) ;;
             ret page) ;;
        sweep_large_pages fuel' t next_page prev_page'
      else ret tt
  end.

(** The walk over the ordinary pages. *)
Fixpoint sweep_pages (fuel : nat) (t : ConcurrentSweeperTask)
    (page prev_page : Z) : M unit :=
  match fuel with
  | O => fail OutOfFuel
  | S fuel' =>
      if negb (page =? NULL) then
        next_page <-
          (if page =? last_ t then ret NULL
           else p <- load_page page ;; ret (next p)) ;;
        p <- load_page page ;;
        ASSERT (PageType_eqb (type p) kData) ;;
        emit (CallSweepPage page) ;;
        page_in_use <- SweepPage fuel' page false ;;
        prev_page' <-
          (if page_in_use then ret page
           else emit (CallFreePage page prev_page) ;; ret prev_page) ;;
        emit MonitorEnter ;;
        emit MonitorNotify ;;
        emit MonitorExit ;;
        sweep_pages fuel' t next_page prev_page'
      else ret tt
  end.

(** [Run].  Entering and leaving the isolate are recorded as events; the
    thread that runs the task, its safepoint state and the timeline scope
    belong to collaborators and have no effect on the heap or the old
    space, so the two ASSERTs about them are left out.  The task is one that
    the constructor has made, so that [old_space_] leads to the old space of
    the world. *)
Definition Run (fuel : nat) (t : ConcurrentSweeperTask) : M unit :=
  emit EnterIsolateAsHelper ;;
  sweep_large_pages fuel t (large_first_ t) NULL ;;
  sweep_pages fuel t (first_ t) NULL ;;
  emit ExitIsolateAsHelper ;;
  emit MonitorEnter ;;
  n <- get_tasks ;;
  set_tasks (intptr (n - 1)) ;;
  ph <- get_phase ;;
  ASSERT (Phase_eqb ph kSweeping) ;;
  set_phase kDone ;;
  emit MonitorNotifyAll ;;
  emit MonitorExit.

End Sweeper.

(** ** The layout of an object area, and a reference sweep over it *)

Section Layout.
Context {P : Platform}.

(** In a DEBUG build the scan asserts of each object it visits that it is
    on the page being swept. *)
Definition on_page (page : Z) (a : Z) : Prop :=
  DEBUG = true -> page_of_addr a = page.

(** [tiles own m a hs e]: in memory [m] the bytes from [a] to [e] are filled
    by objects whose header words are [hs], in address order, each with a
    positive word-aligned size, with no gap and no overlap; [own] holds of
    the address of each. *)
Fixpoint tiles (own : Z -> Prop) (m : mem) (a : Z) (hs : list Z) (e : Z) : Prop :=
  match hs with
  | [] => a = e
  | h :: rest =>
      load_word m a = h /\
      0 < tags_size h /\
      tags_size h mod kWordSize = 0 /\
      own a /\
      tiles own m (a + tags_size h) rest e
  end.

(** Sizes alone: positive and word-aligned. *)
Definition sized (hs : list Z) : Prop :=
  Forall (fun h => 0 < tags_size h /\ tags_size h mod kWordSize = 0) hs.

(** Bytes covered by a list of objects. *)
Definition extent (hs : list Z) : Z :=
  fold_right (fun h n => tags_size h + n) 0 hs.

(** Bytes of the marked objects among them. *)
Definition live_bytes (hs : list Z) : Z :=
  fold_right (fun h n => if tags_marked h then tags_size h + n else n) 0 hs.

Definition unmarked (h : Z) : Prop := tags_marked h = false.

(** A list of objects that begins, and one that ends, at a marked object or
    at the boundary of the area. *)
Definition starts_marked (hs : list Z) : Prop :=
  match hs with
  | [] => True
  | h :: _ => tags_marked h = true
  end.

Definition ends_marked (hs : list Z) : Prop := starts_marked (rev hs).

(** The addresses a page may have: machine words, and an object area whose
    length is a non-negative [intptr_t]. *)
Definition page_bounds (p : HeapPage) : Prop :=
  0 <= object_start p <= object_end p /\
  object_end p < word_modulus /\
  object_end p - object_start p < word_modulus / 2.

(** The memory that a garbage run is left with. *)
Fixpoint fill_words (k : nat) (m : mem) (a : Z) : mem :=
  match k with
  | O => m
  | S k' => fill_words k' (store_word m a GetBreakInstructionFiller) (a + kWordSize)
  end.

Definition poison (is_executable : bool) (m : mem) (a n : Z) : mem :=
  if is_executable then fill_words (Z.to_nat (n / kWordSize)) m a
  else if DEBUG then memset m a kZapByte n
  else m.

(** State of the reference sweep: [sw_pending] is the start of the garbage
    run that is open at [sw_pos], if there is one. *)
#[projections(primitive)]
Record Sweep : Type := {
  sw_pending : option Z;
  sw_pos : Z;
  sw_mem : mem;
  sw_calls : list FreeListCall;
  sw_tests : list Z;
  sw_used : Z
}.

Section Reference.
Variables (is_executable locked : bool) (start end_ : Z).

(** Closing the open run: poison it, and hand it to the free list unless it
    is the whole object area. *)
Definition close_run (s : Sweep) : Sweep :=
  match sw_pending s with
  | None => s
  | Some a =>
      let n := sw_pos s - a in
      let m' := poison is_executable (sw_mem s) a n in
      {| sw_pending := None;
         sw_pos := sw_pos s;
         sw_mem := m';
         sw_calls :=
           if negb (a =? start) || negb (sw_pos s =? end_) then
             sw_calls s ++ [{| fl_locked := locked; fl_addr := a;
                               fl_size := n; fl_memory := m' |}]
           else sw_calls s;
         sw_tests := sw_tests s;
         sw_used := sw_used s |}
  end.

(** One object: a marked one closes the open run, loses its mark and is
    counted; an unmarked one opens a run or extends the open one.  The mark
    bit of the object is tested once, and once more if it is the marked
    object at which an open run ends. *)
Definition sweep_header (s : Sweep) (h : Z) : Sweep :=
  if tags_marked h then
    let s' := close_run s in
    {| sw_pending := None;
       sw_pos := sw_pos s + tags_size h;
       sw_mem := store_word (sw_mem s') (sw_pos s) (tags_clear_mark h);
       sw_calls := sw_calls s';
       sw_tests := sw_tests s ++ match sw_pending s with
                                 | Some _ => [sw_pos s; sw_pos s]
                                 | None => [sw_pos s]
                                 end;
       sw_used := sw_used s + tags_size h |}
  else
    {| sw_pending := Some (match sw_pending s with
                           | Some a => a
                           | None => sw_pos s
                           end);
       sw_pos := sw_pos s + tags_size h;
       sw_mem := sw_mem s;
       sw_calls := sw_calls s;
       sw_tests := sw_tests s ++ [sw_pos s];
       sw_used := sw_used s |}.

Definition reference_sweep (hs : list Z) (s : Sweep) : Sweep :=
  close_run (fold_left sweep_header hs s).

End Reference.

(** The reference sweep of a whole page, from the state of the world. *)
Definition initial_sweep (p : HeapPage) (w : World) : Sweep :=
  {| sw_pending := None; sw_pos := object_start p; sw_mem := memory w;
     sw_calls := freelist w; sw_tests := mark_tests w; sw_used := 0 |}.

Definition swept_page (p : HeapPage) (locked : bool) (hs : list Z) (w : World)
  : Sweep :=
  reference_sweep (PageType_eqb (type p) kExecutable) locked
    (object_start p) (object_end p) hs (initial_sweep p w).

(** The world with the memory, the free-list calls and the mark tests of a
    sweep state. *)
Definition install (s : Sweep) (w : World) : World :=
  with_mark_tests (sw_tests s) (with_freelist (sw_calls s) (with_memory (sw_mem s) w)).

(** The test that ends the run-extension loop at [a]: none at the end of the
    area, one of the mark bit of the object that follows. *)
Definition break_test (a : Z) (rest : list Z) : list Z :=
  match rest with
  | [] => []
  | _ :: _ => [a]
  end.

Definition end_tested (rest : list Z) (s : Sweep) : Sweep :=
  {| sw_pending := sw_pending s; sw_pos := sw_pos s; sw_mem := sw_mem s;
     sw_calls := sw_calls s;
     sw_tests := sw_tests s ++ break_test (sw_pos s) rest;
     sw_used := sw_used s |}.

(** The addresses of the objects [hs] laid out from [a]. *)
Fixpoint addresses (a : Z) (hs : list Z) : list Z :=
  match hs with
  | [] => []
  | h :: rest => a :: addresses (a + tags_size h) rest
  end.

(** The page table after [set_used_in_bytes]. *)
Definition page_with_used (p : HeapPage) (v : Z) : HeapPage :=
  {| object_start := object_start p; object_end := object_end p;
     type := type p; is_image_page := is_image_page p;
     used_in_bytes := v; next := next p |}.

Definition pages_with (ps : Z -> option HeapPage) (page : Z) (p : HeapPage)
  : Z -> option HeapPage :=
  fun q => if q =? page then Some p else ps q.

(** The free-list calls whose address lies in [lo, hi). *)
Definition calls_in (lo hi : Z) (calls : list FreeListCall) : list FreeListCall :=
  filter (fun c => (lo <=? fl_addr c) && (fl_addr c <? hi)) calls.

(** Every word of [a, a + n) holds the break instruction filler. *)
Definition filled (m : mem) (a n : Z) : Prop :=
  forall k, 0 <= k -> (k + 1) * kWordSize <= n ->
    load_word m (a + k * kWordSize) = GetBreakInstructionFiller.

(** Every byte of [a, a + n) holds the zap byte. *)
Definition zapped (m : mem) (a n : Z) : Prop :=
  forall x, a <= x < a + n -> m x = kZapByte.

(** The bytes of [a, a + n) are those of [m0]. *)
Definition untouched (m0 m : mem) (a n : Z) : Prop :=
  forall x, a <= x < a + n -> m x = m0 x.


End Layout.

(** * Properties *)

Unset Implicit Arguments.

(** The laws the parameters obey. *)
Class PlatformOk (P : Platform) : Prop := {
  kWordSizeLog2_nonneg : 0 <= kWordSizeLog2;
  kZapByte_byte : 0 <= kZapByte < 256;
  filler_word : 0 <= GetBreakInstructionFiller < word_modulus;
  clear_mark_word : forall t, 0 <= t < word_modulus ->
      0 <= tags_clear_mark t < word_modulus;
  clear_mark_unmarked : forall t, tags_marked (tags_clear_mark t) = false;
  clear_mark_size : forall t, tags_size (tags_clear_mark t) = tags_size t
}.

Section MachineFacts.
Context {P : Platform} {POK : PlatformOk P}.

Lemma kWordSize_pos : 0 < kWordSize.
Proof.
  unfold kWordSize. rewrite Z.shiftl_1_l.
  apply Z.pow_pos_nonneg; [lia | apply kWordSizeLog2_nonneg].
Qed.

Lemma word_modulus_pos : 0 < word_modulus.
Proof. unfold word_modulus. apply Z.pow_pos_nonneg; [lia | pose proof kWordSize_pos; lia]. Qed.

Lemma word_modulus_even : word_modulus = 2 * (word_modulus / 2).
Proof.
  unfold word_modulus. pose proof kWordSize_pos.
  replace kWordSize with (1 + (kWordSize - 1)) by lia.
  rewrite Z.pow_add_r by lia. change (256 ^ 1) with (2 * 128).
  rewrite <- Z.mul_assoc, (Z.mul_comm 2), Z.div_mul by lia. lia.
Qed.

Lemma kWordSize_lt_modulus : kWordSize < word_modulus.
Proof.
  unfold word_modulus. pose proof kWordSize_pos.
  apply Z.lt_le_trans with (2 ^ kWordSize).
  - apply Z.pow_gt_lin_r; lia.
  - apply Z.pow_le_mono_l; lia.
Qed.

Lemma uword_small x : 0 <= x < word_modulus -> uword x = x.
Proof. intros. unfold uword. apply Z.mod_small; assumption. Qed.

Lemma intptr_small x :
  - (word_modulus / 2) <= x < word_modulus / 2 -> intptr x = x.
Proof.
  intros. unfold intptr. pose proof word_modulus_even.
  rewrite Z.mod_small; lia.
Qed.

Lemma byte_at_range m a : 0 <= byte_at m a < 256.
Proof. unfold byte_at. apply Z.mod_pos_bound. lia. Qed.

Lemma in_range_true a n x : in_range a n x = true <-> a <= x < a + n.
Proof. unfold in_range. rewrite andb_true_iff, Z.leb_le, Z.ltb_lt. tauto. Qed.

Lemma in_range_false a n x : in_range a n x = false <-> ~ (a <= x < a + n).
Proof. rewrite <- in_range_true. destruct (in_range a n x); split; congruence. Qed.

Lemma load_bytes_range n m a : 0 <= load_bytes n m a < 256 ^ Z.of_nat n.
Proof.
  revert a. induction n as [|n IH]; intro a.
  - cbn [load_bytes]. change (256 ^ Z.of_nat 0) with 1. lia.
  - rewrite Nat2Z.inj_succ, Z.pow_succ_r by lia. cbn [load_bytes].
    pose proof (byte_at_range m a). specialize (IH (a + 1)). lia.
Qed.

Lemma load_bytes_ext n m m' a :
  (forall x, a <= x < a + Z.of_nat n -> m' x = m x) ->
  load_bytes n m' a = load_bytes n m a.
Proof.
  revert a. induction n as [|n IH]; intros a H; cbn [load_bytes]; [reflexivity|].
  rewrite Nat2Z.inj_succ in H. unfold byte_at.
  rewrite H by lia. rewrite IH; [reflexivity|]. intros. apply H. lia.
Qed.

Lemma load_bytes_encoded n : forall m a v,
  (forall i, 0 <= i < Z.of_nat n -> byte_at m (a + i) = (v / 256 ^ i) mod 256) ->
  load_bytes n m a = v mod 256 ^ Z.of_nat n.
Proof.
  induction n as [|n IH]; intros m a v H.
  - cbn [load_bytes]. change (256 ^ Z.of_nat 0) with 1. rewrite Z.mod_1_r. reflexivity.
  - rewrite Nat2Z.inj_succ, Z.pow_succ_r by lia. cbn [load_bytes].
    rewrite (IH m (a + 1) (v / 256)).
    + specialize (H 0). rewrite Z.add_0_r, Z.pow_0_r, Z.div_1_r in H.
      rewrite H by lia. rewrite Z.rem_mul_r by (try apply Z.pow_nonzero; lia).
      reflexivity.
    + intros i Hi. replace (a + 1 + i) with (a + (i + 1)) by lia.
      rewrite H by lia. rewrite Z.pow_add_r, Z.pow_1_r by lia.
      rewrite (Z.mul_comm (256 ^ i)), Z.div_div by (try apply Z.pow_pos_nonneg; lia).
      reflexivity.
Qed.

Lemma load_word_range m a : 0 <= load_word m a < word_modulus.
Proof.
  unfold load_word, word_modulus. pose proof kWordSize_pos.
  pose proof (load_bytes_range (Z.to_nat kWordSize) m a) as H0.
  rewrite Z2Nat.id in H0 by lia. exact H0.
Qed.

Lemma load_word_ext m m' a :
  (forall x, a <= x < a + kWordSize -> m' x = m x) ->
  load_word m' a = load_word m a.
Proof.
  intros H. unfold load_word. apply load_bytes_ext.
  pose proof kWordSize_pos. rewrite Z2Nat.id by lia. exact H.
Qed.

Lemma store_word_other m a v x :
  ~ (a <= x < a + kWordSize) -> store_word m a v x = m x.
Proof.
  intros H. unfold store_word, store_bytes.
  apply in_range_false in H. rewrite H. reflexivity.
Qed.

Lemma load_store_word m a v :
  0 <= v < word_modulus -> load_word (store_word m a v) a = v.
Proof.
  intros Hv. unfold load_word. pose proof kWordSize_pos.
  rewrite (@load_bytes_encoded _ _ _ v).
  - rewrite Z2Nat.id by lia. apply Z.mod_small. exact Hv.
  - rewrite Z2Nat.id by lia. intros i Hi.
    unfold byte_at, store_word, store_bytes.
    assert (E : in_range a kWordSize (a + i) = true) by (apply in_range_true; lia).
    rewrite E. replace (a + i - a) with i by lia.
    apply Z.mod_mod. lia.
Qed.

Lemma memset_inside m dst c n x :
  dst <= x < dst + uword n -> memset m dst c n x = c mod 256.
Proof. intros H. unfold memset. apply in_range_true in H. rewrite H. reflexivity. Qed.

Lemma memset_other m dst c n x :
  ~ (dst <= x < dst + uword n) -> memset m dst c n x = m x.
Proof. intros H. unfold memset. apply in_range_false in H. rewrite H. reflexivity. Qed.

End MachineFacts.

Section LayoutFacts.
Context {P : Platform} {POK : PlatformOk P}.

Lemma extent_cons h l : extent (h :: l) = tags_size h + extent l.
Proof. reflexivity. Qed.

Lemma live_bytes_cons h l :
  live_bytes (h :: l) = if tags_marked h then tags_size h + live_bytes l else live_bytes l.
Proof. reflexivity. Qed.

Lemma extent_app l1 l2 : extent (l1 ++ l2) = extent l1 + extent l2.
Proof.
  induction l1 as [|h l1 IH]; [reflexivity|].
  rewrite <- app_comm_cons, !extent_cons, IH. lia.
Qed.

Lemma live_bytes_app l1 l2 : live_bytes (l1 ++ l2) = live_bytes l1 + live_bytes l2.
Proof.
  induction l1 as [|h l1 IH]; [reflexivity|].
  rewrite <- app_comm_cons, !live_bytes_cons, IH. destruct (tags_marked h); lia.
Qed.

Lemma sized_extent_nonneg hs : sized hs -> 0 <= extent hs.
Proof.
  induction 1 as [|h l [Hp _] _ IH]; [cbn; lia | rewrite extent_cons; lia].
Qed.

Lemma sized_length hs : sized hs -> Z.of_nat (length hs) <= extent hs.
Proof.
  induction 1 as [|h l [Hp _] _ IH]; [cbn; lia |].
  rewrite extent_cons. cbn [length]. lia.
Qed.

Lemma sized_extent_words hs : sized hs -> extent hs mod kWordSize = 0.
Proof.
  pose proof kWordSize_pos.
  induction 1 as [|h l [_ Ha] _ IH]; [apply Zmod_0_l |].
  rewrite extent_cons, Z.add_mod, Ha, IH by lia. apply Zmod_0_l.
Qed.

Lemma sized_first_word h l : sized (h :: l) -> kWordSize <= tags_size h.
Proof.
  intros Hs. inversion Hs as [|? ? [Hp Ha] _]; subst.
  pose proof kWordSize_pos.
  apply Z.mod_divide in Ha; [|lia]. destruct Ha as [q Hq].
  assert (0 < q) by (apply Z.nle_gt; intro; nia). nia.
Qed.

Lemma live_bytes_bounds hs : sized hs -> 0 <= live_bytes hs <= extent hs.
Proof.
  induction 1 as [|h l [Hp _] _ IH]; [cbn; lia |].
  rewrite extent_cons, live_bytes_cons.
  destruct (tags_marked h); lia.
Qed.

Lemma tiles_sized own m a hs e : tiles own m a hs e -> sized hs.
Proof.
  revert a. induction hs as [|h l IH]; intros a H; [constructor|].
  destruct H as (_ & Hp & Ha & _ & Hr). constructor; [split; assumption | exact (IH _ Hr)].
Qed.

Lemma tiles_extent own m a hs e : tiles own m a hs e -> a + extent hs = e.
Proof.
  revert a. induction hs as [|h l IH]; intros a H.
  - cbn in *. lia.
  - destruct H as (_ & _ & _ & _ & Hr). apply IH in Hr. rewrite extent_cons. lia.
Qed.

Lemma tiles_ext own m m' a hs e :
  (forall x, a <= x -> m' x = m x) ->
  tiles own m a hs e -> tiles own m' a hs e.
Proof.
  revert a. induction hs as [|h l IH]; intros a Hm H; [exact H|].
  destruct H as (Hl & Hp & Ha & Ho & Hr).
  cbn [tiles]. repeat split; try assumption.
  - rewrite <- Hl. apply load_word_ext. intros; apply Hm; lia.
  - apply IH; [|exact Hr]. intros; apply Hm; lia.
Qed.

Lemma tiles_app own m a l1 l2 e :
  tiles own m a (l1 ++ l2) e <->
  tiles own m a l1 (a + extent l1) /\ tiles own m (a + extent l1) l2 e.
Proof.
  revert a. induction l1 as [|h l IH]; intros a.
  - cbn [app tiles extent fold_right]. rewrite Z.add_0_r. tauto.
  - cbn [app tiles]. rewrite extent_cons, IH.
    replace (a + tags_size h + extent l) with (a + (tags_size h + extent l)) by lia.
    tauto.
Qed.

End LayoutFacts.

(** ** The loops of [SweepPage], one by one *)

Section LoopFacts.
Context {P : Platform} {POK : PlatformOk P}.

(** How the primitive operations run. *)

Lemma bind_returns A B (c : M A) (k : A -> M B) w a w' :
  c w = Ret (a, w') -> bind c k w = k a w'.
Proof. intros H. unfold bind. rewrite H. reflexivity. Qed.

Lemma bind_assoc A B C (c : M A) (k1 : A -> M B) (k2 : B -> M C) w :
  bind (bind c k1) k2 w = bind c (fun x => bind (k1 x) k2) w.
Proof. unfold bind. destruct (c w) as [[a w1]|f]; reflexivity. Qed.

Lemma bind_ret A B (a : A) (k : A -> M B) w : bind (ret a) k w = k a w.
Proof. reflexivity. Qed.

Lemma bind_IsMarked B a (k : bool -> M B) w :
  bind (IsMarked (FromAddr a)) k w =
  k (tags_marked (load_word (memory w) a)) (with_mark_tests (mark_tests w ++ [a]) w).
Proof. reflexivity. Qed.

Lemma bind_HeapSize B a (k : Z -> M B) w :
  bind (HeapSize (FromAddr a)) k w = k (tags_size (load_word (memory w) a)) w.
Proof. reflexivity. Qed.

Lemma bind_ClearMarkBit B a (k : unit -> M B) w :
  bind (ClearMarkBit (FromAddr a)) k w =
  k tt (with_memory (store_word (memory w) a
                       (tags_clear_mark (load_word (memory w) a))) w).
Proof. reflexivity. Qed.

Lemma ASSERT_holds c w : (DEBUG = true -> c = true) -> ASSERT c w = Ret (tt, w).
Proof.
  intros H. unfold ASSERT. destruct DEBUG; [|reflexivity].
  rewrite H by reflexivity. reflexivity.
Qed.

Lemma bind_ASSERT B c (k : unit -> M B) w :
  (DEBUG = true -> c = true) -> bind (ASSERT c) k w = k tt w.
Proof. intros H. apply bind_returns. apply ASSERT_holds. exact H. Qed.

Lemma fill_words_other k : forall m a x,
  ~ (a <= x < a + Z.of_nat k * kWordSize) -> fill_words k m a x = m x.
Proof.
  pose proof kWordSize_pos as Hw.
  induction k as [|k IH]; intros m a x Hx; [reflexivity|].
  cbn [fill_words]. rewrite IH by nia. apply store_word_other. nia.
Qed.

Lemma fill_words_filled k : forall m a,
  filled (fill_words k m a) a (Z.of_nat k * kWordSize).
Proof.
  pose proof kWordSize_pos as Hw.
  induction k as [|k IH]; intros m a j Hj Hle; [nia|].
  cbn [fill_words].
  destruct (Z.eq_dec j 0) as [->|Hne].
  - rewrite Z.mul_0_l, Z.add_0_r.
    rewrite (@load_word_ext _ _ (store_word m a GetBreakInstructionFiller)).
    + apply load_store_word. apply filler_word.
    + intros x Hx. apply fill_words_other. lia.
  - replace (a + j * kWordSize) with (a + kWordSize + (j - 1) * kWordSize) by lia.
    apply IH; nia.
Qed.

Lemma fill_run_words k : forall fuel cursor w,
  (k < fuel)%nat -> 0 <= cursor ->
  cursor + Z.of_nat k * kWordSize < word_modulus ->
  fill_run fuel cursor (cursor + Z.of_nat k * kWordSize) w =
  Ret (tt, with_memory (fill_words k (memory w) cursor) w).
Proof.
  pose proof kWordSize_pos as Hw.
  induction k as [|k IH]; intros fuel cursor w Hf Hc Hm;
    (destruct fuel as [|fuel]; [lia|]); cbn [fill_run fill_words].
  - rewrite Z.mul_0_l, Z.add_0_r, Z.ltb_irrefl. reflexivity.
  - assert (E : (cursor <? cursor + Z.of_nat (S k) * kWordSize) = true)
      by (apply Z.ltb_lt; nia).
    rewrite E. unfold bind at 1, write_uword.
    rewrite uword_small by nia.
    replace (cursor + Z.of_nat (S k) * kWordSize)
      with (cursor + kWordSize + Z.of_nat k * kWordSize) by lia.
    rewrite IH by (try lia; nia). reflexivity.
Qed.

Section OnePage.
Variables (own : Z -> Prop) (end_ : Z).
Hypothesis end_word : end_ < word_modulus.

Lemma extend_free_block_run run : forall fuel a w rest,
  tiles own (memory w) a (run ++ rest) end_ ->
  Forall unmarked run -> starts_marked rest ->
  (length run < fuel)%nat -> 0 <= a ->
  extend_free_block fuel a end_ w =
  Ret (a + extent run,
       with_mark_tests
         (mark_tests w ++ addresses a run ++ break_test (a + extent run) rest) w).
Proof.
  induction run as [|h run IH]; intros fuel a w rest Ht Hu Hr Hf Ha;
    (destruct fuel as [|fuel]; [cbn in Hf; lia|]); cbn [extend_free_block].
  - cbn [extent fold_right addresses app]. rewrite Z.add_0_r.
    destruct rest as [|h rest]; cbn [app] in Ht.
    + cbn in Ht. subst. rewrite Z.ltb_irrefl. cbn [break_test].
      rewrite app_nil_r. reflexivity.
    + pose proof (tiles_sized _ _ _ _ _ Ht) as Hs.
      pose proof (tiles_extent _ _ _ _ _ Ht) as He.
      pose proof (sized_extent_nonneg _ (Forall_inv_tail Hs)).
      destruct Ht as (Hl & Hp & _).
      rewrite extent_cons in He.
      assert (E : (a <? end_) = true) by (apply Z.ltb_lt; lia).
      rewrite E, bind_IsMarked, Hl. cbn in Hr. rewrite Hr. reflexivity.
  - rewrite <- app_comm_cons in Ht.
    pose proof (tiles_sized _ _ _ _ _ Ht) as Hs.
    pose proof (tiles_extent _ _ _ _ _ Ht) as He.
    pose proof (sized_extent_nonneg _ (Forall_inv_tail Hs)).
    destruct Ht as (Hl & Hp & _ & _ & Ht).
    rewrite extent_cons in He.
    assert (E : (a <? end_) = true) by (apply Z.ltb_lt; lia).
    rewrite E, bind_IsMarked, Hl, (Forall_inv Hu), bind_HeapSize.
    cbn [memory with_mark_tests]. rewrite Hl.
    rewrite uword_small by lia.
    rewrite (IH fuel (a + tags_size h) (with_mark_tests (mark_tests w ++ [a]) w)
               rest Ht (Forall_inv_tail Hu) Hr)
      by (cbn in Hf; lia).
    rewrite extent_cons. cbn [mark_tests with_mark_tests addresses].
    rewrite <- app_assoc. cbn [app].
    replace (a + tags_size h + extent run) with (a + (tags_size h + extent run)) by lia.
    reflexivity.
Qed.

End OnePage.
End LoopFacts.

(** ** The scan loop runs the reference sweep *)

Section Refinement.
Context {P : Platform} {POK : PlatformOk P}.
Variables (page : Z) (is_executable locked : bool) (start end_ : Z).
Hypothesis start_nonneg : 0 <= start.
Hypothesis end_word : end_ < word_modulus.
Hypothesis area_intptr : end_ - start < word_modulus / 2.

Notation close := (close_run is_executable locked start end_).
Notation header := (sweep_header is_executable locked start end_).
Notation reference := (reference_sweep is_executable locked start end_).

Lemma close_run_closed s : sw_pending s = None -> close s = s.
Proof. intros H. unfold close_run. rewrite H. reflexivity. Qed.

Lemma fold_unmarked run : forall s a,
  sw_pending s = Some a -> Forall unmarked run ->
  fold_left header run s =
  {| sw_pending := Some a; sw_pos := sw_pos s + extent run; sw_mem := sw_mem s;
     sw_calls := sw_calls s; sw_tests := sw_tests s ++ addresses (sw_pos s) run;
     sw_used := sw_used s |}.
Proof.
  induction run as [|h run IH]; intros s a Hp Hu.
  - destruct s as [pe po me ca te us]. cbn in Hp. subst pe.
    cbn [fold_left extent fold_right addresses sw_pos sw_tests].
    rewrite Z.add_0_r, app_nil_r. reflexivity.
  - cbn [fold_left]. rewrite (IH (header s h) a).
    + unfold sweep_header. rewrite (Forall_inv Hu).
      cbn [sw_pos sw_mem sw_calls sw_used sw_tests addresses].
      rewrite extent_cons, <- app_assoc. cbn [app]. f_equal. lia.
    + unfold sweep_header. rewrite (Forall_inv Hu), Hp. reflexivity.
    + exact (Forall_inv_tail Hu).
Qed.

Lemma close_run_pending s : sw_pending (close s) = None.
Proof. unfold close_run. destruct (sw_pending s) eqn:E; [reflexivity | exact E]. Qed.

Lemma close_run_pos s : sw_pos (close s) = sw_pos s.
Proof. unfold close_run. destruct (sw_pending s); reflexivity. Qed.

Lemma close_run_used s : sw_used (close s) = sw_used s.
Proof. unfold close_run. destruct (sw_pending s); reflexivity. Qed.

Lemma close_run_idem s : close (close s) = close s.
Proof. apply close_run_closed, close_run_pending. Qed.

Lemma reference_after_close rest s a :
  sw_pending s = Some a -> starts_marked rest ->
  reference rest s = reference rest (end_tested rest (close s)).
Proof.
  intros Hp Hr. unfold reference_sweep. destruct rest as [|h rest].
  - cbn [fold_left]. unfold end_tested. cbn [break_test].
    rewrite app_nil_r. rewrite close_run_idem. reflexivity.
  - cbn [fold_left]. cbn in Hr. f_equal. f_equal.
    unfold sweep_header. rewrite Hr.
    assert (Hc : close (end_tested (h :: rest) (close s)) = end_tested (h :: rest) (close s))
      by (apply close_run_closed; apply close_run_pending).
    rewrite Hc. cbn [end_tested sw_pending sw_pos sw_mem sw_calls sw_tests sw_used break_test].
    rewrite close_run_pending, close_run_pos, close_run_used, Hp.
    replace (sw_tests (close s)) with (sw_tests s)
      by (unfold close_run; rewrite Hp; reflexivity).
    rewrite <- app_assoc. reflexivity.
Qed.

Lemma span_unmarked (l : list Z) :
  exists run rest, l = run ++ rest /\ Forall unmarked run /\ starts_marked rest.
Proof.
  induction l as [|h l (run & rest & -> & Hu & Hr)].
  - exists [], []. repeat split; constructor.
  - destruct (tags_marked h) eqn:E.
    + exists [], (h :: run ++ rest). repeat split; [constructor | exact E].
    + exists (h :: run), rest. repeat split; [constructor; assumption | exact Hr].
Qed.

Lemma poison_other m a n x :
  0 <= n < word_modulus -> n mod kWordSize = 0 ->
  ~ (a <= x < a + n) -> poison is_executable m a n x = m x.
Proof.
  intros Hn Hal Hx. pose proof kWordSize_pos as Hw. unfold poison.
  destruct is_executable.
  - apply fill_words_other.
    rewrite Z2Nat.id by (apply Z.div_pos; lia).
    apply Z.mod_divide in Hal; [|lia]. destruct Hal as [q ->].
    rewrite Z.div_mul by lia. exact Hx.
  - destruct DEBUG; [|reflexivity].
    apply memset_other. rewrite uword_small by exact Hn. exact Hx.
Qed.

Definition scan_of (s : Sweep) : Scan := {| current := sw_pos s; used := sw_used s |}.

(** One pass through the body of the scan loop, from a state of the
    reference sweep in which no run is open: the pass takes the object [h]
    at the position and, if [h] is unmarked, the unmarked objects [run]
    after it. *)
Lemma sweep_object_refines h l fuel s w :
  sw_pending s = None ->
  tiles (on_page page) (sw_mem s) (sw_pos s) (h :: l) end_ ->
  start <= sw_pos s -> 0 <= sw_used s ->
  sw_used s + extent (h :: l) <= end_ - start ->
  end_ - sw_pos s + 1 <= Z.of_nat fuel ->
  exists run rest sc,
    l = run ++ rest /\
    sweep_object fuel page is_executable locked start end_ (scan_of s) (install s w)
    = Ret (scan_of sc, install sc w) /\
    sw_pending sc = None /\
    sw_pos sc = sw_pos s + tags_size h + extent run /\
    sw_used sc = sw_used s + (if tags_marked h then tags_size h else 0) /\
    tiles (on_page page) (sw_mem sc) (sw_pos sc) rest end_ /\
    reference (h :: l) s = reference rest sc.
Proof.
  pose proof kWordSize_pos as Hw. pose proof word_modulus_even as Hev.
  intros Hpe Ht Hst Hus Hub Hf.
  pose proof (tiles_sized _ _ _ _ _ Ht) as Hs.
  pose proof (tiles_extent _ _ _ _ _ Ht) as He.
  pose proof (sized_first_word _ _ Hs) as Hfw.
  pose proof (sized_extent_nonneg _ (Forall_inv_tail Hs)) as Hnn.
  rewrite extent_cons in He, Hub.
  destruct Ht as (Hl & Hp & Hal & Hown & Ht). unfold on_page in Hown.
  assert (Hl' : load_word (memory (install s w)) (sw_pos s) = h) by exact Hl.
  destruct (tags_marked h) eqn:Hm.
  - (* a marked object *)
    set (s1 := header s h).
    assert (Hs1 : s1 = {| sw_pending := None; sw_pos := sw_pos s + tags_size h;
                          sw_mem := store_word (sw_mem s) (sw_pos s) (tags_clear_mark h);
                          sw_calls := sw_calls s;
                          sw_tests := sw_tests s ++ [sw_pos s];
                          sw_used := sw_used s + tags_size h |}).
    { unfold s1, sweep_header. rewrite Hm, (close_run_closed _ Hpe), Hpe. reflexivity. }
    exists [], l, s1. split; [reflexivity|]. split.
    { unfold sweep_object. cbn [scan_of current used].
      rewrite bind_ASSERT
        by (intro D; unfold HeapPage_Of; cbn [ToAddr]; apply Z.eqb_eq; auto).
      rewrite bind_IsMarked, Hl', Hm, bind_ClearMarkBit, bind_HeapSize.
      cbn [memory with_memory with_mark_tests]. rewrite Hl'.
      rewrite load_store_word
        by (apply clear_mark_word; rewrite <- Hl; apply load_word_range).
      rewrite clear_mark_size.
      rewrite uword_small, intptr_small by lia.
      rewrite Hs1. reflexivity. }
    rewrite Hs1 at 1 2 3 4. cbn [sw_pending sw_mem sw_pos sw_used extent fold_right].
    repeat split; try lia.
    + rewrite Hs1. cbn [sw_mem sw_pos].
      apply tiles_ext with (m := sw_mem s); [|exact Ht].
      intros x Hx. apply store_word_other. lia.
  - (* an unmarked object: the run it begins *)
    destruct (span_unmarked l) as (run & rest & -> & Hu & Hr).
    apply tiles_app in Ht. destruct Ht as [Htrun Htrest].
    rewrite extent_app in *.
    apply Forall_inv_tail in Hs. apply Forall_app in Hs. destruct Hs as [Hsrun Hsrest].
    pose proof (sized_extent_nonneg _ Hsrun) as Hnrun.
    pose proof (sized_extent_nonneg _ Hsrest) as Hnrest.
    pose proof (sized_extent_words _ Hsrun) as Hwrun.
    pose proof (sized_length _ Hsrun) as Hlrun.
    set (n1 := tags_size h + extent run) in *.
    set (s0 := {| sw_pending := Some (sw_pos s); sw_pos := sw_pos s + n1;
                  sw_mem := sw_mem s; sw_calls := sw_calls s;
                  sw_tests := sw_tests s ++ [sw_pos s]
                              ++ addresses (sw_pos s + tags_size h) run;
                  sw_used := sw_used s |}).
    assert (Hn1 : n1 mod kWordSize = 0).
    { unfold n1. rewrite Z.add_mod, Hal, Hwrun by lia. apply Zmod_0_l. }
    assert (Hfold : fold_left header (h :: run) s = s0).
    { cbn [fold_left]. rewrite (@fold_unmarked run _ (sw_pos s)).
      - unfold sweep_header. rewrite Hm.
        cbn [sw_pos sw_mem sw_calls sw_used sw_tests].
        unfold s0, n1. rewrite <- app_assoc. f_equal. lia.
      - unfold sweep_header. rewrite Hm, Hpe. reflexivity.
      - exact Hu. }
    set (sc := end_tested rest (close s0)).
    assert (Hsc : sc =
      {| sw_pending := None; sw_pos := sw_pos s + n1;
         sw_mem := poison is_executable (sw_mem s) (sw_pos s) n1;
         sw_calls :=
           if negb (sw_pos s =? start) || negb (sw_pos s + n1 =? end_) then
             sw_calls s ++ [{| fl_locked := locked; fl_addr := sw_pos s; fl_size := n1;
                               fl_memory := poison is_executable (sw_mem s) (sw_pos s) n1 |}]
           else sw_calls s;
         sw_tests := (sw_tests s ++ [sw_pos s] ++ addresses (sw_pos s + tags_size h) run)
                     ++ break_test (sw_pos s + n1) rest;
         sw_used := sw_used s |}).
    { unfold sc, end_tested, close_run, s0.
      cbn [sw_pending sw_pos sw_mem sw_calls sw_used sw_tests].
      replace (sw_pos s + n1 - sw_pos s) with n1 by lia. reflexivity. }
    exists run, rest, sc. split; [reflexivity|]. split.
    { unfold sweep_object. cbn [scan_of current used].
      rewrite bind_ASSERT
        by (intro D; unfold HeapPage_Of; cbn [ToAddr]; apply Z.eqb_eq; auto).
      rewrite bind_IsMarked, Hl', Hm, bind_HeapSize.
      cbn [memory with_mark_tests]. rewrite Hl'.
      rewrite uword_small by lia.
      match goal with
      | |- bind (extend_free_block _ _ _) _ ?w1 = _ =>
          assert (Hext : extend_free_block fuel (sw_pos s + tags_size h) end_ w1
                         = Ret (sw_pos s + tags_size h + extent run,
                                with_mark_tests
                                  (mark_tests w1
                                   ++ addresses (sw_pos s + tags_size h) run
                                   ++ break_test (sw_pos s + tags_size h + extent run) rest)
                                  w1))
      end.
      { apply extend_free_block_run with (own := on_page page) (rest := rest);
          try assumption; try lia.
        apply tiles_app. split; assumption. }
      rewrite (@bind_returns _ _ _ _ _ _ _ Hext).
      replace (sw_pos s + tags_size h + extent run - sw_pos s) with n1 by (unfold n1; lia).
      replace (sw_pos s + tags_size h + extent run) with (sw_pos s + n1) by (unfold n1; lia).
      rewrite intptr_small by lia.
      rewrite uword_small by lia.
      match goal with
      | |- bind _ _ ?w2 = _ =>
          assert (Hpoison :
            (if is_executable
             then fill_run fuel (sw_pos s) (sw_pos s + n1)
             else if DEBUG then Memset (sw_pos s) kZapByte n1 else ret tt) w2
            = Ret (tt, with_memory (poison is_executable (sw_mem s) (sw_pos s) n1) w2))
      end.
      { unfold poison. destruct is_executable.
        - apply Z.mod_divide in Hn1; [|lia]. destruct Hn1 as [q Hq].
          assert (0 <= q) by nia.
          rewrite Hq, Z.div_mul by lia.
          rewrite <- (Z2Nat.id q) at 1 by lia.
          rewrite fill_run_words; [reflexivity | | lia | rewrite Z2Nat.id by lia; lia].
          apply Nat2Z.inj_lt. rewrite Z2Nat.id by lia. nia.
        - destruct DEBUG; reflexivity. }
      rewrite (@bind_returns _ _ _ _ _ _ _ Hpoison).
      rewrite Hsc. unfold scan_of, install.
      cbn [sw_pending sw_pos sw_mem sw_calls sw_used sw_tests].
      destruct (negb (sw_pos s =? start) || negb (sw_pos s + n1 =? end_));
        [destruct locked|]; cbn; rewrite <- !app_assoc; reflexivity. }
    rewrite Hsc at 1 2 3 4. cbn [sw_pending sw_pos sw_mem sw_used].
    repeat split; try (unfold n1; lia).
    + rewrite Hsc. cbn [sw_pos sw_mem].
      replace (sw_pos s + n1) with (sw_pos s + tags_size h + extent run)
        by (unfold n1; lia).
      apply tiles_ext with (m := sw_mem s); [|exact Htrest].
      intros x Hx. apply poison_other; unfold n1 in *; try lia; assumption.
    + unfold sc. rewrite <- (@reference_after_close rest s0 (sw_pos s) eq_refl Hr).
      unfold reference_sweep.
      change (h :: run ++ rest) with ((h :: run) ++ rest).
      rewrite fold_left_app, Hfold. reflexivity.
Qed.

Lemma sweep_loop_refines n : forall hs, (length hs <= n)%nat ->
  forall fuel s w,
  sw_pending s = None ->
  tiles (on_page page) (sw_mem s) (sw_pos s) hs end_ ->
  start <= sw_pos s -> 0 <= sw_used s ->
  sw_used s + extent hs <= end_ - start ->
  end_ - sw_pos s + 2 <= Z.of_nat fuel ->
  sweep_loop fuel page is_executable locked start end_ (scan_of s) (install s w) =
  Ret (scan_of (reference hs s), install (reference hs s) w).
Proof.
  assert (Hnil : forall fuel s w, sw_pending s = None -> sw_pos s = end_ ->
            (0 < fuel)%nat ->
            sweep_loop fuel page is_executable locked start end_ (scan_of s) (install s w)
            = Ret (scan_of (reference [] s), install (reference [] s) w)).
  { intros fuel s w Hpe Ht Hf. destruct fuel as [|fuel]; [lia|].
    cbn [sweep_loop scan_of current]. rewrite Ht, Z.ltb_irrefl.
    unfold reference_sweep. cbn [fold_left]. rewrite (close_run_closed _ Hpe).
    reflexivity. }
  induction n as [|n IH]; intros hs Hlen fuel s w Hpe Ht Hst Hus Hub Hf.
  - destruct hs; [|cbn in Hlen; lia].
    cbn in Ht. apply Hnil; [assumption | exact Ht | lia].
  - destruct hs as [|h l]; [cbn in Ht; apply Hnil; [assumption | exact Ht | lia]|].
    pose proof (tiles_sized _ _ _ _ _ Ht) as Hs.
    pose proof (tiles_extent _ _ _ _ _ Ht) as He.
    pose proof (Forall_inv Hs) as [Hp _].
    pose proof (Forall_inv_tail Hs) as Hsl.
    pose proof (sized_extent_nonneg _ Hsl) as Hnn.
    rewrite extent_cons in He.
    destruct fuel as [|fuel]; [lia|].
    destruct (@sweep_object_refines h l fuel s w Hpe Ht Hst Hus Hub ltac:(lia))
      as (run & rest & sc & -> & Hstep & Hpc & Hposc & Husedc & Htc & Href).
    apply Forall_app in Hsl. destruct Hsl as [Hsrun Hsrest].
    pose proof (sized_extent_nonneg _ Hsrun) as Hnrun.
    pose proof (sized_extent_nonneg _ Hsrest) as Hnrest.
    rewrite extent_cons, extent_app in Hub.
    cbn [sweep_loop scan_of current].
    assert (E : (sw_pos s <? end_) = true) by (apply Z.ltb_lt; lia).
    rewrite E. clear E.
    rewrite (@bind_returns _ _ _ _ _ _ _ Hstep), Href.
    apply (IH rest); try assumption.
    + cbn in Hlen. rewrite length_app in Hlen. lia.
    + lia.
    + rewrite Husedc. destruct (tags_marked h); lia.
    + rewrite Husedc. destruct (tags_marked h); lia.
    + lia.
Qed.

End Refinement.

(** ** [SweepPage] as a whole *)

Section SweepPageFacts.
Context {P : Platform} {POK : PlatformOk P}.

Lemma fold_header_pos exec locked start end_ hs : forall s,
  sw_pos (fold_left (sweep_header exec locked start end_) hs s) = sw_pos s + extent hs.
Proof.
  induction hs as [|h l IH]; intros s; cbn [fold_left].
  - cbn. lia.
  - rewrite IH, extent_cons. unfold sweep_header.
    destruct (tags_marked h); cbn [sw_pos]; lia.
Qed.

Lemma fold_header_used exec locked start end_ hs : forall s,
  sw_used (fold_left (sweep_header exec locked start end_) hs s)
  = sw_used s + live_bytes hs.
Proof.
  induction hs as [|h l IH]; intros s; cbn [fold_left].
  - cbn. lia.
  - rewrite IH, live_bytes_cons. unfold sweep_header.
    destruct (tags_marked h); cbn [sw_used]; lia.
Qed.

Lemma reference_pos exec locked start end_ hs s :
  sw_pos (reference_sweep exec locked start end_ hs s) = sw_pos s + extent hs.
Proof. unfold reference_sweep. rewrite close_run_pos. apply fold_header_pos. Qed.

Lemma reference_used exec locked start end_ hs s :
  sw_used (reference_sweep exec locked start end_ hs s) = sw_used s + live_bytes hs.
Proof. unfold reference_sweep. rewrite close_run_used. apply fold_header_used. Qed.

(** The preconditions of [SweepPage]: [page] points to [p], which is not an
    image page, and whose object area is tiled by the objects [hs]. *)
Definition sweepable (w : World) (page : Z) (p : HeapPage) (hs : list Z) : Prop :=
  pages w page = Some p /\
  (DEBUG = true -> is_image_page p = false) /\
  page_bounds p /\
  tiles (on_page page) (memory w) (object_start p) hs (object_end p).

(** The world that [SweepPage] leaves. *)
Definition after_sweep (w : World) (page : Z) (p : HeapPage) (locked : bool)
    (hs : list Z) : World :=
  with_pages (pages_with (pages w) page (page_with_used p (live_bytes hs)))
    (install (swept_page p locked hs w) w).

Lemma scan_loop_result fuel w page p locked hs :
  sweepable w page p hs ->
  object_end p - object_start p + 2 <= Z.of_nat fuel ->
  sweep_loop fuel page (PageType_eqb (type p) kExecutable) locked
    (object_start p) (object_end p) {| current := object_start p; used := 0 |} w
  = Ret ({| current := object_end p; used := live_bytes hs |},
         install (swept_page p locked hs w) w).
Proof.
  intros (Hpg & Himg & (Hb1 & Hb2 & Hb3) & Ht) Hf.
  pose proof (tiles_extent _ _ _ _ _ Ht) as He.
  pose proof (live_bytes_bounds _ (tiles_sized _ _ _ _ _ Ht)) as Hlb.
  pose proof (@sweep_loop_refines _ _ page (PageType_eqb (type p) kExecutable) locked
                (object_start p) (object_end p) ltac:(lia) Hb2 Hb3
                (length hs) hs (le_n _) fuel (initial_sweep p w) w) as H.
  unfold swept_page.
  replace {| current := object_end p; used := live_bytes hs |}
    with (scan_of (reference_sweep (PageType_eqb (type p) kExecutable) locked
                     (object_start p) (object_end p) hs (initial_sweep p w))).
  - apply H; cbn [initial_sweep sw_pending sw_mem sw_pos sw_used];
      try reflexivity; try assumption; lia.
  - unfold scan_of. rewrite reference_pos, reference_used.
    cbn [initial_sweep sw_pos sw_used]. f_equal; lia.
Qed.

Lemma SweepPage_result fuel w page p locked hs :
  sweepable w page p hs ->
  object_end p - object_start p + 2 <= Z.of_nat fuel ->
  SweepPage fuel page locked w =
  Ret (negb (live_bytes hs =? 0), after_sweep w page p locked hs).
Proof.
  intros Hsw Hf.
  assert (Hloop := @scan_loop_result fuel w page p locked hs Hsw Hf).
  destruct Hsw as (Hpg & Himg & Hb & Ht).
  unfold SweepPage.
  assert (Hload : load_page page w = Ret (p, w)) by (unfold load_page; rewrite Hpg; reflexivity).
  rewrite (@bind_returns _ _ _ _ _ _ _ Hload).
  rewrite bind_ASSERT by (intro D; rewrite (Himg D); reflexivity).
  rewrite (@bind_returns _ _ _ _ _ _ _ Hloop). cbn [current used].
  rewrite bind_ASSERT by (intro; apply Z.eqb_refl).
  unfold bind, set_used_in_bytes, ret, after_sweep.
  cbn [pages install with_freelist with_memory with_mark_tests]. rewrite Hpg. reflexivity.
Qed.

End SweepPageFacts.

(** ** What the reference sweep does *)

Section ReferenceFacts.
Context {P : Platform} {POK : PlatformOk P}.
Variables (is_executable locked : bool) (start end_ : Z).

Notation close := (close_run is_executable locked start end_).
Notation header := (sweep_header is_executable locked start end_).
Notation reference := (reference_sweep is_executable locked start end_).

(** Where the garbage run that is open in a state begins; the position of
    the state when none is open. *)
Definition run_start (s : Sweep) : Z :=
  match sw_pending s with
  | Some a => a
  | None => sw_pos s
  end.

Definition pending_ok (s : Sweep) : Prop :=
  match sw_pending s with
  | Some a => a < sw_pos s /\ (sw_pos s - a) mod kWordSize = 0
  | None => True
  end.

(** What the bytes of a garbage range hold, by page type and build. *)
Definition poisoned (m0 m : mem) (a n : Z) : Prop :=
  if is_executable then filled m a n
  else if DEBUG then zapped m a n
  else untouched m0 m a n.

(** A call for a range within [lo, hi), with the lock flag of the sweep and
    the range poisoned in the memory that is handed over. *)
Definition call_ok (lo hi : Z) (c : FreeListCall) : Prop :=
  lo <= fl_addr c /\ 0 < fl_size c /\ fl_addr c + fl_size c <= hi /\
  fl_locked c = locked /\
  (negb (fl_addr c =? start) || negb (fl_addr c + fl_size c =? end_) = true) /\
  poisoned (fl_memory c) (fl_memory c) (fl_addr c) (fl_size c).

Lemma call_ok_weaken lo hi lo' hi' c :
  lo' <= lo -> hi <= hi' -> call_ok lo hi c -> call_ok lo' hi' c.
Proof. unfold call_ok. intuition lia. Qed.

Lemma run_start_le s : pending_ok s -> run_start s <= sw_pos s.
Proof. unfold pending_ok, run_start. destruct (sw_pending s); lia. Qed.

Lemma poison_poisoned m0 m a n :
  0 <= n < word_modulus -> n mod kWordSize = 0 ->
  (forall x, a <= x < a + n -> m x = m0 x) ->
  poisoned m0 (poison is_executable m a n) a n.
Proof.
  intros Hn Hal Hm. pose proof kWordSize_pos as Hw. unfold poisoned, poison.
  destruct is_executable.
  - apply Z.mod_divide in Hal; [|lia]. destruct Hal as [q ->].
    assert (0 <= q) by nia.
    rewrite Z.div_mul by lia.
    rewrite <- (Z2Nat.id q) at 2 by lia. apply fill_words_filled.
  - destruct DEBUG.
    + intros x Hx. rewrite memset_inside by (rewrite uword_small; lia).
      apply Z.mod_small. apply kZapByte_byte.
    + exact Hm.
Qed.

Lemma poison_handed m a n :
  0 <= n < word_modulus -> n mod kWordSize = 0 ->
  poisoned (poison is_executable m a n) (poison is_executable m a n) a n.
Proof.
  intros Hn Hal.
  pose proof (@poison_poisoned m m a n Hn Hal (fun x _ => eq_refl)) as H.
  unfold poisoned in *. destruct is_executable; [exact H|].
  destruct DEBUG; [exact H|]. intros x Hx. reflexivity.
Qed.

Lemma poisoned_ext m0 m m' a n :
  (forall x, a <= x < a + n -> m' x = m x) ->
  poisoned m0 m a n -> poisoned m0 m' a n.
Proof.
  intros He. pose proof kWordSize_pos as Hw. unfold poisoned.
  destruct is_executable; [|destruct DEBUG].
  - intros Hf k Hk Hle. rewrite <- (Hf k Hk Hle).
    apply load_word_ext. intros x Hx. apply He. nia.
  - intros Hz x Hx. rewrite He by exact Hx. apply Hz. exact Hx.
  - intros Hu x Hx. rewrite He by exact Hx. apply Hu. exact Hx.
Qed.

Lemma poisoned_base m0 m0' m a n :
  (forall x, a <= x < a + n -> m0' x = m0 x) ->
  poisoned m0 m a n -> poisoned m0' m a n.
Proof.
  intros He. unfold poisoned.
  destruct is_executable; [|destruct DEBUG]; try (intros H; exact H).
  intros Hu x Hx. rewrite He by exact Hx. apply Hu. exact Hx.
Qed.

Lemma poisoned_split m0 m a n1 n2 :
  0 <= n1 -> 0 <= n2 -> n1 mod kWordSize = 0 ->
  poisoned m0 m a (n1 + n2) ->
  poisoned m0 m a n1 /\ poisoned m0 m (a + n1) n2.
Proof.
  intros H1 H2 Hal. pose proof kWordSize_pos as Hw. unfold poisoned.
  destruct is_executable; [|destruct DEBUG].
  - intros Hf. split.
    + intros k Hk Hle. apply Hf; lia.
    + intros k Hk Hle.
      apply Z.mod_divide in Hal; [|lia]. destruct Hal as [q ->].
      assert (0 <= q) by nia.
      replace (a + q * kWordSize + k * kWordSize) with (a + (q + k) * kWordSize) by lia.
      apply Hf; [lia | nia].
  - intros Hz. split; intros x Hx; apply Hz; lia.
  - intros Hu. split; intros x Hx; apply Hu; lia.
Qed.

Lemma close_calls s :
  pending_ok s -> 0 <= run_start s -> sw_pos s < word_modulus ->
  exists new, sw_calls (close s) = sw_calls s ++ new /\
              Forall (call_ok (run_start s) (sw_pos s)) new.
Proof.
  unfold pending_ok, run_start, close_run.
  destruct (sw_pending s) as [a|]; intros Hok Ha Hp.
  - cbn [sw_calls].
    destruct (negb (a =? start) || negb (sw_pos s =? end_)) eqn:Hc.
    + eexists. split; [reflexivity|]. constructor; [|constructor].
      unfold call_ok. cbn [fl_addr fl_size fl_locked fl_memory].
      replace (a + (sw_pos s - a)) with (sw_pos s) by lia.
      repeat split; try lia; try assumption.
      apply poison_handed; [lia | tauto].
    + exists []. rewrite app_nil_r. split; [reflexivity | constructor].
  - exists []. rewrite app_nil_r. split; [reflexivity | constructor].
Qed.

Lemma header_pending_ok s h :
  pending_ok s -> 0 < tags_size h -> tags_size h mod kWordSize = 0 ->
  pending_ok (header s h).
Proof.
  intros Hok Hp Hal. pose proof kWordSize_pos as Hw.
  unfold sweep_header, pending_ok in *.
  destruct (tags_marked h); cbn [sw_pending sw_pos]; [exact I|].
  destruct (sw_pending s) as [a|].
  - destruct Hok as [Hlt Hm]. split; [lia|].
    replace (sw_pos s + tags_size h - a) with ((sw_pos s - a) + tags_size h) by lia.
    rewrite Z.add_mod, Hm, Hal by lia. apply Zmod_0_l.
  - split; [lia|].
    replace (sw_pos s + tags_size h - sw_pos s) with (tags_size h) by lia. exact Hal.
Qed.

Lemma header_run_start s h :
  pending_ok s ->
  run_start (header s h) =
  if tags_marked h then sw_pos s + tags_size h else run_start s.
Proof.
  intros Hok. unfold sweep_header, run_start.
  destruct (tags_marked h); reflexivity.
Qed.

Lemma header_pos s h : sw_pos (header s h) = sw_pos s + tags_size h.
Proof. unfold sweep_header. destruct (tags_marked h); reflexivity. Qed.

Lemma header_calls s h :
  pending_ok s -> 0 <= run_start s -> sw_pos s < word_modulus ->
  exists new, sw_calls (header s h) = sw_calls s ++ new /\
              Forall (call_ok (run_start s) (sw_pos s)) new.
Proof.
  intros Hok Ha Hp. unfold sweep_header.
  destruct (tags_marked h); cbn [sw_calls].
  - apply close_calls; assumption.
  - exists []. rewrite app_nil_r. split; [reflexivity | constructor].
Qed.

Lemma fold_calls hs : forall s,
  sized hs -> pending_ok s -> 0 <= run_start s ->
  sw_pos s + extent hs < word_modulus ->
  pending_ok (fold_left header hs s) /\
  run_start s <= run_start (fold_left header hs s) /\
  exists new, sw_calls (fold_left header hs s) = sw_calls s ++ new /\
              Forall (call_ok (run_start s) (run_start (fold_left header hs s))) new.
Proof.
  induction hs as [|h l IH]; intros s Hs Hok Ha Hb; cbn [fold_left].
  - repeat split; [assumption | lia |].
    exists []. rewrite app_nil_r. split; [reflexivity | constructor].
  - inversion Hs as [|? ? [Hp Hal] Hsl]; subst.
    pose proof (sized_extent_nonneg _ Hsl) as Hnn.
    pose proof (run_start_le _ Hok) as Hle.
    rewrite extent_cons in Hb.
    pose proof (header_pending_ok _ _ Hok Hp Hal) as Hok1.
    pose proof (header_run_start _ h Hok) as Hrs.
    assert (Hmid : run_start s <= run_start (header s h) /\
                   sw_pos s <= run_start (header s h) \/
                   run_start (header s h) = run_start s /\ tags_marked h = false).
    { rewrite Hrs. destruct (tags_marked h); [left; lia | right; split; reflexivity]. }
    destruct (header_calls _ h Hok Ha) as (new0 & Hc0 & Hf0); [lia|].
    destruct (IH (header s h) Hsl Hok1) as (Hok' & Hle' & new1 & Hc1 & Hf1).
    { destruct Hmid as [[? ?]|[-> _]]; lia. }
    { rewrite header_pos. lia. }
    split; [exact Hok'|]. split; [destruct Hmid as [[? ?]|[E _]]; lia|].
    exists (new0 ++ new1). split.
    + rewrite Hc1, Hc0, app_assoc. reflexivity.
    + apply Forall_app. split.
      * destruct Hmid as [[? ?]|[E Hm]].
        -- eapply Forall_impl; [|exact Hf0].
           intros c. apply call_ok_weaken; lia.
        -- unfold sweep_header in Hc0. rewrite Hm in Hc0. cbn [sw_calls] in Hc0.
           assert (new0 = []) as ->; [|constructor].
           rewrite <- (app_nil_r (sw_calls s)) in Hc0 at 1.
           apply app_inv_head in Hc0. symmetry. exact Hc0.
      * eapply Forall_impl; [|exact Hf1].
        intros c. apply call_ok_weaken; [|lia].
        destruct Hmid as [[? ?]|[E _]]; lia.
Qed.

Lemma reference_calls hs s :
  sized hs -> pending_ok s -> 0 <= run_start s ->
  sw_pos s + extent hs < word_modulus ->
  exists new, sw_calls (reference hs s) = sw_calls s ++ new /\
              Forall (call_ok (run_start s) (sw_pos s + extent hs)) new.
Proof.
  intros Hs Hok Ha Hb. unfold reference_sweep.
  destruct (fold_calls _ _ Hs Hok Ha Hb) as (Hok' & Hle & new1 & Hc1 & Hf1).
  pose proof (run_start_le _ Hok') as Hle'.
  rewrite fold_header_pos in Hle'.
  destruct (close_calls _ Hok') as (new2 & Hc2 & Hf2);
    [lia | rewrite fold_header_pos; lia |].
  rewrite fold_header_pos in Hf2.
  exists (new1 ++ new2). split.
  - rewrite Hc2, Hc1, app_assoc. reflexivity.
  - apply Forall_app. split.
    + eapply Forall_impl; [|exact Hf1]. intros c. apply call_ok_weaken; lia.
    + eapply Forall_impl; [|exact Hf2]. intros c. apply call_ok_weaken; lia.
Qed.

Lemma poisoned_nil m0 m a n : n <= 0 -> poisoned m0 m a n.
Proof.
  intros Hn. pose proof kWordSize_pos as Hw. unfold poisoned.
  destruct is_executable; [|destruct DEBUG].
  - intros k Hk Hle. nia.
  - intros x Hx. lia.
  - intros x Hx. lia.
Qed.

Lemma close_memory s :
  pending_ok s -> 0 <= run_start s -> sw_pos s < word_modulus ->
  (forall x, x < run_start s \/ sw_pos s <= x -> sw_mem (close s) x = sw_mem s x) /\
  poisoned (sw_mem s) (sw_mem (close s)) (run_start s) (sw_pos s - run_start s).
Proof.
  unfold pending_ok, run_start, close_run.
  destruct (sw_pending s) as [a|]; intros Hok Ha Hp; cbn [sw_mem].
  - split.
    + intros x Hx. apply poison_other; [lia | tauto | lia].
    + apply poison_poisoned; [lia | tauto | reflexivity].
  - split; [reflexivity | apply poisoned_nil; lia].
Qed.

(** A word of the machine. *)
Definition is_word (h : Z) : Prop := 0 <= h < word_modulus.

(** The memory after the reference sweep of [hs] from the state [s]:
    nothing changes outside of the open run and the objects; the open run
    is poisoned; a marked object has its header rewritten without the mark
    and keeps its other bytes; an unmarked object is poisoned. *)
Lemma reference_memory hs : forall s,
  sized hs -> Forall is_word hs -> pending_ok s -> 0 <= run_start s ->
  sw_pos s + extent hs < word_modulus ->
  (forall x, x < run_start s \/ sw_pos s + extent hs <= x ->
             sw_mem (reference hs s) x = sw_mem s x) /\
  poisoned (sw_mem s) (sw_mem (reference hs s)) (run_start s) (sw_pos s - run_start s) /\
  (forall pre h post, hs = pre ++ h :: post ->
     if tags_marked h then
       load_word (sw_mem (reference hs s)) (sw_pos s + extent pre) = tags_clear_mark h /\
       (forall x, sw_pos s + extent pre + kWordSize <= x
                  < sw_pos s + extent pre + tags_size h ->
                  sw_mem (reference hs s) x = sw_mem s x)
     else
       poisoned (sw_mem s) (sw_mem (reference hs s)) (sw_pos s + extent pre) (tags_size h)).
Proof.
  pose proof kWordSize_pos as Hw.
  induction hs as [|h l IH]; intros s Hs Hwd Hok Ha Hb.
  - cbn [extent fold_right] in *. rewrite Z.add_0_r in *.
    unfold reference_sweep. cbn [fold_left].
    destruct (close_memory s Hok Ha Hb) as [H1 H2].
    split; [exact H1|]. split; [exact H2|].
    intros pre h post E. destruct pre; discriminate.
  - inversion Hs as [|? ? [Hp Hal] Hsl]; subst.
    inversion Hwd as [|? ? Hh Hwl]; subst.
    pose proof (sized_extent_nonneg _ Hsl) as Hnn.
    pose proof (sized_first_word _ _ Hs) as Hfw.
    pose proof (run_start_le _ Hok) as Hle.
    rewrite extent_cons in *.
    pose proof (header_pending_ok _ _ Hok Hp Hal) as Hok1.
    pose proof (header_run_start _ h Hok) as Hrs.
    pose proof (header_pos s h) as Hpos.
    change (reference (h :: l) s) with (reference l (header s h)).
    destruct (IH (header s h) Hsl Hwl Hok1) as (I1 & I2 & I3).
    { rewrite Hrs. destruct (tags_marked h); lia. }
    { rewrite Hpos. lia. }
    rewrite Hpos in I1, I2, I3.
    destruct (tags_marked h) eqn:Hm.
    + (* marked *)
      rewrite Hrs in I1, I2.
      destruct (close_memory s Hok Ha) as [C1 C2]; [lia|].
      assert (Hm1 : sw_mem (header s h)
                    = store_word (sw_mem (close s)) (sw_pos s) (tags_clear_mark h)).
      { unfold sweep_header. rewrite Hm. reflexivity. }
      assert (Fa : forall x, x < run_start s \/ sw_pos s + kWordSize <= x ->
                             sw_mem (header s h) x = sw_mem s x).
      { intros x Hx. rewrite Hm1, store_word_other by lia. apply C1. lia. }
      assert (Fb : forall x, x < sw_pos s -> sw_mem (header s h) x = sw_mem (close s) x).
      { intros x Hx. rewrite Hm1. apply store_word_other. lia. }
      split; [|split].
      * intros x Hx. rewrite I1 by lia. apply Fa. lia.
      * eapply poisoned_ext; [|exact C2].
        intros x Hx. rewrite I1 by lia. apply Fb. lia.
      * intros pre h' post E. destruct pre as [|h0 pre].
        -- cbn [app] in E. injection E as <- <-.
           rewrite Hm. cbn [extent fold_right]. rewrite Z.add_0_r. split.
           ++ rewrite (load_word_ext (sw_mem (header s h))).
              ** rewrite Hm1. apply load_store_word. apply clear_mark_word. exact Hh.
              ** intros x Hx. apply I1. lia.
           ++ intros x Hx. rewrite I1 by lia. apply Fa. lia.
        -- cbn [app] in E. injection E as <- ->.
           specialize (I3 pre h' post eq_refl).
           rewrite extent_cons.
           replace (sw_pos s + (tags_size h + extent pre))
             with (sw_pos s + tags_size h + extent pre) by lia.
           assert (Hpre : 0 <= extent pre /\ extent pre + tags_size h' <= extent (pre ++ h' :: post)).
           { apply Forall_app in Hsl. destruct Hsl as [Hs1 Hs2].
             pose proof (sized_extent_nonneg _ Hs1).
             pose proof (sized_extent_nonneg _ (Forall_inv_tail Hs2)).
             rewrite extent_app, extent_cons. lia. }
           destruct (tags_marked h').
           ++ destruct I3 as [J1 J2]. split; [exact J1|].
              intros x Hx. rewrite J2 by lia. apply Fa. lia.
           ++ eapply poisoned_base; [|exact I3].
              intros x Hx. symmetry. apply Fa. lia.
    + (* unmarked *)
      rewrite Hrs in I1, I2.
      assert (Hm1 : sw_mem (header s h) = sw_mem s).
      { unfold sweep_header. rewrite Hm. reflexivity. }
      rewrite Hm1 in I1, I2, I3.
      replace (sw_pos s + tags_size h - run_start s)
        with ((sw_pos s - run_start s) + tags_size h) in I2 by lia.
      apply poisoned_split in I2; [|lia|lia|].
      2:{ unfold pending_ok, run_start in *. destruct (sw_pending s) as [a|].
          - tauto.
          - rewrite Z.sub_diag. apply Zmod_0_l. }
      destruct I2 as [I2a I2b].
      replace (run_start s + (sw_pos s - run_start s)) with (sw_pos s) in I2b by lia.
      split; [|split].
      * intros x Hx. apply I1. lia.
      * exact I2a.
      * intros pre h' post E. destruct pre as [|h0 pre].
        -- cbn [app] in E. injection E as <- <-.
           rewrite Hm. cbn [extent fold_right]. rewrite Z.add_0_r. exact I2b.
        -- cbn [app] in E. injection E as <- ->.
           specialize (I3 pre h' post eq_refl).
           rewrite extent_cons.
           replace (sw_pos s + (tags_size h + extent pre))
             with (sw_pos s + tags_size h + extent pre) by lia.
           exact I3.
Qed.

(** Whether a garbage run is open after the objects [pre], [b] telling
    whether one was open before them. *)
Fixpoint run_open (b : bool) (pre : list Z) : bool :=
  match pre with
  | [] => b
  | h :: rest => run_open (negb (tags_marked h)) rest
  end.

(** How often the mark bit of an object is tested: once, and once more if
    the object is marked and ends an open run. *)
Definition tests_of (open : bool) (h : Z) : nat :=
  if tags_marked h && open then 2%nat else 1%nat.

Definition has_pending (s : Sweep) : bool :=
  match sw_pending s with
  | Some _ => true
  | None => false
  end.

Lemma close_tests s : sw_tests (close s) = sw_tests s.
Proof. unfold close_run. destruct (sw_pending s); reflexivity. Qed.

Lemma reference_tests hs : forall s,
  sized hs ->
  exists new,
    sw_tests (reference hs s) = sw_tests s ++ new /\
    (forall x, In x new -> sw_pos s <= x) /\
    (forall pre h post, hs = pre ++ h :: post ->
       count_occ Z.eq_dec new (sw_pos s + extent pre)
       = tests_of (run_open (has_pending s) pre) h).
Proof.
  induction hs as [|h l IH]; intros s Hs.
  - exists []. unfold reference_sweep. cbn [fold_left].
    rewrite close_tests, app_nil_r. split; [reflexivity|].
    split; [intros x []|]. intros pre h post E. destruct pre; discriminate.
  - inversion Hs as [|? ? [Hp Hal] Hsl]; subst.
    change (reference (h :: l) s) with (reference l (header s h)).
    destruct (IH (header s h) Hsl) as (new1 & T1 & T2 & T3).
    rewrite header_pos in T2, T3.
    set (t0 := if tags_marked h
               then match sw_pending s with
                    | Some _ => [sw_pos s; sw_pos s]
                    | None => [sw_pos s]
                    end
               else [sw_pos s]).
    assert (Ht0 : sw_tests (header s h) = sw_tests s ++ t0).
    { unfold sweep_header, t0. destruct (tags_marked h); reflexivity. }
    assert (Hin0 : forall x, In x t0 -> x = sw_pos s).
    { unfold t0. intros x. destruct (tags_marked h); [destruct (sw_pending s)|];
        cbn; intuition congruence. }
    assert (Hpend : has_pending (header s h) = negb (tags_marked h)).
    { unfold sweep_header, has_pending. destruct (tags_marked h); reflexivity. }
    exists (t0 ++ new1). split; [|split].
    + rewrite T1, Ht0, app_assoc. reflexivity.
    + intros x Hx. apply in_app_or in Hx. destruct Hx as [Hx|Hx].
      * rewrite (Hin0 x Hx). lia.
      * specialize (T2 x Hx). lia.
    + intros pre h' post E. rewrite count_occ_app. destruct pre as [|h0 pre].
      * cbn [app] in E. injection E as <- <-.
        cbn [extent fold_right run_open]. rewrite Z.add_0_r.
        assert (count_occ Z.eq_dec new1 (sw_pos s) = 0%nat) as ->.
        { apply count_occ_not_In. intros Hx. specialize (T2 _ Hx). lia. }
        unfold t0, tests_of, has_pending.
        destruct (tags_marked h); [destruct (sw_pending s)|]; cbn [andb];
          rewrite ?count_occ_cons_eq by reflexivity; reflexivity.
      * cbn [app] in E. injection E as <- ->.
        assert (Hpre : 0 <= extent pre).
        { apply Forall_app in Hsl. destruct Hsl as [Hs1 _].
          apply sized_extent_nonneg. exact Hs1. }
        rewrite extent_cons.
        assert (count_occ Z.eq_dec t0 (sw_pos s + (tags_size h + extent pre)) = 0%nat) as ->.
        { apply count_occ_not_In. intros Hx. specialize (Hin0 _ Hx). lia. }
        replace (sw_pos s + (tags_size h + extent pre))
          with (sw_pos s + tags_size h + extent pre) by lia.
        rewrite (T3 pre h' post eq_refl), Hpend. reflexivity.
Qed.

Lemma header_has_pending s h : has_pending (header s h) = negb (tags_marked h).
Proof. unfold sweep_header, has_pending. destruct (tags_marked h); reflexivity. Qed.

Lemma fold_has_pending hs : forall s,
  has_pending (fold_left header hs s) = run_open (has_pending s) hs.
Proof.
  induction hs as [|h l IH]; intros s; cbn [fold_left run_open]; [reflexivity|].
  rewrite IH, header_has_pending. reflexivity.
Qed.

Lemma run_open_last pre : forall b,
  run_open b pre = match rev pre with
                   | [] => b
                   | x :: _ => negb (tags_marked x)
                   end.
Proof.
  induction pre as [|h l IH]; intros b; cbn [run_open rev]; [reflexivity|].
  rewrite IH. destruct (rev l); reflexivity.
Qed.

Lemma ends_marked_closed pre : ends_marked pre -> run_open false pre = false.
Proof.
  unfold ends_marked, starts_marked. rewrite run_open_last.
  destruct (rev pre); [reflexivity|]. intros ->. reflexivity.
Qed.

Lemma has_pending_none s : has_pending s = false -> sw_pending s = None.
Proof. unfold has_pending. destruct (sw_pending s); [discriminate | reflexivity]. Qed.

Lemma fold_run run s :
  sw_pending s = None -> run <> [] -> Forall unmarked run ->
  fold_left header run s =
  {| sw_pending := Some (sw_pos s); sw_pos := sw_pos s + extent run;
     sw_mem := sw_mem s; sw_calls := sw_calls s;
     sw_tests := sw_tests s ++ addresses (sw_pos s) run; sw_used := sw_used s |}.
Proof.
  intros Hp Hne Hu. destruct run as [|h run]; [congruence|].
  cbn [fold_left].
  rewrite (@fold_unmarked _ is_executable locked start end_ run _ (sw_pos s)).
  - unfold sweep_header. rewrite (Forall_inv Hu).
    cbn [sw_pos sw_mem sw_calls sw_used sw_tests addresses].
    rewrite extent_cons, <- app_assoc. f_equal. lia.
  - unfold sweep_header. rewrite (Forall_inv Hu), Hp. reflexivity.
  - exact (Forall_inv_tail Hu).
Qed.

Lemma calls_in_app lo hi l1 l2 :
  calls_in lo hi (l1 ++ l2) = calls_in lo hi l1 ++ calls_in lo hi l2.
Proof. apply filter_app. Qed.

Lemma calls_in_outside lo hi l :
  Forall (fun c => fl_addr c < lo \/ hi <= fl_addr c) l -> calls_in lo hi l = [].
Proof.
  induction 1 as [|c l Hc _ IH]; [reflexivity|].
  cbn [calls_in filter]. fold (calls_in lo hi l). rewrite IH.
  assert (E : (lo <=? fl_addr c) && (fl_addr c <? hi) = false).
  { apply andb_false_iff. rewrite Z.leb_gt, Z.ltb_ge. exact Hc. }
  rewrite E. reflexivity.
Qed.

Lemma sized_nonempty_extent hs : sized hs -> hs <> [] -> 0 < extent hs.
Proof.
  intros Hs Hne. destruct hs as [|h l]; [congruence|].
  pose proof (Forall_inv Hs) as [Hp _].
  pose proof (sized_extent_nonneg _ (Forall_inv_tail Hs)).
  rewrite extent_cons. lia.
Qed.

(** The calls of a sweep of [pre ++ run ++ post], [run] being a maximal run
    of unmarked objects: those for an address within the run are the single
    call for the whole run, or none if the run is the whole area. *)
Lemma run_calls pre run post s0 :
  sw_pending s0 = None -> sw_pos s0 = start -> 0 <= start ->
  sized (pre ++ run ++ post) ->
  start + extent (pre ++ run ++ post) = end_ -> end_ < word_modulus ->
  run <> [] -> Forall unmarked run -> ends_marked pre -> starts_marked post ->
  exists new,
    sw_calls (reference (pre ++ run ++ post) s0) = sw_calls s0 ++ new /\
    Forall (call_ok start end_) new /\
    (pre = [] /\ post = [] ->
       calls_in (start + extent pre) (start + extent pre + extent run) new = []) /\
    (~ (pre = [] /\ post = []) ->
       exists c, calls_in (start + extent pre) (start + extent pre + extent run) new = [c] /\
                 fl_addr c = start + extent pre /\ fl_size c = extent run).
Proof.
  intros Hp0 Hpos0 Hst Hs He Hew Hne Hu Hpre Hpost.
  assert (Hok0 : pending_ok s0) by (unfold pending_ok; rewrite Hp0; exact I).
  assert (Hrs0 : run_start s0 = start) by (unfold run_start; rewrite Hp0; exact Hpos0).
  (* the calls as a whole *)
  destruct (reference_calls _ _ Hs Hok0) as (new & Hc & Hf); [lia | lia |].
  rewrite Hrs0, Hpos0, He in Hf.
  exists new. split; [exact Hc|]. split; [exact Hf|].
  (* the three parts *)
  pose proof Hs as Hs'. apply Forall_app in Hs'. destruct Hs' as [Hspre Hs'].
  apply Forall_app in Hs'. destruct Hs' as [Hsrun Hspost].
  pose proof (sized_extent_nonneg _ Hspre) as Hnpre.
  pose proof (sized_extent_nonneg _ Hspost) as Hnpost.
  pose proof (sized_nonempty_extent _ Hsrun Hne) as Hnrun.
  rewrite !extent_app in He.
  set (a := start + extent pre) in *. set (n := extent run) in *.
  set (spre := fold_left header pre s0).
  destruct (fold_calls pre s0 Hspre Hok0) as (Hokp & _ & newp & Hcp & Hfp); [lia | lia |].
  fold spre in Hokp, Hcp, Hfp.
  assert (Hpp : sw_pending spre = None).
  { apply has_pending_none. unfold spre. rewrite fold_has_pending.
    unfold has_pending at 1. rewrite Hp0. apply ends_marked_closed. exact Hpre. }
  assert (Hposp : sw_pos spre = a).
  { unfold spre. rewrite fold_header_pos, Hpos0. reflexivity. }
  assert (Hrsp : run_start spre = a) by (unfold run_start; rewrite Hpp; exact Hposp).
  rewrite Hrs0, Hrsp in Hfp.
  set (srun := fold_left header run spre).
  assert (Hsrun' : srun = {| sw_pending := Some a; sw_pos := a + n;
                             sw_mem := sw_mem spre; sw_calls := sw_calls spre;
                             sw_tests := sw_tests spre ++ addresses a run;
                             sw_used := sw_used spre |}).
  { unfold srun. rewrite (fold_run run spre Hpp Hne Hu), Hposp. reflexivity. }
  assert (Href : reference (pre ++ run ++ post) s0 = reference post srun).
  { unfold reference_sweep. rewrite !fold_left_app. reflexivity. }
  set (c := {| fl_locked := locked; fl_addr := a; fl_size := n;
               fl_memory := poison is_executable (sw_mem spre) a n |}).
  assert (Hclose : sw_calls (close srun) =
                   if negb (a =? start) || negb (a + n =? end_)
                   then sw_calls spre ++ [c] else sw_calls spre).
  { rewrite Hsrun'. unfold close_run. cbn [sw_pending sw_pos sw_mem sw_calls].
    replace (a + n - a) with n by lia. reflexivity. }
  assert (Hinp : calls_in a (a + n) newp = []).
  { apply calls_in_outside. eapply Forall_impl; [|exact Hfp].
    intros c0 (H1 & H2 & H3 & _). lia. }
  assert (Hinc : calls_in a (a + n) [c] = [c]).
  { cbn [calls_in filter fl_addr c].
    assert (E : (a <=? a) && (a <? a + n) = true)
      by (apply andb_true_iff; rewrite Z.leb_le, Z.ltb_lt; lia).
    rewrite E. reflexivity. }
  assert (Hpre_nil : pre = [] <-> a = start).
  { split; [intros ->; unfold a; cbn; lia|].
    intros E. destruct pre as [|x pre']; [reflexivity|].
    pose proof (sized_nonempty_extent _ Hspre ltac:(discriminate)). lia. }
  assert (Hpost_nil : post = [] <-> a + n = end_).
  { split; [intros ->; cbn [extent fold_right] in He; lia|].
    intros E. destruct post as [|x post']; [reflexivity|].
    pose proof (sized_nonempty_extent _ Hspost ltac:(discriminate)). lia. }
  (* the calls after the run *)
  assert (Hnew : exists newq,
            new = newp ++ (if negb (a =? start) || negb (a + n =? end_) then [c] else [])
                  ++ newq /\
            calls_in a (a + n) newq = []).
  { destruct post as [|h post'].
    - exists []. split; [|reflexivity].
      rewrite Href in Hc. unfold reference_sweep in Hc. cbn [fold_left] in Hc.
      rewrite Hclose, Hcp in Hc. rewrite app_nil_r.
      destruct (negb (a =? start) || negb (a + n =? end_)).
      + rewrite <- app_assoc in Hc. apply app_inv_head in Hc. symmetry. exact Hc.
      + rewrite app_nil_r. apply app_inv_head in Hc. symmetry. exact Hc.
    - cbn in Hpost.
      pose proof (Forall_inv Hspost) as [Hph Hah].
      pose proof (sized_extent_nonneg _ (Forall_inv_tail Hspost)) as Hnq.
      rewrite extent_cons in He.
      set (s2 := header srun h).
      assert (Hoksrun : pending_ok srun).
      { unfold srun. apply fold_calls; try assumption; lia. }
      assert (Hok2 : pending_ok s2) by (apply header_pending_ok; assumption).
      assert (Hpos2 : sw_pos s2 = a + n + tags_size h).
      { unfold s2. rewrite header_pos, Hsrun'. reflexivity. }
      assert (Hrs2 : run_start s2 = a + n + tags_size h).
      { unfold s2. rewrite (header_run_start _ h Hoksrun), Hpost, Hsrun'. reflexivity. }
      assert (Hc2 : sw_calls s2 = sw_calls (close srun)).
      { unfold s2, sweep_header. rewrite Hpost. reflexivity. }
      destruct (reference_calls post' s2 (Forall_inv_tail Hspost) Hok2)
        as (newq & Hcq & Hfq); [lia | lia |].
      rewrite Hrs2 in Hfq.
      exists newq. split.
      + rewrite Href in Hc. change (reference (h :: post') srun)
          with (reference post' s2) in Hc.
        rewrite Hcq, Hc2, Hclose, Hcp in Hc.
        destruct (negb (a =? start) || negb (a + n =? end_)).
        * rewrite <- !app_assoc in Hc. apply app_inv_head in Hc. symmetry. exact Hc.
        * rewrite <- app_assoc in Hc. apply app_inv_head in Hc. symmetry. exact Hc.
      + apply calls_in_outside. eapply Forall_impl; [|exact Hfq].
        intros c0 (H1 & _). lia. }
  destruct Hnew as (newq & -> & Hinq).
  rewrite !calls_in_app, Hinp, Hinq, app_nil_r. cbn [app].
  split.
  - intros [E1 E2]. apply Hpre_nil in E1. apply Hpost_nil in E2.
    apply Z.eqb_eq in E1, E2. rewrite E1, E2. reflexivity.
  - intros Hnot. exists c.
    assert (E : negb (a =? start) || negb (a + n =? end_) = true).
    { destruct (a =? start) eqn:E1; [|reflexivity].
      destruct (a + n =? end_) eqn:E2; [|reflexivity].
      apply Z.eqb_eq in E1, E2. apply Hpre_nil in E1. apply Hpost_nil in E2. tauto. }
    rewrite E. rewrite Hinc. repeat split.
Qed.

End ReferenceFacts.

(** ** The sweep of an ordinary page *)

Section SweepPageTheorems.
Context {P : Platform} {POK : PlatformOk P}.

Lemma tiles_words own m a hs e : tiles own m a hs e -> Forall is_word hs.
Proof.
  revert a. induction hs as [|h l IH]; intros a H; [constructor|].
  destruct H as (Hl & _ & _ & _ & Hr). constructor; [|exact (IH _ Hr)].
  rewrite <- Hl. apply load_word_range.
Qed.

Lemma unmarked_live_bytes hs : Forall unmarked hs -> live_bytes hs = 0.
Proof.
  induction 1 as [|h l Hh _ IH]; [reflexivity|].
  rewrite live_bytes_cons, Hh. exact IH.
Qed.

Lemma calls_in_all lo hi l :
  Forall (fun c => lo <= fl_addr c < hi) l -> calls_in lo hi l = l.
Proof.
  induction 1 as [|c l Hc _ IH]; [reflexivity|].
  cbn [calls_in filter]. fold (calls_in lo hi l). rewrite IH.
  assert (E : (lo <=? fl_addr c) && (fl_addr c <? hi) = true)
    by (apply andb_true_iff; rewrite Z.leb_le, Z.ltb_lt; exact Hc).
  rewrite E. reflexivity.
Qed.

(** Whether the object after [pre] directly follows an unmarked object. *)
Definition follows_garbage (pre : list Z) : bool :=
  match rev pre with
  | [] => false
  | x :: _ => negb (tags_marked x)
  end.

Section OnePage.
Variables (w : World) (page : Z) (p : HeapPage) (locked : bool) (hs : list Z).
Hypothesis Hsweepable : sweepable w page p hs.

Let exec := PageType_eqb (type p) kExecutable.
Let w' := after_sweep w page p locked hs.

Lemma page_facts :
  sized hs /\ Forall is_word hs /\
  object_start p + extent hs = object_end p /\
  0 <= object_start p /\ object_end p < word_modulus /\
  pending_ok (initial_sweep p w) /\
  run_start (initial_sweep p w) = object_start p.
Proof.
  destruct Hsweepable as (_ & _ & (Hb1 & Hb2 & _) & Ht).
  repeat split; try lia.
  - exact (tiles_sized _ _ _ _ _ Ht).
  - exact (tiles_words _ _ _ _ _ Ht).
  - exact (tiles_extent _ _ _ _ _ Ht).
Qed.

Lemma swept_memory :
  (forall x, x < object_start p \/ object_end p <= x -> memory w' x = memory w x) /\
  (forall pre h post, hs = pre ++ h :: post ->
     if tags_marked h then
       load_word (memory w') (object_start p + extent pre) = tags_clear_mark h /\
       (forall x, object_start p + extent pre + kWordSize <= x
                  < object_start p + extent pre + tags_size h ->
                  memory w' x = memory w x)
     else
       poisoned exec (memory w) (memory w') (object_start p + extent pre) (tags_size h)).
Proof.
  destruct page_facts as (Hs & Hwd & He & Hst & Hew & Hok & Hrs).
  destruct (@reference_memory _ _ exec locked (object_start p) (object_end p) hs
              (initial_sweep p w) Hs Hwd Hok) as (M1 & _ & M3).
  - rewrite Hrs. exact Hst.
  - cbn [initial_sweep sw_pos]. lia.
  - rewrite Hrs in M1. cbn [initial_sweep sw_pos sw_mem] in M1, M3.
    rewrite He in M1. split; [exact M1 | exact M3].
Qed.

Lemma swept_calls :
  exists new, freelist w' = freelist w ++ new /\
              Forall (call_ok exec locked (object_start p) (object_end p)
                        (object_start p) (object_end p)) new.
Proof.
  destruct page_facts as (Hs & Hwd & He & Hst & Hew & Hok & Hrs).
  destruct (@reference_calls _ _ exec locked (object_start p) (object_end p) hs
              (initial_sweep p w) Hs Hok) as (new & Hc & Hf).
  - rewrite Hrs. exact Hst.
  - cbn [initial_sweep sw_pos]. lia.
  - exists new. rewrite Hrs in Hf. cbn [initial_sweep sw_pos] in Hf. rewrite He in Hf.
    split; [exact Hc | exact Hf].
Qed.

Lemma swept_runs pre run post :
  hs = pre ++ run ++ post ->
  run <> [] -> Forall unmarked run -> ends_marked pre -> starts_marked post ->
  exists new,
    freelist w' = freelist w ++ new /\
    Forall (call_ok exec locked (object_start p) (object_end p)
              (object_start p) (object_end p)) new /\
    (pre = [] /\ post = [] ->
       calls_in (object_start p + extent pre)
                (object_start p + extent pre + extent run) new = []) /\
    (~ (pre = [] /\ post = []) ->
       exists c, calls_in (object_start p + extent pre)
                          (object_start p + extent pre + extent run) new = [c] /\
                 fl_addr c = object_start p + extent pre /\ fl_size c = extent run).
Proof.
  intros E Hne Hu Hpre Hpost.
  destruct page_facts as (Hs & Hwd & He & Hst & Hew & Hok & Hrs).
  unfold w', after_sweep, swept_page. cbn [freelist with_pages install with_mark_tests with_freelist].
  rewrite E in *.
  apply (@run_calls _ _ exec locked (object_start p) (object_end p) pre run post
           (initial_sweep p w)); try assumption; reflexivity.
Qed.

Lemma swept_tests :
  exists new,
    mark_tests w' = mark_tests w ++ new /\
    (forall pre h post, hs = pre ++ h :: post ->
       count_occ Z.eq_dec new (object_start p + extent pre)
       = tests_of (follows_garbage pre) h).
Proof.
  destruct page_facts as (Hs & _).
  destruct (@reference_tests _ exec locked (object_start p) (object_end p) hs
              (initial_sweep p w) Hs) as (new & T1 & _ & T3).
  exists new. split; [exact T1|].
  intros pre h post E. specialize (T3 pre h post E).
  cbn [initial_sweep sw_pos] in T3. rewrite T3.
  unfold follows_garbage. rewrite run_open_last. reflexivity.
Qed.

End OnePage.

(** C1.  On a page whose object area is tiled by objects, the scan ends
    exactly at the end of the area, [SweepPage] sets the page's
    [used_in_bytes] to the sum of the sizes of the marked objects, and it
    returns whether that sum is not zero. *)
Theorem SweepPage_used_in_bytes fuel w page p locked hs :
  sweepable w page p hs ->
  object_end p - object_start p + 2 <= Z.of_nat fuel ->
  sweep_loop fuel page (PageType_eqb (type p) kExecutable) locked
    (object_start p) (object_end p) {| current := object_start p; used := 0 |} w
  = Ret ({| current := object_end p; used := live_bytes hs |},
         install (swept_page p locked hs w) w) /\
  SweepPage fuel page locked w
  = Ret (negb (live_bytes hs =? 0), after_sweep w page p locked hs) /\
  option_map used_in_bytes (pages (after_sweep w page p locked hs) page)
  = Some (live_bytes hs).
Proof.
  intros Hsw Hf. split; [|split].
  - apply scan_loop_result; assumption.
  - apply SweepPage_result; assumption.
  - unfold after_sweep, pages_with. cbn [pages with_pages].
    rewrite Z.eqb_refl. reflexivity.
Qed.

(** C2.  A maximal run of adjacent unmarked objects is handed to the free
    list as one range: the only call for an address within the run is for
    the address of its first object and the sum of the sizes of its objects.
    There is exactly one such call, unless the run is the whole area. *)
Theorem garbage_run_coalesced fuel w page p locked pre run post :
  sweepable w page p (pre ++ run ++ post) ->
  object_end p - object_start p + 2 <= Z.of_nat fuel ->
  run <> [] -> Forall unmarked run -> ends_marked pre -> starts_marked post ->
  exists w' new,
    SweepPage fuel page locked w
    = Ret (negb (live_bytes (pre ++ run ++ post) =? 0), w') /\
    freelist w' = freelist w ++ new /\
    (forall c, In c new ->
       object_start p + extent pre <= fl_addr c
       < object_start p + extent pre + extent run ->
       fl_addr c = object_start p + extent pre /\ fl_size c = extent run) /\
    (length (calls_in (object_start p + extent pre)
                      (object_start p + extent pre + extent run) new) <= 1)%nat /\
    (~ (pre = [] /\ post = []) ->
     length (calls_in (object_start p + extent pre)
                      (object_start p + extent pre + extent run) new) = 1%nat).
Proof.
  intros Hsw Hf Hne Hu Hpre Hpost.
  destruct (swept_runs w page p locked _ Hsw pre run post eq_refl Hne Hu Hpre Hpost)
    as (new & Hc & _ & Hwhole & Hpart).
  exists (after_sweep w page p locked (pre ++ run ++ post)), new.
  split; [apply SweepPage_result; assumption|]. split; [exact Hc|].
  assert (Hcase : calls_in (object_start p + extent pre)
                    (object_start p + extent pre + extent run) new = [] \/
                  exists c, calls_in (object_start p + extent pre)
                              (object_start p + extent pre + extent run) new = [c] /\
                            fl_addr c = object_start p + extent pre /\
                            fl_size c = extent run).
  { destruct pre as [|x pre']; [destruct post as [|y post']|].
    - left. apply Hwhole. split; reflexivity.
    - right. apply Hpart. intros [_ E]. discriminate.
    - right. apply Hpart. intros [E _]. discriminate. }
  split; [|split].
  - intros c Hin Hr.
    assert (Hin' : In c (calls_in (object_start p + extent pre)
                           (object_start p + extent pre + extent run) new)).
    { apply filter_In. split; [exact Hin|].
      apply andb_true_iff. rewrite Z.leb_le, Z.ltb_lt. exact Hr. }
    destruct Hcase as [E|(c0 & E & Ha & Hn)]; rewrite E in Hin'.
    + destruct Hin'.
    + destruct Hin' as [<-|[]]. split; assumption.
  - destruct Hcase as [E|(c0 & E & _)]; rewrite E; cbn; lia.
  - intros Hnot. destruct (Hpart Hnot) as (c0 & E & _). rewrite E. reflexivity.
Qed.

(** C3.  A garbage run is handed to the free list, through [FreeLocked] if
    [locked] and through [Free] otherwise, if and only if it is not the whole
    object area.  When every object of the page is unmarked nothing is handed
    to the free list, [used_in_bytes] is set to 0 and [SweepPage] returns
    false. *)
Theorem whole_page_run_not_inserted fuel w page p locked hs :
  sweepable w page p hs ->
  object_end p - object_start p + 2 <= Z.of_nat fuel ->
  exists w' new,
    SweepPage fuel page locked w = Ret (negb (live_bytes hs =? 0), w') /\
    freelist w' = freelist w ++ new /\
    (forall pre run post,
       hs = pre ++ run ++ post ->
       run <> [] -> Forall unmarked run -> ends_marked pre -> starts_marked post ->
       ((exists c, In c new /\ fl_addr c = object_start p + extent pre /\
                   fl_size c = extent run /\ fl_locked c = locked)
        <-> ~ (pre = [] /\ post = []))) /\
    (Forall unmarked hs ->
       new = [] /\
       negb (live_bytes hs =? 0) = false /\
       option_map used_in_bytes (pages w' page) = Some 0).
Proof.
  intros Hsw Hf.
  destruct (swept_calls w page p locked hs Hsw) as (new & Hc & Hok).
  exists (after_sweep w page p locked hs), new.
  split; [apply SweepPage_result; assumption|]. split; [exact Hc|].
  assert (Hruns : forall pre run post,
            hs = pre ++ run ++ post ->
            run <> [] -> Forall unmarked run -> ends_marked pre -> starts_marked post ->
            (pre = [] /\ post = [] ->
               calls_in (object_start p + extent pre)
                        (object_start p + extent pre + extent run) new = []) /\
            (~ (pre = [] /\ post = []) ->
               exists c, calls_in (object_start p + extent pre)
                           (object_start p + extent pre + extent run) new = [c] /\
                         fl_addr c = object_start p + extent pre /\
                         fl_size c = extent run)).
  { intros pre run post E Hne Hu Hpre Hpost.
    destruct (swept_runs w page p locked hs Hsw pre run post E Hne Hu Hpre Hpost)
      as (new' & Hc' & _ & Hwhole & Hpart).
    rewrite Hc in Hc'. apply app_inv_head in Hc'. subst new'.
    split; assumption. }
  split.
  - intros pre run post E Hne Hu Hpre Hpost.
    destruct (Hruns pre run post E Hne Hu Hpre Hpost) as [Hwhole Hpart].
    destruct (page_facts w page p hs Hsw) as (Hs & _).
    rewrite E in Hs. apply Forall_app in Hs. destruct Hs as [_ Hs].
    apply Forall_app in Hs. destruct Hs as [Hsrun _].
    pose proof (sized_nonempty_extent _ Hsrun Hne) as Hn.
    split.
    + intros (c & Hin & Ha & Hsz & _) Hw.
      assert (Hin' : In c (calls_in (object_start p + extent pre)
                             (object_start p + extent pre + extent run) new)).
      { apply filter_In. split; [exact Hin|].
        apply andb_true_iff. rewrite Z.leb_le, Z.ltb_lt. lia. }
      rewrite (Hwhole Hw) in Hin'. destruct Hin'.
    + intros Hnot. destruct (Hpart Hnot) as (c & Ec & Ha & Hsz).
      assert (Hin : In c new).
      { assert (Hin' : In c (calls_in (object_start p + extent pre)
                               (object_start p + extent pre + extent run) new))
          by (rewrite Ec; left; reflexivity).
        apply filter_In in Hin'. tauto. }
      exists c. repeat split; try assumption.
      rewrite Forall_forall in Hok. destruct (Hok c Hin) as (_ & _ & _ & Hl & _).
      exact Hl.
  - intros Hu. rewrite (unmarked_live_bytes hs Hu). cbn [Z.eqb negb].
    split; [|split; [reflexivity|]].
    + destruct hs as [|h l] eqn:Ehs.
      * unfold after_sweep, swept_page, reference_sweep in Hc.
        cbn [freelist with_pages install with_mark_tests with_freelist fold_left
             close_run initial_sweep sw_pending sw_calls] in Hc.
        rewrite <- (app_nil_r (freelist w)) in Hc at 1.
        apply app_inv_head in Hc. symmetry. exact Hc.
      * rewrite <- Ehs in *.
        assert (E : hs = [] ++ hs ++ []) by (rewrite app_nil_r; reflexivity).
        destruct (Hruns [] hs [] E) as [Hwhole _];
          [rewrite Ehs; discriminate | exact Hu | exact I | exact I |].
        specialize (Hwhole (conj eq_refl eq_refl)).
        destruct (page_facts w page p hs Hsw) as (_ & _ & He & _).
        cbn [extent fold_right] in Hwhole. rewrite Z.add_0_r, He in Hwhole.
        rewrite <- Hwhole. symmetry. apply calls_in_all.
        eapply Forall_impl; [|exact Hok].
        intros c (H1 & H2 & H3 & _). lia.
    + unfold after_sweep, pages_with. cbn [pages with_pages].
      rewrite Z.eqb_refl. cbn [option_map page_with_used used_in_bytes].
      rewrite (unmarked_live_bytes hs Hu). reflexivity.
Qed.




(** C7.  On an executable page every word of a garbage run holds the break
    instruction filler, in the memory that is handed to the free list with
    the run and in the memory that [SweepPage] leaves.  On a data page the
    bytes of a run hold the zap byte in a DEBUG build, and are as they were
    in a release build. *)
Theorem garbage_run_poisoned fuel w page p locked hs :
  sweepable w page p hs ->
  object_end p - object_start p + 2 <= Z.of_nat fuel ->
  exists w' new,
    SweepPage fuel page locked w = Ret (negb (live_bytes hs =? 0), w') /\
    freelist w' = freelist w ++ new /\
    (type p = kExecutable ->
       Forall (fun c => filled (fl_memory c) (fl_addr c) (fl_size c)) new /\
       forall pre h post, hs = pre ++ h :: post -> tags_marked h = false ->
         filled (memory w') (object_start p + extent pre) (tags_size h)) /\
    (type p = kData -> DEBUG = true ->
       Forall (fun c => zapped (fl_memory c) (fl_addr c) (fl_size c)) new /\
       forall pre h post, hs = pre ++ h :: post -> tags_marked h = false ->
         zapped (memory w') (object_start p + extent pre) (tags_size h)) /\
    (type p = kData -> DEBUG = false ->
       forall pre h post, hs = pre ++ h :: post -> tags_marked h = false ->
         untouched (memory w) (memory w') (object_start p + extent pre) (tags_size h)).
Proof.
  intros Hsw Hf.
  destruct (swept_calls w page p locked hs Hsw) as (new & Hc & Hok).
  destruct (swept_memory w page p locked hs Hsw) as [_ M].
  exists (after_sweep w page p locked hs), new.
  split; [apply SweepPage_result; assumption|]. split; [exact Hc|].
  assert (Hg : forall pre h post, hs = pre ++ h :: post -> tags_marked h = false ->
                 poisoned (PageType_eqb (type p) kExecutable) (memory w)
                   (memory (after_sweep w page p locked hs))
                   (object_start p + extent pre) (tags_size h)).
  { intros pre h post E Hm. specialize (M pre h post E). rewrite Hm in M. exact M. }
  unfold call_ok, poisoned in *.
  split; [|split].
  - intros Ht. rewrite Ht in *. cbn [PageType_eqb] in *. split; [|exact Hg].
    eapply Forall_impl; [|exact Hok]. intros c H. apply H.
  - intros Ht Hd. rewrite Ht, Hd in *. cbn [PageType_eqb] in *. split; [|exact Hg].
    eapply Forall_impl; [|exact Hok]. intros c H. apply H.
  - intros Ht Hd. rewrite Ht, Hd in *. cbn [PageType_eqb] in *. exact Hg.
Qed.

(** C9, as the code has it.  [SweepPage] changes no byte outside the object
    area, and of a marked object it changes the header word only, to what
    [ClearMarkBit] makes of it.  The mark bit of a marked object is tested
    once, when the scan reaches it, and once more before that when the
    object directly follows an unmarked one: the loop that extends the
    garbage run tests it to find the end of the run. *)
Theorem live_objects_untouched fuel w page p locked hs :
  sweepable w page p hs ->
  object_end p - object_start p + 2 <= Z.of_nat fuel ->
  exists w' tests,
    SweepPage fuel page locked w = Ret (negb (live_bytes hs =? 0), w') /\
    mark_tests w' = mark_tests w ++ tests /\
    (forall x, x < object_start p \/ object_end p <= x -> memory w' x = memory w x) /\
    forall pre h post, hs = pre ++ h :: post -> tags_marked h = true ->
      load_word (memory w') (object_start p + extent pre) = tags_clear_mark h /\
      (forall x, object_start p + extent pre + kWordSize <= x
                 < object_start p + extent pre + tags_size h ->
                 memory w' x = memory w x) /\
      count_occ Z.eq_dec tests (object_start p + extent pre)
      = (if follows_garbage pre then 2 else 1)%nat.
Proof.
  intros Hsw Hf.
  destruct (swept_tests w page p locked hs Hsw) as (tests & Ht & Hcount).
  destruct (swept_memory w page p locked hs Hsw) as [F M].
  exists (after_sweep w page p locked hs), tests.
  split; [apply SweepPage_result; assumption|]. split; [exact Ht|].
  split; [exact F|].
  intros pre h post E Hm. specialize (M pre h post E). rewrite Hm in M.
  destruct M as [M1 M2]. split; [exact M1|]. split; [exact M2|].
  rewrite (Hcount pre h post E). unfold tests_of. rewrite Hm. reflexivity.
Qed.

(** C10.  On a page whose object area is tiled by objects of positive,
    word-aligned size the scan loop returns.  Each pass through its body,
    from a position where the rest of the area is tiled, returns too and
    moves the position forward by at least the size of the object there and
    not beyond the end, so the distance to the end decreases; the rest of
    the area is tiled again. *)
Theorem scan_loop_terminates fuel w page p locked hs :
  sweepable w page p hs ->
  object_end p - object_start p + 2 <= Z.of_nat fuel ->
  (exists r,
     sweep_loop fuel page (PageType_eqb (type p) kExecutable) locked
       (object_start p) (object_end p) {| current := object_start p; used := 0 |} w
     = Ret r) /\
  (forall fuel1 w1 cur u h l,
     tiles (on_page page) (memory w1) cur (h :: l) (object_end p) ->
     object_start p <= cur -> 0 <= u ->
     u + extent (h :: l) <= object_end p - object_start p ->
     object_end p - cur + 1 <= Z.of_nat fuel1 ->
     exists s' w2 run rest,
       sweep_object fuel1 page (PageType_eqb (type p) kExecutable) locked
         (object_start p) (object_end p) {| current := cur; used := u |} w1
       = Ret (s', w2) /\
       0 < tags_size h /\
       cur + tags_size h <= current s' <= object_end p /\
       object_end p - current s' < object_end p - cur /\
       l = run ++ rest /\
       tiles (on_page page) (memory w2) (current s') rest (object_end p) /\
       0 <= used s' /\
       used s' + extent rest <= object_end p - object_start p).
Proof.
  intros Hsw Hf. split.
  - eexists. apply scan_loop_result; eassumption.
  - destruct Hsw as (_ & _ & (Hb1 & Hb2 & Hb3) & _).
    intros fuel1 w1 cur u h l Ht Hcur Hu Hub Hf1.
    set (s := {| sw_pending := None; sw_pos := cur; sw_mem := memory w1;
                 sw_calls := freelist w1; sw_tests := mark_tests w1; sw_used := u |}).
    pose proof (tiles_sized _ _ _ _ _ Ht) as Hs.
    pose proof (Forall_inv Hs) as [Hp _].
    destruct (@sweep_object_refines _ _ page (PageType_eqb (type p) kExecutable) locked
                (object_start p) (object_end p) ltac:(lia) Hb2 Hb3 h l fuel1 s w1
                eq_refl Ht Hcur Hu Hub Hf1)
      as (run & rest & sc & El & Hstep & Hpc & Hposc & Husedc & Htc & _).
    exists (scan_of sc), (install sc w1), run, rest.
    pose proof (tiles_extent _ _ _ _ _ Htc) as Hec.
    pose proof (sized_extent_nonneg _ (tiles_sized _ _ _ _ _ Htc)) as Hnr.
    assert (Hnrun : 0 <= extent run).
    { rewrite El in Hs. apply Forall_inv_tail in Hs. apply Forall_app in Hs.
      apply sized_extent_nonneg. tauto. }
    unfold s in *. cbn [scan_of current used sw_pos sw_used] in *.
    rewrite El, extent_cons, extent_app in Hub.
    split; [exact Hstep|]. split; [exact Hp|].
    split; [lia|]. split; [lia|]. split; [exact El|].
    split; [exact Htc|].
    rewrite Husedc. destruct (tags_marked h); lia.
Qed.

End SweepPageTheorems.

(** ** The sweep of a large page *)

Section LargePage.
Context {P : Platform} {POK : PlatformOk P}.

(** The memory after the DEBUG loop has zapped the objects [hs] from [a]. *)
Fixpoint zap_objects (m : mem) (a : Z) (hs : list Z) : mem :=
  match hs with
  | [] => m
  | h :: rest => zap_objects (memset m a kZapByte (tags_size h)) (a + tags_size h) rest
  end.

Definition unowned (a : Z) : Prop := True.

Lemma zap_objects_other hs : forall m a x,
  sized hs -> 0 <= a -> a + extent hs < word_modulus ->
  ~ (a <= x < a + extent hs) -> zap_objects m a hs x = m x.
Proof.
  induction hs as [|h l IH]; intros m a x Hs Ha Hb Hx; [reflexivity|].
  pose proof (Forall_inv Hs) as [Hp _].
  pose proof (sized_extent_nonneg _ (Forall_inv_tail Hs)) as Hn.
  rewrite extent_cons in *. cbn [zap_objects].
  rewrite IH; [| exact (Forall_inv_tail Hs) | lia | lia | lia].
  apply memset_other. rewrite uword_small by lia. lia.
Qed.

Lemma zap_fillers_run end_ fillers : forall fuel cur w,
  end_ < word_modulus ->
  tiles unowned (memory w) cur fillers end_ ->
  Forall unmarked fillers ->
  (length fillers < fuel)%nat -> 0 <= cur ->
  zap_fillers fuel cur end_ w =
  Ret (tt, with_mark_tests (mark_tests w ++ addresses cur fillers)
             (with_memory (zap_objects (memory w) cur fillers) w)).
Proof.
  induction fillers as [|h l IH]; intros fuel cur w Hew Ht Hu Hf Hc;
    (destruct fuel as [|fuel]; [cbn in Hf; lia|]); cbn [zap_fillers].
  - cbn in Ht. subst. rewrite Z.ltb_irrefl.
    cbn [addresses zap_objects]. rewrite app_nil_r. reflexivity.
  - pose proof (tiles_sized _ _ _ _ _ Ht) as Hs.
    pose proof (tiles_extent _ _ _ _ _ Ht) as He.
    pose proof (sized_extent_nonneg _ (Forall_inv_tail Hs)) as Hn.
    destruct Ht as (Hl & Hp & Hal & _ & Ht).
    rewrite extent_cons in He.
    assert (E : (cur <? end_) = true) by (apply Z.ltb_lt; lia).
    rewrite E, bind_IsMarked, Hl, (Forall_inv Hu).
    rewrite bind_ASSERT by reflexivity.
    rewrite bind_HeapSize. cbn [memory with_mark_tests]. rewrite Hl.
    unfold bind at 1, Memset. cbn [memory with_mark_tests].
    rewrite uword_small by lia.
    rewrite IH; try assumption; try lia.
    + cbn [mark_tests memory with_memory with_mark_tests addresses zap_objects].
      rewrite <- app_assoc. reflexivity.
    + cbn [memory with_memory]. apply tiles_ext with (m := memory w); [|exact Ht].
      intros x Hx. apply memset_other. rewrite uword_small by lia. lia.
    + exact (Forall_inv_tail Hu).
    + cbn in Hf. lia.
Qed.

(** The preconditions of [SweepLargePage]: [page] points to [p], which is
    not an image page; its object area begins with an object of header [h],
    and the rest of it is tiled by the unmarked filler objects [fillers]. *)
Definition large_sweepable (w : World) (page : Z) (p : HeapPage) (h : Z)
    (fillers : list Z) : Prop :=
  pages w page = Some p /\
  (DEBUG = true -> is_image_page p = false) /\
  page_bounds p /\
  load_word (memory w) (object_start p) = h /\
  0 < tags_size h /\
  tags_size h mod kWordSize = 0 /\
  on_page page (object_start p) /\
  tiles unowned (memory w) (object_start p + tags_size h) fillers (object_end p) /\
  Forall unmarked fillers.

(** The world that [SweepLargePage] leaves. *)
Definition after_large_sweep (w : World) (p : HeapPage) (h : Z) (fillers : list Z)
  : World :=
  let m1 := if tags_marked h
            then store_word (memory w) (object_start p) (tags_clear_mark h)
            else memory w in
  with_mark_tests
    (mark_tests w ++ object_start p ::
       (if DEBUG then addresses (object_start p + tags_size h) fillers else []))
    (with_memory
       (if DEBUG then zap_objects m1 (object_start p + tags_size h) fillers else m1)
       w).

Definition large_page_words (h : Z) : Z :=
  if tags_marked h then Z.shiftr (tags_size h) kWordSizeLog2 else 0.

Lemma SweepLargePage_result fuel w page p h fillers :
  large_sweepable w page p h fillers ->
  object_end p - object_start p + 1 <= Z.of_nat fuel ->
  SweepLargePage fuel page w
  = Ret (large_page_words h, after_large_sweep w p h fillers).
Proof.
  intros (Hpg & Himg & (Hb1 & Hb2 & Hb3) & Hl & Hp & Hal & Hown & Ht & Hu) Hf.
  pose proof kWordSize_pos as Hw.
  pose proof (tiles_sized _ _ _ _ _ Ht) as Hs.
  pose proof (tiles_extent _ _ _ _ _ Ht) as He.
  pose proof (sized_extent_nonneg _ Hs) as Hn.
  pose proof (sized_length _ Hs) as Hlen.
  assert (Hfw : kWordSize <= tags_size h).
  { apply (sized_first_word h []). constructor; [split; assumption | constructor]. }
  unfold SweepLargePage.
  assert (Hload : load_page page w = Ret (p, w)) by (unfold load_page; rewrite Hpg; reflexivity).
  rewrite (@bind_returns _ _ _ _ _ _ _ Hload).
  rewrite bind_ASSERT by (intro D; rewrite (Himg D); reflexivity).
  rewrite bind_ASSERT
    by (intro D; unfold HeapPage_Of; cbn [ToAddr]; apply Z.eqb_eq; exact (Hown D)).
  rewrite bind_IsMarked, Hl.
  unfold large_page_words, after_large_sweep.
  assert (Hzap : forall m1 ts,
            load_word m1 (object_start p) = (if tags_marked h then tags_clear_mark h else h) ->
            (forall x, object_start p + kWordSize <= x -> m1 x = memory w x) ->
            (if DEBUG
             then size <- HeapSize (FromAddr (object_start p)) ;;
                  zap_fillers fuel (uword (ToAddr (FromAddr (object_start p)) + size))
                    (object_end p)
             else ret tt)
              (with_mark_tests ts (with_memory m1 w))
            = Ret (tt, with_mark_tests
                         (ts ++ (if DEBUG
                                 then addresses (object_start p + tags_size h) fillers
                                 else []))
                         (with_memory
                            (if DEBUG
                             then zap_objects m1 (object_start p + tags_size h) fillers
                             else m1) w))).
  { intros m1 ts Hh Hfr. destruct DEBUG.
    - rewrite bind_HeapSize. cbn [memory with_memory with_mark_tests ToAddr].
      rewrite Hh.
      assert (Hsz : tags_size (if tags_marked h then tags_clear_mark h else h) = tags_size h)
        by (destruct (tags_marked h); [apply clear_mark_size | reflexivity]).
      rewrite Hsz, uword_small by lia.
      assert (Ht1 : tiles unowned (memory (with_mark_tests ts (with_memory m1 w)))
                      (object_start p + tags_size h) fillers (object_end p)).
      { cbn [memory with_memory with_mark_tests].
        apply tiles_ext with (m := memory w); [|exact Ht].
        intros x Hx. apply Hfr. lia. }
      assert (Hlf : (length fillers < fuel)%nat) by (apply Nat2Z.inj_lt; lia).
      rewrite (zap_fillers_run (object_end p) fillers fuel _ _ Hb2 Ht1 Hu Hlf)
        by lia.
      reflexivity.
    - rewrite app_nil_r. reflexivity. }
  destruct (tags_marked h) eqn:Hm.
  - rewrite !bind_assoc, bind_ClearMarkBit, !bind_assoc, bind_HeapSize.
    cbn [memory with_memory with_mark_tests]. rewrite Hl.
    rewrite load_store_word
      by (apply clear_mark_word; rewrite <- Hl; apply load_word_range).
    rewrite clear_mark_size, bind_ret.
    match goal with
    | |- bind _ _ ?w1 = _ =>
        change w1 with (with_mark_tests (mark_tests w ++ [object_start p])
                          (with_memory (store_word (memory w) (object_start p)
                                          (tags_clear_mark h)) w))
    end.
    rewrite (@bind_returns _ _ _ _ _ _ _ (Hzap _ _ ltac:(
      apply load_store_word; apply clear_mark_word; rewrite <- Hl; apply load_word_range)
      ltac:(intros x Hx; apply store_word_other; lia))).
    rewrite <- app_assoc. reflexivity.
  - rewrite bind_ret.
    match goal with
    | |- bind _ _ ?w1 = _ =>
        change w1 with (with_mark_tests (mark_tests w ++ [object_start p])
                          (with_memory (memory w) w))
    end.
    rewrite (@bind_returns _ _ _ _ _ _ _ (Hzap _ _ Hl ltac:(reflexivity))).
    rewrite <- app_assoc. reflexivity.
Qed.

Lemma after_large_sweep_frame w p h fillers x :
  page_bounds p -> 0 < tags_size h -> tags_size h mod kWordSize = 0 ->
  tiles unowned (memory w) (object_start p + tags_size h) fillers (object_end p) ->
  ~ (object_start p <= x < object_end p) ->
  memory (after_large_sweep w p h fillers) x = memory w x.
Proof.
  intros (Hb1 & Hb2 & Hb3) Hp Hal Ht Hx. pose proof kWordSize_pos as Hw.
  pose proof (tiles_sized _ _ _ _ _ Ht) as Hs.
  pose proof (tiles_extent _ _ _ _ _ Ht) as He.
  pose proof (sized_extent_nonneg _ Hs) as Hn.
  assert (Hfw : kWordSize <= tags_size h).
  { apply (sized_first_word h []). constructor; [split; assumption | constructor]. }
  unfold after_large_sweep. cbn [memory with_memory with_mark_tests].
  assert (H1 : (if tags_marked h
                then store_word (memory w) (object_start p) (tags_clear_mark h)
                else memory w) x = memory w x).
  { destruct (tags_marked h); [apply store_word_other; lia | reflexivity]. }
  destruct DEBUG; [|exact H1].
  rewrite zap_objects_other; [exact H1 | exact Hs | lia | lia | lia].
Qed.

(** C4.  [SweepLargePage] returns 0 when the object at the start of the page
    is unmarked.  When it is marked, the object's header is left as
    [ClearMarkBit] makes it, unmarked, and the value returned is the
    object's size in words, whatever filler objects follow it. *)
Theorem SweepLargePage_words fuel w page p h fillers :
  large_sweepable w page p h fillers ->
  object_end p - object_start p + 1 <= Z.of_nat fuel ->
  exists words w',
    SweepLargePage fuel page w = Ret (words, w') /\
    (tags_marked h = false -> words = 0) /\
    (tags_marked h = true ->
       words = Z.shiftr (tags_size h) kWordSizeLog2 /\
       words * kWordSize = tags_size h /\
       load_word (memory w') (object_start p) = tags_clear_mark h /\
       tags_marked (load_word (memory w') (object_start p)) = false).
Proof.
  intros Hsw Hf. pose proof kWordSize_pos as Hw.
  exists (large_page_words h), (after_large_sweep w p h fillers).
  split; [apply SweepLargePage_result; assumption|].
  destruct Hsw as (Hpg & Himg & (Hb1 & Hb2 & Hb3) & Hl & Hp & Hal & Hown & Ht & Hu).
  unfold large_page_words. split; intros Hm; rewrite Hm; [reflexivity|].
  split; [reflexivity|]. split.
  - rewrite Z.shiftr_div_pow2 by apply kWordSizeLog2_nonneg.
    unfold kWordSize in *. rewrite Z.shiftl_1_l in *.
    apply Z.mod_divide in Hal; [|lia]. destruct Hal as [q ->].
    rewrite Z.div_mul by lia. reflexivity.
  - assert (Hh : load_word (memory (after_large_sweep w p h fillers)) (object_start p)
                 = tags_clear_mark h).
    { pose proof (tiles_sized _ _ _ _ _ Ht) as Hs.
      pose proof (tiles_extent _ _ _ _ _ Ht) as He.
      pose proof (sized_extent_nonneg _ Hs) as Hn.
      assert (Hfw : kWordSize <= tags_size h).
      { apply (sized_first_word h []). constructor; [split; assumption | constructor]. }
      unfold after_large_sweep. cbn [memory with_memory with_mark_tests]. rewrite Hm.
      rewrite (load_word_ext (store_word (memory w) (object_start p) (tags_clear_mark h))).
      - apply load_store_word. apply clear_mark_word. rewrite <- Hl. apply load_word_range.
      - intros x Hx. destruct DEBUG; [|reflexivity].
        apply zap_objects_other; [exact Hs | lia | lia | lia]. }
    split; [exact Hh|]. rewrite Hh. apply clear_mark_unmarked.
Qed.

End LargePage.

(** ** The sweeper task *)

Section Task.
Context {P : Platform} {POK : PlatformOk P}.

(** A large page of the old space as the task finds it: the page pointer,
    the page, the header of its object and its filler objects. *)
Record LargeEntry : Type := {
  le_page : Z;
  le_rec : HeapPage;
  le_head : Z;
  le_fillers : list Z
}.

(** An ordinary page: the page pointer, the page and its objects. *)
Record PageEntry : Type := {
  pe_page : Z;
  pe_rec : HeapPage;
  pe_objects : list Z
}.

(** [walk ps last page l]: following [next] from [page], and stopping after
    [last] or at NULL, visits the pages [l]. *)
Fixpoint walk (ps : Z -> option HeapPage) (last page : Z) (l : list Z) : Prop :=
  match l with
  | [] => page = NULL
  | q :: r =>
      page = q /\ q <> NULL /\
      if q =? last then r = []
      else exists pq, ps q = Some pq /\ walk ps last (next pq) r
  end.

(** Two pages whose object areas do not overlap. *)
Definition apart (p q : HeapPage) : Prop :=
  object_end p <= object_start q \/ object_end q <= object_start p.

Definition outside (p : HeapPage) (x : Z) : Prop :=
  ~ (object_start p <= x < object_end p).

(** What the walk over the large pages asks of its collaborators. *)
Fixpoint large_events (prev : Z) (ls : list LargeEntry) : list Event :=
  match ls with
  | [] => []
  | e :: r =>
      CallSweepLargePage (le_page e) ::
      (if large_page_words (le_head e) =? 0
       then CallFreeLargePage (le_page e) prev :: large_events prev r
       else CallTruncateLargePage (le_page e)
              (intptr (Z.shiftl (large_page_words (le_head e)) kWordSizeLog2))
            :: large_events (le_page e) r)
  end.

(** What the walk over the ordinary pages asks of its collaborators. *)
Fixpoint page_events (prev : Z) (os : list PageEntry) : list Event :=
  match os with
  | [] => []
  | e :: r =>
      CallSweepPage (pe_page e) ::
      (if negb (live_bytes (pe_objects e) =? 0)
       then [MonitorEnter; MonitorNotify; MonitorExit] ++ page_events (pe_page e) r
       else CallFreePage (pe_page e) prev ::
            [MonitorEnter; MonitorNotify; MonitorExit] ++ page_events prev r)
  end.

Definition large_ready (w : World) (fuel : Z) (e : LargeEntry) : Prop :=
  large_sweepable w (le_page e) (le_rec e) (le_head e) (le_fillers e) /\
  (DEBUG = true -> type (le_rec e) = kData) /\
  object_end (le_rec e) - object_start (le_rec e) + 1 <= fuel.

Definition page_ready (w : World) (fuel : Z) (e : PageEntry) : Prop :=
  sweepable w (pe_page e) (pe_rec e) (pe_objects e) /\
  (DEBUG = true -> type (pe_rec e) = kData) /\
  object_end (pe_rec e) - object_start (pe_rec e) + 2 <= fuel.

Lemma tiles_ext_in own m m' a hs e :
  (forall x, a <= x < e -> m' x = m x) ->
  tiles own m a hs e -> tiles own m' a hs e.
Proof.
  pose proof kWordSize_pos as Hw.
  revert a. induction hs as [|h l IH]; intros a Hm H; [exact H|].
  pose proof (tiles_sized _ _ _ _ _ H) as Hs.
  pose proof (tiles_extent _ _ _ _ _ H) as He.
  pose proof (sized_first_word _ _ Hs) as Hfw.
  pose proof (sized_extent_nonneg _ (Forall_inv_tail Hs)) as Hn.
  rewrite extent_cons in He.
  destruct H as (Hl & Hp & Ha & Ho & Hr).
  cbn [tiles]. repeat split; try assumption.
  - rewrite <- Hl. apply load_word_ext. intros; apply Hm; lia.
  - apply IH; [|exact Hr]. intros; apply Hm; lia.
Qed.

Lemma walk_ext ps ps' last l : forall page,
  (forall q, In q l -> ps' q = ps q) ->
  walk ps last page l -> walk ps' last page l.
Proof.
  induction l as [|q r IH]; intros page Hps H; [exact H|].
  destruct H as (Hq & Hn & H). cbn [walk]. split; [exact Hq|]. split; [exact Hn|].
  destruct (q =? last); [exact H|].
  destruct H as (pq & Hpq & H). exists pq. split.
  - rewrite Hps by (left; reflexivity). exact Hpq.
  - apply IH; [|exact H]. intros q' Hq'. apply Hps. right. exact Hq'.
Qed.

Lemma large_sweepable_frame w w' page p h fillers :
  pages w' page = pages w page ->
  (forall x, object_start p <= x < object_end p -> memory w' x = memory w x) ->
  large_sweepable w page p h fillers -> large_sweepable w' page p h fillers.
Proof.
  intros Hpg Hm (H1 & H2 & H3 & Hl & Hp & Hal & Hown & Ht & Hu).
  pose proof kWordSize_pos as Hw.
  pose proof (tiles_sized _ _ _ _ _ Ht) as Hs.
  pose proof (tiles_extent _ _ _ _ _ Ht) as He.
  pose proof (sized_extent_nonneg _ Hs) as Hn.
  assert (Hfw : kWordSize <= tags_size h).
  { apply (sized_first_word h []). constructor; [split; assumption | constructor]. }
  unfold large_sweepable. repeat split; try assumption; try apply H3.
  - rewrite Hpg. exact H1.
  - rewrite <- Hl. apply load_word_ext. intros x Hx. apply Hm. lia.
  - apply tiles_ext_in with (m := memory w); [|exact Ht].
    intros x Hx. apply Hm. lia.
Qed.

Lemma sweepable_frame w w' page p hs :
  pages w' page = pages w page ->
  (forall x, object_start p <= x < object_end p -> memory w' x = memory w x) ->
  sweepable w page p hs -> sweepable w' page p hs.
Proof.
  intros Hpg Hm (H1 & H2 & H3 & Ht).
  unfold sweepable. repeat split; try assumption; try apply H3.
  - rewrite Hpg. exact H1.
  - apply tiles_ext_in with (m := memory w); [|exact Ht]. exact Hm.
Qed.

Lemma apart_outside p q x :
  apart p q -> object_start q <= x < object_end q -> outside p x.
Proof. unfold apart, outside. lia. Qed.

Lemma emit_runs B e (k : unit -> M B) w :
  bind (emit e) k w = k tt (with_trace (trace w ++ [e]) w).
Proof. reflexivity. Qed.

Lemma load_page_runs B page p (k : HeapPage -> M B) w :
  pages w page = Some p -> bind (load_page page) k w = k p w.
Proof. intros H. unfold bind, load_page. rewrite H. reflexivity. Qed.

Lemma large_ready_frame w w' fuel e :
  pages w' (le_page e) = pages w (le_page e) ->
  (forall x, object_start (le_rec e) <= x < object_end (le_rec e) ->
             memory w' x = memory w x) ->
  large_ready w fuel e -> large_ready w' fuel e.
Proof.
  intros Hpg Hm (H1 & H2 & H3). split; [|split; assumption].
  eapply large_sweepable_frame; eassumption.
Qed.

Lemma page_ready_frame w w' fuel e :
  pages w' (pe_page e) = pages w (pe_page e) ->
  (forall x, object_start (pe_rec e) <= x < object_end (pe_rec e) ->
             memory w' x = memory w x) ->
  page_ready w fuel e -> page_ready w' fuel e.
Proof.
  intros Hpg Hm (H1 & H2 & H3). split; [|split; assumption].
  eapply sweepable_frame; eassumption.
Qed.

(** The walk over the large pages. *)
Lemma sweep_large_pages_run t ls : forall fuel page prev w,
  (length ls < fuel)%nat ->
  walk (pages w) (large_last_ t) page (map le_page ls) ->
  Forall (large_ready w (Z.of_nat fuel - Z.of_nat (length ls))) ls ->
  ForallOrdPairs (fun a b => apart (le_rec a) (le_rec b)) ls ->
  exists w',
    sweep_large_pages fuel t page prev w = Ret (tt, w') /\
    trace w' = trace w ++ large_events prev ls /\
    tasks w' = tasks w /\ phase w' = phase w /\
    pages w' = pages w /\ freelist w' = freelist w /\
    (forall x, Forall (fun e => outside (le_rec e) x) ls -> memory w' x = memory w x).
Proof.
  induction ls as [|e r IH]; intros fuel page prev w Hlen Hwalk Hready Hapart;
    (destruct fuel as [|fuel]; [cbn in Hlen; lia|]); cbn [sweep_large_pages].
  - cbn in Hwalk. subst page. cbn [Z.eqb NULL negb].
    exists w. cbn [large_events]. rewrite app_nil_r. repeat split.
  - cbn [map walk] in Hwalk. destruct Hwalk as (-> & Hnn & Hwalk).
    pose proof (Forall_inv Hready) as (Hsw & Hty & Hfe).
    pose proof (Forall_inv_tail Hready) as Hready'.
    inversion Hapart as [|? ? Hae Hapart']; subst.
    pose proof Hsw as (Hpg & _ & Hbounds & _ & Hp & Hal & _ & Htf & _).
    assert (E : negb (le_page e =? NULL) = true)
      by (apply negb_true_iff, Z.eqb_neq; exact Hnn).
    rewrite E. clear E.
    set (nxt := if le_page e =? large_last_ t then NULL else next (le_rec e)).
    assert (Hnext : (if le_page e =? large_last_ t then ret NULL
                     else p <- load_page (le_page e) ;; ret (next p)) w = Ret (nxt, w)).
    { unfold nxt. destruct (le_page e =? large_last_ t); [reflexivity|].
      rewrite (load_page_runs _ _ _ _ _ Hpg). reflexivity. }
    rewrite (@bind_returns _ _ _ _ _ _ _ Hnext).
    rewrite (load_page_runs _ _ _ _ _ Hpg).
    rewrite bind_ASSERT by (intro D; rewrite (Hty D); reflexivity).
    rewrite emit_runs.
    set (w1 := with_trace (trace w ++ [CallSweepLargePage (le_page e)]) w).
    assert (Hsw1 : large_sweepable w1 (le_page e) (le_rec e) (le_head e) (le_fillers e))
      by exact Hsw.
    cbn [length] in Hfe.
    rewrite (@bind_returns _ _ _ _ _ _ _
               (SweepLargePage_result fuel w1 _ _ _ _ Hsw1 ltac:(lia))).
    set (w2 := after_large_sweep w1 (le_rec e) (le_head e) (le_fillers e)).
    set (prev' := if large_page_words (le_head e) =? 0 then prev else le_page e).
    set (ev := if large_page_words (le_head e) =? 0
               then CallFreeLargePage (le_page e) prev
               else CallTruncateLargePage (le_page e)
                      (intptr (Z.shiftl (large_page_words (le_head e)) kWordSizeLog2))).
    set (w3 := with_trace (trace w2 ++ [ev]) w2).
    assert (Hev : (if large_page_words (le_head e) =? 0
                   then emit (CallFreeLargePage (le_page e) prev) ;; ret prev
                   else emit (CallTruncateLargePage (le_page e)
                                (intptr (Z.shiftl (large_page_words (le_head e))
                                           kWordSizeLog2))) ;;
                        ret (le_page e)) w2 = Ret (prev', w3)).
    { unfold prev', w3, ev. destruct (large_page_words (le_head e) =? 0); reflexivity. }
    rewrite (@bind_returns _ _ _ _ _ _ _ Hev).
    assert (Hm3 : forall x, outside (le_rec e) x -> memory w3 x = memory w x).
    { intros x Hx. apply (after_large_sweep_frame w1 (le_rec e) (le_head e) (le_fillers e));
        assumption. }
    destruct (IH fuel nxt prev' w3) as (w' & Hrun & Htr & Htk & Hph & Hpgs & Hfl & Hmem).
    + cbn in Hlen. lia.
    + unfold nxt. destruct (le_page e =? large_last_ t).
      * destruct r; [reflexivity | discriminate Hwalk].
      * destruct Hwalk as (pq & Hpq & Hwalk). rewrite Hpg in Hpq.
        injection Hpq as <-. exact Hwalk.
    + rewrite Forall_forall in Hready', Hae. apply Forall_forall. intros e' Hin.
      apply large_ready_frame with (w := w); [reflexivity | |].
      * intros x Hx. apply Hm3. eapply apart_outside; [apply Hae; exact Hin | exact Hx].
      * replace (Z.of_nat fuel - Z.of_nat (length r))
          with (Z.of_nat (S fuel) - Z.of_nat (length (e :: r)))
          by (cbn [length]; lia).
        apply Hready'. exact Hin.
    + exact Hapart'.
    + exists w'. split; [exact Hrun|].
      split.
      { rewrite Htr. cbn [large_events]. unfold w3, w2, w1, ev, prev'.
        cbn [trace with_trace after_large_sweep with_mark_tests with_memory].
        destruct (large_page_words (le_head e) =? 0);
          rewrite <- !app_assoc; reflexivity. }
      split; [rewrite Htk; reflexivity|]. split; [rewrite Hph; reflexivity|].
      split; [rewrite Hpgs; reflexivity|]. split; [rewrite Hfl; reflexivity|].
      intros x Hx. rewrite Hmem by exact (Forall_inv_tail Hx).
      apply Hm3. exact (Forall_inv Hx).
Qed.

(** The walk over the ordinary pages. *)
Lemma sweep_pages_run t os : forall fuel page prev w,
  (length os < fuel)%nat ->
  walk (pages w) (last_ t) page (map pe_page os) ->
  Forall (page_ready w (Z.of_nat fuel - Z.of_nat (length os))) os ->
  NoDup (map pe_page os) ->
  ForallOrdPairs (fun a b => apart (pe_rec a) (pe_rec b)) os ->
  exists w',
    sweep_pages fuel t page prev w = Ret (tt, w') /\
    trace w' = trace w ++ page_events prev os /\
    tasks w' = tasks w /\ phase w' = phase w.
Proof.
  induction os as [|e r IH]; intros fuel page prev w Hlen Hwalk Hready Hnd Hapart;
    (destruct fuel as [|fuel]; [cbn in Hlen; lia|]); cbn [sweep_pages].
  - cbn in Hwalk. subst page. cbn [Z.eqb NULL negb].
    exists w. cbn [page_events]. rewrite app_nil_r. repeat split.
  - cbn [map walk] in Hwalk. destruct Hwalk as (-> & Hnn & Hwalk).
    pose proof (Forall_inv Hready) as (Hsw & Hty & Hfe).
    pose proof (Forall_inv_tail Hready) as Hready'.
    inversion Hapart as [|? ? Hae Hapart']; subst.
    cbn [map] in Hnd. inversion Hnd as [|? ? Hnotin Hnd']; subst.
    pose proof Hsw as (Hpg & _).
    assert (E : negb (pe_page e =? NULL) = true)
      by (apply negb_true_iff, Z.eqb_neq; exact Hnn).
    rewrite E. clear E.
    set (nxt := if pe_page e =? last_ t then NULL else next (pe_rec e)).
    assert (Hnext : (if pe_page e =? last_ t then ret NULL
                     else p <- load_page (pe_page e) ;; ret (next p)) w = Ret (nxt, w)).
    { unfold nxt. destruct (pe_page e =? last_ t); [reflexivity|].
      rewrite (load_page_runs _ _ _ _ _ Hpg). reflexivity. }
    rewrite (@bind_returns _ _ _ _ _ _ _ Hnext).
    rewrite (load_page_runs _ _ _ _ _ Hpg).
    rewrite bind_ASSERT by (intro D; rewrite (Hty D); reflexivity).
    rewrite emit_runs.
    set (w1 := with_trace (trace w ++ [CallSweepPage (pe_page e)]) w).
    assert (Hsw1 : sweepable w1 (pe_page e) (pe_rec e) (pe_objects e)) by exact Hsw.
    cbn [length] in Hfe.
    rewrite (@bind_returns _ _ _ _ _ _ _
               (SweepPage_result fuel w1 _ _ false _ Hsw1 ltac:(lia))).
    set (w2 := after_sweep w1 (pe_page e) (pe_rec e) false (pe_objects e)).
    set (prev' := if negb (live_bytes (pe_objects e) =? 0) then pe_page e else prev).
    set (evs := if negb (live_bytes (pe_objects e) =? 0) then []
                else [CallFreePage (pe_page e) prev]).
    set (w3 := with_trace (trace w2 ++ evs) w2).
    assert (Hev : (if negb (live_bytes (pe_objects e) =? 0) then ret (pe_page e)
                   else emit (CallFreePage (pe_page e) prev) ;; ret prev) w2
                  = Ret (prev', w3)).
    { unfold prev', w3, evs. destruct (negb (live_bytes (pe_objects e) =? 0)).
      - rewrite app_nil_r. reflexivity.
      - reflexivity. }
    rewrite (@bind_returns _ _ _ _ _ _ _ Hev).
    rewrite !emit_runs.
    set (w4 := with_trace (((trace w3 ++ [MonitorEnter]) ++ [MonitorNotify])
                           ++ [MonitorExit]) w3).
    assert (Hm4 : forall x, outside (pe_rec e) x -> memory w4 x = memory w x).
    { intros x Hx.
      apply (proj1 (swept_memory w1 (pe_page e) (pe_rec e) false (pe_objects e) Hsw1)).
      unfold outside in Hx. lia. }
    assert (Hp4 : forall q, q <> pe_page e -> pages w4 q = pages w q).
    { intros q Hq. unfold w4, w3, w2, after_sweep, pages_with.
      cbn [pages with_trace with_pages].
      apply Z.eqb_neq in Hq. rewrite Hq. reflexivity. }
    destruct (IH fuel nxt prev' w4) as (w' & Hrun & Htr & Htk & Hph).
    + cbn in Hlen. lia.
    + apply walk_ext with (ps := pages w).
      * intros q Hq. apply Hp4. intros ->. contradiction.
      * unfold nxt. destruct (pe_page e =? last_ t).
        -- destruct r; [reflexivity | discriminate Hwalk].
        -- destruct Hwalk as (pq & Hpq & Hwalk). rewrite Hpg in Hpq.
           injection Hpq as <-. exact Hwalk.
    + rewrite Forall_forall in Hready', Hae. apply Forall_forall. intros e' Hin.
      apply page_ready_frame with (w := w).
      * apply Hp4. intros Heq. apply Hnotin. rewrite <- Heq. apply in_map. exact Hin.
      * intros x Hx. apply Hm4. eapply apart_outside; [apply Hae; exact Hin | exact Hx].
      * replace (Z.of_nat fuel - Z.of_nat (length r))
          with (Z.of_nat (S fuel) - Z.of_nat (length (e :: r)))
          by (cbn [length]; lia).
        apply Hready'. exact Hin.
    + exact Hnd'.
    + exact Hapart'.
    + exists w'. split; [exact Hrun|].
      split.
      { rewrite Htr. cbn [page_events]. unfold w4, w3, w2, w1, evs, prev'.
        cbn [trace with_trace after_sweep with_pages install with_mark_tests
             with_freelist with_memory].
        destruct (negb (live_bytes (pe_objects e) =? 0));
          rewrite <- !app_assoc; reflexivity. }
      split; [rewrite Htk; reflexivity | rewrite Hph; reflexivity].
Qed.

(** The heap as the task expects it: the two page lists can be walked, each
    of their pages can be swept with the fuel at hand, no page is met twice
    and no two object areas overlap. *)
Definition task_heap (w : World) (t : ConcurrentSweeperTask) (fuel : nat)
    (ls : list LargeEntry) (os : list PageEntry) : Prop :=
  (length ls < fuel)%nat /\ (length os < fuel)%nat /\
  walk (pages w) (large_last_ t) (large_first_ t) (map le_page ls) /\
  Forall (large_ready w (Z.of_nat fuel - Z.of_nat (length ls))) ls /\
  ForallOrdPairs (fun a b => apart (le_rec a) (le_rec b)) ls /\
  walk (pages w) (last_ t) (first_ t) (map pe_page os) /\
  Forall (page_ready w (Z.of_nat fuel - Z.of_nat (length os))) os /\
  NoDup (map pe_page os) /\
  ForallOrdPairs (fun a b => apart (pe_rec a) (pe_rec b)) os /\
  Forall (fun a => Forall (fun b => apart (le_rec a) (pe_rec b)) os) ls.

(** The end of [Run]: the task leaves the isolate and, under the monitor,
    gives back its count, sets the phase and wakes all waiters. *)
Definition completion_events (n : Z) : list Event :=
  [MonitorEnter; SetTasks n; SetPhase kDone; MonitorNotifyAll; MonitorExit].

Definition walk_events (ls : list LargeEntry) (os : list PageEntry) : list Event :=
  EnterIsolateAsHelper :: large_events NULL ls ++ page_events NULL os
  ++ [ExitIsolateAsHelper].

(** The count and the phase as the events of a trace leave them. *)
Definition observe (st : Z * Phase) (e : Event) : Z * Phase :=
  match e with
  | SetTasks n => (n, snd st)
  | SetPhase p => (fst st, p)
  | _ => st
  end.

Definition replay (st : Z * Phase) (es : list Event) : Z * Phase :=
  fold_left observe es st.

Definition is_setter (e : Event) : bool :=
  match e with
  | SetTasks _ | SetPhase _ => true
  | _ => false
  end.

Definition is_notify (e : Event) : bool :=
  match e with
  | MonitorNotify => true
  | _ => false
  end.

(** Whether a Notify follows every page that the task sweeps, before the
    next page is swept and before the task leaves the isolate; [waiting]
    tells whether a page was swept and no Notify has followed it yet. *)
Fixpoint notified_after_each_page (waiting : bool) (es : list Event) : bool :=
  match es with
  | [] => negb waiting
  | e :: r =>
      match e with
      | CallSweepLargePage _ | CallSweepPage _ =>
          negb waiting && notified_after_each_page true r
      | MonitorNotify => notified_after_each_page false r
      | ExitIsolateAsHelper => negb waiting
      | _ => notified_after_each_page waiting r
      end
  end.

Lemma large_events_quiet prev ls :
  forallb (fun e => negb (is_setter e) && negb (is_notify e)) (large_events prev ls) = true.
Proof.
  revert prev. induction ls as [|e r IH]; intros prev; [reflexivity|].
  cbn [large_events]. destruct (large_page_words (le_head e) =? 0);
    cbn [forallb is_setter is_notify negb andb]; apply IH.
Qed.

Lemma page_events_unset prev os :
  forallb (fun e => negb (is_setter e)) (page_events prev os) = true.
Proof.
  revert prev. induction os as [|e r IH]; intros prev; [reflexivity|].
  cbn [page_events]. destruct (negb (live_bytes (pe_objects e) =? 0));
    cbn [forallb is_setter negb andb app]; apply IH.
Qed.

Lemma page_events_notified prev os tail :
  notified_after_each_page false (page_events prev os ++ ExitIsolateAsHelper :: tail) = true.
Proof.
  revert prev. induction os as [|e r IH]; intros prev; [reflexivity|].
  cbn [page_events]. destruct (negb (live_bytes (pe_objects e) =? 0));
    cbn [app notified_after_each_page negb andb]; apply IH.
Qed.

Lemma page_events_notifies prev os :
  length (filter is_notify (page_events prev os)) = length os.
Proof.
  revert prev. induction os as [|e r IH]; intros prev; [reflexivity|].
  cbn [page_events]. destruct (negb (live_bytes (pe_objects e) =? 0));
    cbn [app filter is_notify length]; rewrite IH; reflexivity.
Qed.

Lemma unnotified_page_pending prev ls prev' os tl :
  notified_after_each_page true
    (large_events prev ls ++ page_events prev' os ++ ExitIsolateAsHelper :: tl) = false.
Proof.
  destruct ls as [|e r]; [destruct os as [|e r]|]; reflexivity.
Qed.

Lemma walk_events_notified ls os tl :
  notified_after_each_page false (walk_events ls os ++ tl)
  = match ls with [] => true | _ :: _ => false end.
Proof.
  unfold walk_events. cbn [app notified_after_each_page].
  rewrite <- !app_assoc. cbn [app].
  destruct ls as [|e r].
  - cbn [large_events app]. apply page_events_notified.
  - cbn [large_events app notified_after_each_page negb andb].
    destruct (large_page_words (le_head e) =? 0);
      cbn [app notified_after_each_page]; apply unnotified_page_pending.
Qed.

Lemma replay_unset es : forall st,
  forallb (fun e => negb (is_setter e)) es = true -> replay st es = st.
Proof.
  induction es as [|e r IH]; intros st H; [reflexivity|].
  cbn [forallb] in H. apply andb_true_iff in H. destruct H as [He Hr].
  unfold replay in *. cbn [fold_left]. rewrite IH by exact Hr.
  destruct e; try reflexivity; discriminate.
Qed.

Lemma walk_events_unset ls os :
  forallb (fun e => negb (is_setter e)) (walk_events ls os) = true.
Proof.
  unfold walk_events. cbn [forallb is_setter negb andb].
  rewrite !forallb_app, page_events_unset. cbn [forallb is_setter negb andb].
  rewrite andb_true_r.
  pose proof (large_events_quiet NULL ls) as H.
  rewrite forallb_forall in H. apply forallb_forall. intros e He.
  specialize (H e He). apply andb_true_iff in H. tauto.
Qed.

Lemma forallb_prefix A (f : A -> bool) pre suf :
  forallb f (pre ++ suf) = true -> forallb f pre = true.
Proof. rewrite forallb_app. intros H. apply andb_true_iff in H. tauto. Qed.

(** The constructor. *)
Lemma ConcurrentSweeperTask_new_result iso osp first last lfirst llast fl w :
  (DEBUG = true -> iso <> NULL /\ first <> NULL /\ last <> NULL /\ fl <> NULL) ->
  osp <> NULL ->
  - (word_modulus / 2) <= tasks w + 1 < word_modulus / 2 ->
  ConcurrentSweeperTask_new iso osp first last lfirst llast fl w =
  Ret ({| task_isolate_ := iso; old_space_ := osp; first_ := first; last_ := last;
          large_first_ := lfirst; large_last_ := llast; freelist_ := fl |},
       with_trace (trace w ++ [MonitorEnter; SetTasks (tasks w + 1);
                               SetPhase kSweeping; MonitorExit])
         (with_phase kSweeping (with_tasks (tasks w + 1) w))).
Proof.
  intros Hnn Hosp Hn. unfold ConcurrentSweeperTask_new.
  rewrite !bind_ASSERT
    by (intro D; apply negb_true_iff, Z.eqb_neq; destruct (Hnn D) as (?&?&?&?); assumption).
  unfold bind at 1, through_old_space.
  apply Z.eqb_neq in Hosp. rewrite Hosp.
  rewrite emit_runs. unfold bind, get_tasks, set_tasks, set_phase, emit, ret.
  cbn [tasks trace with_trace with_tasks with_phase].
  rewrite intptr_small by exact Hn.
  rewrite <- !app_assoc. reflexivity.
Qed.

(** [Run] as a whole. *)
Lemma Run_result fuel t w ls os :
  task_heap w t fuel ls os ->
  (DEBUG = true -> phase w = kSweeping) ->
  exists w',
    Run fuel t w = Ret (tt, w') /\
    trace w' = trace w ++ walk_events ls os ++ completion_events (intptr (tasks w - 1)) /\
    tasks w' = intptr (tasks w - 1) /\ phase w' = kDone.
Proof.
  intros (Hl1 & Hl2 & Hw1 & Hr1 & Ha1 & Hw2 & Hr2 & Hnd & Ha2 & Hx) Hph.
  unfold Run. rewrite emit_runs.
  set (w0 := with_trace (trace w ++ [EnterIsolateAsHelper]) w).
  destruct (sweep_large_pages_run t ls fuel (large_first_ t) NULL w0 Hl1 Hw1 Hr1 Ha1)
    as (w1 & Hrun1 & Ht1 & Htk1 & Hph1 & Hpg1 & Hfl1 & Hm1).
  rewrite (@bind_returns _ _ _ _ _ _ _ Hrun1).
  destruct (sweep_pages_run t os fuel (first_ t) NULL w1 Hl2)
    as (w2 & Hrun2 & Ht2 & Htk2 & Hph2).
  - rewrite Hpg1. exact Hw2.
  - rewrite Forall_forall in Hr2. apply Forall_forall. intros e He.
    apply page_ready_frame with (w := w0).
    + rewrite Hpg1. reflexivity.
    + intros x Hxr. apply Hm1. rewrite Forall_forall in Hx. apply Forall_forall.
      intros a Ha. specialize (Hx a Ha). rewrite Forall_forall in Hx.
      eapply apart_outside; [apply Hx; exact He | exact Hxr].
    + apply Hr2. exact He.
  - exact Hnd.
  - exact Ha2.
  - rewrite (@bind_returns _ _ _ _ _ _ _ Hrun2).
    rewrite !emit_runs. unfold bind at 1, get_tasks.
    unfold bind at 1, set_tasks. unfold bind at 1, get_phase.
    cbn [tasks phase trace with_trace with_tasks].
    rewrite bind_ASSERT.
    2:{ intro D. rewrite Hph2, Hph1. cbn [phase w0 with_trace]. rewrite (Hph D). reflexivity. }
    unfold bind at 1, set_phase. rewrite emit_runs. unfold emit.
    eexists. split; [reflexivity|].
    cbn [tasks phase trace with_trace with_tasks with_phase].
    rewrite Ht2, Ht1, Htk2, Htk1. cbn [trace tasks w0 with_trace].
    unfold walk_events, completion_events.
    repeat split. cbn [app]. rewrite <- !app_assoc. cbn [app]. reflexivity.
Qed.

(** [Run] up to its assertion: the world [wm] in which the phase is
    checked, and what follows in either case. *)
Lemma Run_outcome fuel t w ls os :
  task_heap w t fuel ls os ->
  exists wm,
    trace wm = trace w ++ walk_events ls os
               ++ [MonitorEnter; SetTasks (intptr (tasks w - 1))] /\
    tasks wm = intptr (tasks w - 1) /\ phase wm = phase w /\
    Run fuel t w =
    if DEBUG && negb (Phase_eqb (phase w) kSweeping)
    then Stop AssertionFailed wm
    else Ret (tt, with_trace (trace wm ++ [SetPhase kDone; MonitorNotifyAll; MonitorExit])
                    (with_phase kDone wm)).
Proof.
  intros (Hl1 & Hl2 & Hw1 & Hr1 & Ha1 & Hw2 & Hr2 & Hnd & Ha2 & Hx).
  set (w0 := with_trace (trace w ++ [EnterIsolateAsHelper]) w).
  destruct (sweep_large_pages_run t ls fuel (large_first_ t) NULL w0 Hl1 Hw1 Hr1 Ha1)
    as (w1 & Hrun1 & Ht1 & Htk1 & Hph1 & Hpg1 & Hfl1 & Hm1).
  destruct (sweep_pages_run t os fuel (first_ t) NULL w1 Hl2)
    as (w2 & Hrun2 & Ht2 & Htk2 & Hph2).
  - rewrite Hpg1. exact Hw2.
  - rewrite Forall_forall in Hr2. apply Forall_forall. intros e He.
    apply page_ready_frame with (w := w0).
    + rewrite Hpg1. reflexivity.
    + intros x Hxr. apply Hm1. rewrite Forall_forall in Hx. apply Forall_forall.
      intros a Ha. specialize (Hx a Ha). rewrite Forall_forall in Hx.
      eapply apart_outside; [apply Hx; exact He | exact Hxr].
    + apply Hr2. exact He.
  - exact Hnd.
  - exact Ha2.
  - assert (Htk : tasks w2 = tasks w) by (rewrite Htk2, Htk1; reflexivity).
    assert (Hph : phase w2 = phase w) by (rewrite Hph2, Hph1; reflexivity).
    exists (with_trace (((trace w2 ++ [ExitIsolateAsHelper]) ++ [MonitorEnter])
                        ++ [SetTasks (intptr (tasks w2 - 1))])
              (with_tasks (intptr (tasks w2 - 1)) w2)).
    cbn [trace tasks phase with_trace with_tasks].
    split; [|split; [|split]].
    + rewrite Ht2, Ht1, Htk. cbn [trace w0 with_trace]. unfold walk_events.
      rewrite <- !app_assoc. cbn [app]. rewrite <- !app_assoc. cbn [app]. reflexivity.
    + rewrite Htk. reflexivity.
    + exact Hph.
    + unfold Run. rewrite emit_runs. fold w0.
      rewrite (@bind_returns _ _ _ _ _ _ _ Hrun1).
      rewrite (@bind_returns _ _ _ _ _ _ _ Hrun2).
      rewrite !emit_runs. unfold bind at 1, get_tasks.
      unfold bind at 1, set_tasks. unfold bind at 1, get_phase.
      cbn [tasks phase trace with_trace with_tasks].
      unfold bind at 1, ASSERT. rewrite Hph.
      destruct (DEBUG && negb (Phase_eqb (phase w) kSweeping)); [reflexivity|].
      unfold bind, ret, set_phase, emit.
      cbn [tasks phase trace with_trace with_tasks with_phase].
      rewrite <- !app_assoc. reflexivity.
Qed.

(** C5.  The constructor, under the monitor that it reaches through the old
    space, adds one to the count of tasks and sets the phase to Sweeping.
    [Run] changes neither while it walks the pages; at its end, under the
    monitor, it takes one from the count, checks that the phase is
    Sweeping, sets it to Done and wakes all waiters.  So the count goes
    from [n] to [n + 1] and back, from 0 to 1 and back to 0 in particular;
    the phase is Sweeping from the constructor to the end of the walk, and
    Done after.  The check is an assertion of a DEBUG build: were the phase
    another one when the task runs, a DEBUG build would stop there, under
    the monitor, the count already taken down, the phase not set to Done
    and no waiter woken; a release build would go on and set Done. *)
Theorem sweeper_task_phase_protocol iso osp first last lfirst llast fl fuel w ls os :
  iso <> NULL -> first <> NULL -> osp <> NULL -> last <> NULL -> fl <> NULL ->
  task_heap w {| task_isolate_ := iso; old_space_ := osp; first_ := first;
                 last_ := last; large_first_ := lfirst; large_last_ := llast;
                 freelist_ := fl |} fuel ls os ->
  0 <= tasks w -> tasks w + 1 < word_modulus / 2 ->
  exists t w1 w2 body,
    ConcurrentSweeperTask_new iso osp first last lfirst llast fl w = Ret (t, w1) /\
    trace w1 = trace w ++ [MonitorEnter; SetTasks (tasks w + 1);
                           SetPhase kSweeping; MonitorExit] /\
    tasks w1 = tasks w + 1 /\ phase w1 = kSweeping /\
    Run fuel t w1 = Ret (tt, w2) /\
    trace w2 = trace w1 ++ body
               ++ [MonitorEnter; SetTasks (tasks w); SetPhase kDone;
                   MonitorNotifyAll; MonitorExit] /\
    (forall pre suf, body = pre ++ suf ->
       replay (tasks w1, phase w1) pre = (tasks w + 1, kSweeping)) /\
    replay (tasks w1, phase w1) (body ++ [MonitorEnter; SetTasks (tasks w)])
    = (tasks w, kSweeping) /\
    tasks w2 = tasks w /\ phase w2 = kDone /\
    (forall ph, ph <> kSweeping ->
       exists w3,
         trace w3 = trace w1 ++ body ++ [MonitorEnter; SetTasks (tasks w)] /\
         tasks w3 = tasks w /\ phase w3 = ph /\
         Run fuel t (with_phase ph w1) =
         if DEBUG then Stop AssertionFailed w3
         else Ret (tt, with_trace (trace w3 ++ [SetPhase kDone; MonitorNotifyAll;
                                                 MonitorExit])
                         (with_phase kDone w3))).
Proof.
  intros Hiso Hfirst Hosp Hlast Hfl Hheap Hn0 Hn1. pose proof word_modulus_even as Hev.
  set (t := {| task_isolate_ := iso; old_space_ := osp; first_ := first;
               last_ := last; large_first_ := lfirst; large_last_ := llast;
               freelist_ := fl |}) in *.
  set (w1 := with_trace (trace w ++ [MonitorEnter; SetTasks (tasks w + 1);
                                     SetPhase kSweeping; MonitorExit])
               (with_phase kSweeping (with_tasks (tasks w + 1) w))).
  assert (Hheap1 : task_heap w1 t fuel ls os) by exact Hheap.
  destruct (Run_result fuel t w1 ls os Hheap1 ltac:(reflexivity))
    as (w2 & Hrun & Htr & Htk & Hph).
  assert (Hback : intptr (tasks w1 - 1) = tasks w).
  { unfold w1. cbn [tasks with_trace with_phase with_tasks].
    rewrite intptr_small by lia. lia. }
  rewrite Hback in Htr, Htk.
  exists t, w1, w2, (walk_events ls os).
  split; [apply ConcurrentSweeperTask_new_result;
          [intros _; repeat split; assumption | exact Hosp | lia]|].
  split; [reflexivity|]. split; [reflexivity|]. split; [reflexivity|].
  split; [exact Hrun|]. split; [exact Htr|].
  split; [|split; [|split; [|split; [|]]]]; try assumption.
  - intros pre suf E. apply replay_unset.
    apply (forallb_prefix _ _ pre suf). rewrite <- E. apply walk_events_unset.
  - unfold replay. rewrite fold_left_app.
    fold (replay (tasks w1, phase w1) (walk_events ls os)).
    rewrite replay_unset by apply walk_events_unset. reflexivity.
  - intros ph Hne.
    assert (Hheap2 : task_heap (with_phase ph w1) t fuel ls os) by exact Hheap.
    destruct (Run_outcome fuel t (with_phase ph w1) ls os Hheap2)
      as (w3 & Ht3 & Htk3 & Hph3 & Hrun3).
    exists w3.
    change (tasks (with_phase ph w1)) with (tasks w1) in Ht3, Htk3.
    rewrite Hback in Ht3, Htk3.
    split; [exact Ht3|]. split; [exact Htk3|]. split; [exact Hph3|].
    rewrite Hrun3. cbn [phase with_phase].
    assert (E : Phase_eqb ph kSweeping = false)
      by (destruct ph; try reflexivity; exfalso; apply Hne; reflexivity).
    rewrite E. cbn [negb]. rewrite andb_true_r. reflexivity.
Qed.

(** C8, as the code has it.  After every ordinary page that it sweeps the
    task takes the monitor and calls Notify, before it goes on to the next
    page and before it leaves the isolate: there are as many Notify calls as
    ordinary pages.  The walk over the large pages calls no Notify, so that
    a Notify follows every swept page only when there is no large page. *)
Theorem notify_after_each_ordinary_page fuel t w ls os :
  task_heap w t fuel ls os ->
  (DEBUG = true -> phase w = kSweeping) ->
  exists w',
    Run fuel t w = Ret (tt, w') /\
    trace w' = trace w
               ++ (EnterIsolateAsHelper :: large_events NULL ls
                   ++ page_events NULL os ++ [ExitIsolateAsHelper])
               ++ completion_events (intptr (tasks w - 1)) /\
    forallb (fun e => negb (is_notify e)) (large_events NULL ls) = true /\
    notified_after_each_page false (page_events NULL os ++ [ExitIsolateAsHelper]) = true /\
    length (filter is_notify (page_events NULL os)) = length os /\
    notified_after_each_page false
      ((EnterIsolateAsHelper :: large_events NULL ls
        ++ page_events NULL os ++ [ExitIsolateAsHelper])
       ++ completion_events (intptr (tasks w - 1)))
    = match ls with [] => true | _ :: _ => false end.
Proof.
  intros Hheap Hph.
  destruct (Run_result fuel t w ls os Hheap Hph) as (w' & Hrun & Htr & _).
  exists w'. split; [exact Hrun|]. split; [exact Htr|].
  split; [|split; [|split]].
  - pose proof (large_events_quiet NULL ls) as H.
    rewrite forallb_forall in H. apply forallb_forall. intros e He.
    specialize (H e He). apply andb_true_iff in H. tauto.
  - apply page_events_notified.
  - apply page_events_notifies.
  - apply (walk_events_notified ls os).
Qed.

End Task.

(** * A 64-bit build and a small heap *)

(** A header layout for the examples: bit 0 is the mark bit, the bits from
    bit 8 on give the size in units of 8 bytes.  Pages are aligned to
    256 KB; the filler is a word of int3 instructions. *)
Definition sample_platform (debug : bool) : Platform := {|
  kWordSizeLog2 := 3;
  DEBUG := debug;
  kZapByte := 243;
  GetBreakInstructionFiller := 14757395258967641292;
  tags_marked := Z.odd;
  tags_clear_mark := fun t => if Z.odd t then t - 1 else t;
  tags_size := fun t => 8 * (t / 256);
  page_of_addr := fun a => Z.land a (Z.lnot 262143)
|}.

Lemma sample_ok debug : PlatformOk (sample_platform debug).
Proof.
  constructor; cbn [kWordSizeLog2 kZapByte GetBreakInstructionFiller tags_marked
                    tags_clear_mark tags_size sample_platform].
  - lia.
  - lia.
  - change (@word_modulus (sample_platform debug)) with 18446744073709551616. lia.
  - change (@word_modulus (sample_platform debug)) with 18446744073709551616.
    intros t Ht. destruct (Z.odd t) eqn:E; [|lia].
    assert (t <> 0) by (intros ->; discriminate E). lia.
  - intros t. destruct (Z.odd t) eqn:E; [|exact E].
    rewrite Z.odd_sub, E. reflexivity.
  - intros t. destruct (Z.odd t) eqn:E; [|reflexivity].
    apply Z.odd_spec in E. destruct E as [k ->].
    f_equal. Z.div_mod_to_equations. lia.
Defined.

(** Memory that holds the 8-byte words [ws] from [base] on, and 0 elsewhere. *)
Definition mem_of_words (base : Z) (ws : list Z) : mem :=
  fun x =>
    if (base <=? x) && (x <? base + 8 * Z.of_nat (length ws))
    then (nth (Z.to_nat ((x - base) / 8)) ws 0 / 256 ^ ((x - base) mod 8)) mod 256
    else 0.

(** An ordinary page at 0x40000 with three objects of 16 bytes: marked,
    unmarked, marked. *)
Definition sample_objects : list Z := [513; 512; 513].

Definition sample_page (ty : PageType) : HeapPage := {|
  object_start := 262208; object_end := 262256; type := ty;
  is_image_page := false; used_in_bytes := 0; next := NULL
|}.

(** A large page at 0x80000: a marked object of 32 bytes and a filler. *)
Definition sample_large_page : HeapPage := {|
  object_start := 524352; object_end := 524400; type := kData;
  is_image_page := false; used_in_bytes := 0; next := NULL
|}.

Definition sample_memory : mem :=
  fun x => if x <? 524288
           then mem_of_words 262208 [513; 7; 512; 8; 513; 9] x
           else mem_of_words 524352 [1025; 1; 2; 3; 512; 4] x.

Definition sample_world (ty : PageType) : World := {|
  memory := sample_memory;
  pages := fun q => if q =? 262144 then Some (sample_page ty)
                    else if q =? 524288 then Some sample_large_page
                    else None;
  freelist := [];
  mark_tests := [];
  tasks := 0;
  phase := kMarking;
  trace := []
|}.

(** An ordinary page of two objects, the unmarked one first. *)
Definition garbage_first_world : World := {|
  memory := mem_of_words 262208 [512; 7; 513; 8];
  pages := fun q => if q =? 262144
                    then Some {| object_start := 262208; object_end := 262240;
                                 type := kData; is_image_page := false;
                                 used_in_bytes := 0; next := NULL |}
                    else None;
  freelist := [];
  mark_tests := [];
  tasks := 0;
  phase := kMarking;
  trace := []
|}.


(** An ordinary page of four objects of 16 bytes: marked, unmarked,
    unmarked, marked. *)
Definition two_garbage_page : HeapPage := {|
  object_start := 262208; object_end := 262272; type := kData;
  is_image_page := false; used_in_bytes := 0; next := NULL
|}.

Definition two_garbage_world : World := {|
  memory := mem_of_words 262208 [513; 7; 512; 8; 512; 9; 513; 10];
  pages := fun q => if q =? 262144 then Some two_garbage_page else None;
  freelist := [];
  mark_tests := [];
  tasks := 0;
  phase := kMarking;
  trace := []
|}.

Definition sample_task : ConcurrentSweeperTask := {|
  task_isolate_ := 1; old_space_ := 2; first_ := 262144; last_ := 262144;
  large_first_ := 524288; large_last_ := 524288; freelist_ := 3
|}.

Definition sample_large_entry : LargeEntry := {|
  le_page := 524288; le_rec := sample_large_page; le_head := 1025; le_fillers := [512]
|}.

Definition sample_page_entry : PageEntry := {|
  pe_page := 262144; pe_rec := sample_page kData; pe_objects := sample_objects
|}.

(** What a run leaves, for the examples. *)
Definition events_of {A : Type} (o : Outcome World A) : option (list Event) :=
  match o with
  | Ret (_, w) => Some (trace w)
  | Stop _ _ => None
  end.

Definition mark_tests_of {A : Type} (o : Outcome World A) : option (list Z) :=
  match o with
  | Ret (_, w) => Some (mark_tests w)
  | Stop _ _ => None
  end.

Definition calls_of {A : Type} (o : Outcome World A) : option (list (bool * Z * Z)) :=
  match o with
  | Ret (_, w) => Some (map (fun c => (fl_locked c, fl_addr c, fl_size c)) (freelist w))
  | Stop _ _ => None
  end.


Definition value_of {A : Type} (o : Outcome World A) : option A :=
  match o with
  | Ret (a, _) => Some a
  | Stop _ _ => None
  end.

Ltac closed :=
  try match goal with |- DEBUG = true -> _ => intros _ end;
  vm_compute; first [reflexivity | discriminate | (intro; discriminate)].

Lemma sample_sweepable debug ty :
  @sweepable (sample_platform debug) (sample_world ty) 262144 (sample_page ty)
    sample_objects.
Proof.
  unfold sweepable, page_bounds, on_page. cbn [tiles sample_objects].
  repeat split; closed.
Defined.

Lemma sample_fuel ty :
  object_end (sample_page ty) - object_start (sample_page ty) + 2 <= Z.of_nat 64.
Proof. closed. Defined.

(** The scenario of the design document: the page of three objects yields
    32 used bytes, one call of [Free] for the 16 bytes of the middle object,
    and is in use. *)
Example three_objects_swept :
  value_of (@SweepPage (sample_platform false) 64 262144 false (sample_world kData))
  = Some true /\
  calls_of (@SweepPage (sample_platform false) 64 262144 false (sample_world kData))
  = Some [(false, 262224, 16)].
Proof. split; vm_compute; reflexivity. Qed.

(** ** The theorems at the sample heap *)

Lemma SweepPage_used_in_bytes_witness :
  option_map used_in_bytes
    (pages (@after_sweep (sample_platform true) (sample_world kData) 262144
              (sample_page kData) false sample_objects) 262144)
  = Some 32.
Proof.
  exact (proj2 (proj2 (@SweepPage_used_in_bytes (sample_platform true) (sample_ok true)
                         64 (sample_world kData) 262144 (sample_page kData) false
                         sample_objects (sample_sweepable true kData) (sample_fuel kData)))).
Defined.

Lemma sample_run_unmarked debug : Forall (@unmarked (sample_platform debug)) [512].
Proof. constructor; [reflexivity | constructor]. Defined.

Lemma sample_run_nonempty : [512] <> @nil Z.
Proof. discriminate. Defined.

Lemma two_garbage_sweepable debug :
  @sweepable (sample_platform debug) two_garbage_world 262144 two_garbage_page
    ([513] ++ [512; 512] ++ [513]).
Proof.
  unfold sweepable, page_bounds, on_page. cbn [tiles app].
  repeat split; closed.
Defined.

Lemma two_garbage_fuel :
  object_end two_garbage_page - object_start two_garbage_page + 2 <= Z.of_nat 128.
Proof. closed. Defined.

Lemma two_garbage_run_unmarked debug :
  Forall (@unmarked (sample_platform debug)) [512; 512].
Proof. constructor; [reflexivity | constructor; [reflexivity | constructor]]. Defined.

Lemma two_garbage_run_nonempty : [512; 512] <> @nil Z.
Proof. discriminate. Defined.

(** The two adjacent unmarked objects of 16 bytes at 0x40050 and 0x40060
    reach the free list as one range of 32 bytes. *)
Example two_garbage_objects_coalesced :
  calls_of (@SweepPage (sample_platform true) 128 262144 false two_garbage_world)
  = Some [(false, 262224, 32)].
Proof. vm_compute. reflexivity. Qed.

Lemma garbage_run_coalesced_witness :
  exists w' new,
    @SweepPage (sample_platform true) 128 262144 false two_garbage_world
    = Ret (true, w') /\
    freelist w' = new /\
    (forall c, In c new -> 262224 <= fl_addr c < 262256 ->
       fl_addr c = 262224 /\ fl_size c = 32) /\
    length (calls_in 262224 262256 new) = 1%nat.
Proof.
  destruct (@garbage_run_coalesced (sample_platform true) (sample_ok true)
              128 two_garbage_world 262144 two_garbage_page false
              [513] [512; 512] [513] (two_garbage_sweepable true) two_garbage_fuel
              two_garbage_run_nonempty (two_garbage_run_unmarked true) eq_refl eq_refl)
    as (w' & new & H1 & H2 & H3 & _ & H5).
  exists w', new. split; [exact H1|]. split; [exact H2|]. split; [exact H3|].
  apply H5. intros [E _]. discriminate E.
Defined.

Lemma whole_page_run_not_inserted_witness :
  exists w' new,
    @SweepPage (sample_platform true) 64 262144 false (sample_world kData)
    = Ret (true, w') /\
    freelist w' = new /\
    exists c, In c new /\ fl_addr c = 262224 /\ fl_size c = 16 /\ fl_locked c = false.
Proof.
  destruct (@whole_page_run_not_inserted (sample_platform true) (sample_ok true)
              64 (sample_world kData) 262144 (sample_page kData) false
              sample_objects (sample_sweepable true kData) (sample_fuel kData))
    as (w' & new & H1 & H2 & H3 & _).
  exists w', new. split; [exact H1|]. split; [exact H2|].
  apply (H3 [513] [512] [513] eq_refl sample_run_nonempty (sample_run_unmarked true)
            eq_refl eq_refl).
  intros [E _]. discriminate E.
Defined.


Lemma garbage_run_poisoned_witness :
  exists w' new,
    @SweepPage (sample_platform true) 64 262144 false (sample_world kExecutable)
    = Ret (true, w') /\
    freelist w' = new /\
    Forall (fun c => @filled (sample_platform true) (fl_memory c) (fl_addr c) (fl_size c))
      new /\
    @filled (sample_platform true) (memory w') 262224 16.
Proof.
  destruct (@garbage_run_poisoned (sample_platform true) (sample_ok true)
              64 (sample_world kExecutable) 262144 (sample_page kExecutable) false
              sample_objects (sample_sweepable true kExecutable) (sample_fuel kExecutable))
    as (w' & new & H1 & H2 & H3 & _).
  exists w', new. split; [exact H1|]. split; [exact H2|].
  destruct (H3 eq_refl) as [H4 H5]. split; [exact H4|].
  exact (H5 [513] 512 [513] eq_refl eq_refl).
Defined.

Lemma live_objects_untouched_witness :
  exists w' tests,
    @SweepPage (sample_platform true) 64 262144 false (sample_world kData)
    = Ret (true, w') /\
    mark_tests w' = tests /\
    count_occ Z.eq_dec tests 262240 = 2%nat /\
    count_occ Z.eq_dec tests 262208 = 1%nat.
Proof.
  destruct (@live_objects_untouched (sample_platform true) (sample_ok true)
              64 (sample_world kData) 262144 (sample_page kData) false
              sample_objects (sample_sweepable true kData) (sample_fuel kData))
    as (w' & tests & H1 & H2 & _ & H4).
  exists w', tests. split; [exact H1|]. split; [exact H2|]. split.
  - exact (proj2 (proj2 (H4 [513; 512] 513 [] eq_refl eq_refl))).
  - exact (proj2 (proj2 (H4 [] 513 [512; 513] eq_refl eq_refl))).
Defined.

Lemma scan_loop_terminates_witness :
  exists r,
    @sweep_loop (sample_platform true) 64 262144 false false 262208 262256
      {| current := 262208; used := 0 |} (sample_world kData) = Ret r.
Proof.
  exact (proj1 (@scan_loop_terminates (sample_platform true) (sample_ok true)
                  64 (sample_world kData) 262144 (sample_page kData) false
                  sample_objects (sample_sweepable true kData) (sample_fuel kData))).
Defined.

Lemma sample_large_sweepable debug ty :
  @large_sweepable (sample_platform debug) (sample_world ty) 524288 sample_large_page
    1025 [512].
Proof.
  unfold large_sweepable, page_bounds, on_page, unowned. cbn [tiles].
  repeat split; try closed.
  constructor; [reflexivity | constructor].
Defined.

Lemma sample_large_fuel :
  object_end sample_large_page - object_start sample_large_page + 1 <= Z.of_nat 64.
Proof. closed. Defined.

Lemma SweepLargePage_words_witness :
  exists w',
    @SweepLargePage (sample_platform true) 64 524288 (sample_world kData) = Ret (4, w').
Proof.
  destruct (@SweepLargePage_words (sample_platform true) (sample_ok true)
              64 (sample_world kData) 524288 sample_large_page 1025 [512]
              (sample_large_sweepable true kData) sample_large_fuel)
    as (words & w' & H1 & _ & H3).
  exists w'. destruct (H3 eq_refl) as [-> _]. exact H1.
Defined.

(** The sample heap after a task was constructed on it. *)
Definition sweeping_world : World :=
  with_phase kSweeping (with_tasks 1 (sample_world kData)).

Lemma sample_task_heap debug :
  @task_heap (sample_platform debug) (sample_world kData) sample_task 64
    [sample_large_entry] [sample_page_entry].
Proof.
  unfold task_heap.
  split; [|split; [|split; [|split; [|split; [|split; [|split; [|split; [|split]]]]]]]].
  - cbn. lia.
  - cbn. lia.
  - cbn [walk map le_page sample_large_entry sample_task large_last_ large_first_].
    repeat split; closed.
  - constructor; [|constructor]. unfold large_ready. split; [|split].
    + apply sample_large_sweepable.
    + closed.
    + closed.
  - constructor; constructor.
  - cbn [walk map pe_page sample_page_entry sample_task last_ first_].
    repeat split; closed.
  - constructor; [|constructor]. unfold page_ready. split; [|split].
    + apply sample_sweepable.
    + closed.
    + closed.
  - constructor; [intros [] | constructor].
  - constructor; constructor.
  - constructor; [|constructor]. constructor; [|constructor].
    right. closed.
Defined.

Lemma sample_tasks_nonneg : 0 <= tasks (sample_world kData).
Proof. closed. Defined.

Lemma sample_tasks_small debug :
  tasks (sample_world kData) + 1 < @word_modulus (sample_platform debug) / 2.
Proof. closed. Defined.

Lemma sweeper_task_phase_protocol_witness :
  exists t w1 w2,
    @ConcurrentSweeperTask_new (sample_platform true) 1 2 262144 262144 524288 524288 3
      (sample_world kData) = Ret (t, w1) /\
    tasks w1 = 1 /\ phase w1 = kSweeping /\
    @Run (sample_platform true) 64 t w1 = Ret (tt, w2) /\
    tasks w2 = 0 /\ phase w2 = kDone /\
    exists w3,
      @Run (sample_platform true) 64 t (with_phase kMarking w1)
      = Stop AssertionFailed w3 /\
      tasks w3 = 0 /\ phase w3 = kMarking.
Proof.
  destruct (@sweeper_task_phase_protocol (sample_platform true) (sample_ok true)
              1 2 262144 262144 524288 524288 3 64 (sample_world kData)
              [sample_large_entry] [sample_page_entry]
              ltac:(discriminate) ltac:(discriminate) ltac:(discriminate)
              ltac:(discriminate) ltac:(discriminate) (sample_task_heap true)
              sample_tasks_nonneg (sample_tasks_small true))
    as (t & w1 & w2 & body & H1 & _ & H3 & H4 & H5 & _ & _ & _ & H9 & H10 & H11).
  exists t, w1, w2.
  split; [exact H1|]. split; [exact H3|]. split; [exact H4|]. split; [exact H5|].
  split; [exact H9|]. split; [exact H10|].
  destruct (H11 kMarking ltac:(discriminate)) as (w3 & _ & T3 & P3 & R3).
  exists w3. split; [exact R3|]. split; [exact T3 | exact P3].
Defined.

Lemma sample_sweeping debug :
  @DEBUG (sample_platform debug) = true -> phase sweeping_world = kSweeping.
Proof. intros _. reflexivity. Defined.

Lemma notify_after_each_ordinary_page_witness :
  exists w',
    @Run (sample_platform true) 64 sample_task sweeping_world = Ret (tt, w') /\
    length (filter is_notify
              (@page_events (sample_platform true) NULL [sample_page_entry])) = 1%nat.
Proof.
  destruct (@notify_after_each_ordinary_page (sample_platform true) (sample_ok true)
              64 sample_task sweeping_world [sample_large_entry] [sample_page_entry]
              (sample_task_heap true) (sample_sweeping true))
    as (w' & H1 & _ & _ & _ & H5 & _).
  exists w'. split; [exact H1 | exact H5].
Defined.

(** ** Where the code does not do what the design document says *)

(** C8 as it is stated: the task sweeps the large page 0x80000 and goes on to
    the ordinary page 0x40000 with no Notify in between; the only Notify of
    the walk follows the ordinary page. *)
Lemma large_page_swept_without_notify :
  events_of (@Run (sample_platform false) 64 sample_task sweeping_world)
  = Some [EnterIsolateAsHelper;
          CallSweepLargePage 524288; CallTruncateLargePage 524288 32;
          CallSweepPage 262144; MonitorEnter; MonitorNotify; MonitorExit;
          ExitIsolateAsHelper;
          MonitorEnter; SetTasks 0; SetPhase kDone; MonitorNotifyAll; MonitorExit] /\
  option_map (notified_after_each_page false)
    (events_of (@Run (sample_platform false) 64 sample_task sweeping_world))
  = Some false.
Proof. split; vm_compute; reflexivity. Qed.

(** C9 as it is stated: on a page whose first object is unmarked and whose
    second object is marked, the mark bit of the second object is tested
    twice, by the loop that extends the free block and by the scan. *)
Lemma mark_bit_tested_twice :
  mark_tests_of (@SweepPage (sample_platform false) 64 262144 false garbage_first_world)
  = Some [262208; 262224; 262224] /\
  option_map (fun ts => count_occ Z.eq_dec ts 262224)
    (mark_tests_of (@SweepPage (sample_platform false) 64 262144 false garbage_first_world))
  <> Some 1%nat.
Proof. split; [vm_compute; reflexivity | vm_compute; discriminate]. Qed.


(** * Further properties of the sweeper *)

(** ** Definitions *)

Section MoreDefinitions.
Context {P : Platform}.

(** The world after [set_used_in_bytes page v]. *)
Definition with_used (page : Z) (p : HeapPage) (v : Z) (w : World) : World :=
  with_pages (pages_with (pages w) page (page_with_used p v)) w.

(** The world after the scan met one marked object at the start of the
    area: its mark is cleared, its mark bit was tested once. *)
Definition after_marked_object (p : HeapPage) (h : Z) (w : World) : World :=
  with_memory (store_word (memory w) (object_start p) (tags_clear_mark h))
    (with_mark_tests (mark_tests w ++ [object_start p]) w).

(** Total of the sizes of a list of free-list calls. *)
Definition freed_bytes (calls : list FreeListCall) : Z :=
  fold_right (fun c n => fl_size c + n) 0 calls.

(** Free ranges in increasing address order with a gap between any two. *)
Definition separated (calls : list FreeListCall) : Prop :=
  StronglySorted (fun c1 c2 => fl_addr c1 + fl_size c1 < fl_addr c2) calls.

(** The monitor discipline of a trace: the monitor is entered only when it
    is not held and left only when it is; the count, the phase and the
    waiters are touched only while it is held; pages are swept and handed
    to the old space only while it is not. *)
Fixpoint monitor_ok (held : bool) (es : list Event) : bool :=
  match es with
  | [] => negb held
  | e :: r =>
      match e with
      | MonitorEnter => negb held && monitor_ok true r
      | MonitorExit => held && monitor_ok false r
      | MonitorNotify | MonitorNotifyAll | SetTasks _ | SetPhase _ =>
          held && monitor_ok held r
      | CallSweepLargePage _ | CallSweepPage _ | CallFreeLargePage _ _
      | CallTruncateLargePage _ _ | CallFreePage _ _ =>
          negb held && monitor_ok held r
      | EnterIsolateAsHelper | ExitIsolateAsHelper => monitor_ok held r
      end
  end.

(** The attachment discipline of a trace: the task enters the isolate once,
    sweeps and hands over pages only while it is in it, and touches the
    count, the phase and wakes all waiters only after it has left it. *)
Inductive Attachment : Type := NotYet | Attached | Left.

Fixpoint isolate_ok (a : Attachment) (es : list Event) : bool :=
  match es with
  | [] => match a with Left => true | _ => false end
  | e :: r =>
      match e, a with
      | EnterIsolateAsHelper, NotYet => isolate_ok Attached r
      | ExitIsolateAsHelper, Attached => isolate_ok Left r
      | (CallSweepLargePage _ | CallSweepPage _ | CallFreeLargePage _ _
         | CallTruncateLargePage _ _ | CallFreePage _ _ | MonitorNotify), Attached =>
          isolate_ok a r
      | (SetTasks _ | SetPhase _ | MonitorNotifyAll), Left => isolate_ok a r
      | (MonitorEnter | MonitorExit), (Attached | Left) => isolate_ok a r
      | _, _ => false
      end
  end.

(** The page that the walk holds as [prev_page] after the large pages
    [pre]: the last one of them that was kept. *)
Definition kept_large (pre : list LargeEntry) : Z :=
  fold_left (fun prev e => if tags_marked (le_head e) then le_page e else prev) pre NULL.

(** The same for the ordinary pages. *)
Definition kept_page (pre : list PageEntry) : Z :=
  fold_left (fun prev e => if negb (live_bytes (pe_objects e) =? 0)
                           then pe_page e else prev) pre NULL.

End MoreDefinitions.

(** ** Edges of [SweepPage] *)

Section SweepPageEdges.
Context {P : Platform} {POK : PlatformOk P}.

(** X1.  When the object area of a page is empty, or its end is not after
    its start, the scan loop does nothing: [SweepPage] tests no mark, writes
    no byte, calls the free list for nothing, sets [used_in_bytes] to 0 and
    returns false.  A DEBUG build fails its assertion when the end differs
    from the start, with nothing changed. *)
Theorem SweepPage_empty_area fuel w page p locked :
  pages w page = Some p ->
  (DEBUG = true -> is_image_page p = false) ->
  object_end p <= object_start p ->
  (0 < fuel)%nat ->
  SweepPage fuel page locked w =
  if DEBUG && negb (object_start p =? object_end p)
  then Stop AssertionFailed w
  else Ret (false, with_used page p 0 w).
Proof.
  intros Hpg Himg Hle Hf. destruct fuel as [|fuel]; [lia|].
  unfold SweepPage. rewrite (load_page_runs _ _ _ _ _ Hpg).
  rewrite bind_ASSERT by (intro D; rewrite (Himg D); reflexivity).
  cbn [sweep_loop current].
  assert (E : (object_start p <? object_end p) = false) by (apply Z.ltb_ge; exact Hle).
  rewrite E, bind_ret. cbn [current used].
  unfold bind at 1, ASSERT.
  destruct (DEBUG && negb (object_start p =? object_end p)); [reflexivity|].
  unfold ret at 1. unfold bind, set_used_in_bytes, ret, with_used.
  rewrite Hpg. reflexivity.
Qed.

(** X2.  When the object at the start of the area is marked and larger than
    the area, the scan steps over the end.  A DEBUG build fails the
    assertion [current == end], the mark of the object cleared and
    [used_in_bytes] not set; a release build does not notice: it clears the
    mark, records the size of the object as [used_in_bytes], more than the
    area holds, and returns true. *)
Theorem SweepPage_overshoot fuel w page p locked h :
  pages w page = Some p ->
  (DEBUG = true -> is_image_page p = false) ->
  on_page page (object_start p) ->
  load_word (memory w) (object_start p) = h ->
  tags_marked h = true ->
  0 <= object_start p < object_end p ->
  object_end p < object_start p + tags_size h ->
  object_start p + tags_size h < word_modulus ->
  tags_size h < word_modulus / 2 ->
  (2 <= fuel)%nat ->
  SweepPage fuel page locked w =
  if DEBUG then Stop AssertionFailed (after_marked_object p h w)
  else Ret (true, with_used page p (tags_size h) (after_marked_object p h w)).
Proof.
  intros Hpg Himg Hown Hl Hm Hb Hover Hw Hs Hf.
  pose proof word_modulus_even as Hev.
  destruct fuel as [|[|fuel]]; [lia | lia |].
  unfold SweepPage. rewrite (load_page_runs _ _ _ _ _ Hpg).
  rewrite bind_ASSERT by (intro D; rewrite (Himg D); reflexivity).
  assert (Hloop : sweep_loop (S (S fuel)) page (PageType_eqb (type p) kExecutable) locked
                    (object_start p) (object_end p)
                    {| current := object_start p; used := 0 |} w
                  = Ret ({| current := object_start p + tags_size h; used := tags_size h |},
                         after_marked_object p h w)).
  { cbn [sweep_loop current].
    assert (E : (object_start p <? object_end p) = true) by (apply Z.ltb_lt; lia).
    rewrite E. unfold sweep_object at 1. cbn [current used].
    rewrite bind_assoc.
    rewrite bind_ASSERT
      by (intro D; unfold HeapPage_Of; cbn [ToAddr]; apply Z.eqb_eq; exact (Hown D)).
    rewrite bind_assoc, bind_IsMarked, Hl, Hm.
    rewrite !bind_assoc, bind_ClearMarkBit, !bind_assoc, bind_HeapSize.
    cbn [memory with_memory with_mark_tests]. rewrite Hl.
    rewrite load_store_word
      by (apply clear_mark_word; rewrite <- Hl; apply load_word_range).
    rewrite clear_mark_size, bind_ret.
    rewrite uword_small, intptr_small by lia.
    cbn [current].
    assert (E2 : (object_start p + tags_size h <? object_end p) = false)
      by (apply Z.ltb_ge; lia).
    rewrite E2. reflexivity. }
  rewrite (@bind_returns _ _ _ _ _ _ _ Hloop). cbn [current used].
  assert (E3 : (object_start p + tags_size h =? object_end p) = false)
    by (apply Z.eqb_neq; lia).
  rewrite E3. unfold bind at 1, ASSERT. destruct DEBUG; cbn [andb negb]; [reflexivity|].
  unfold ret at 1. unfold bind, set_used_in_bytes, ret, with_used.
  cbn [pages after_marked_object with_memory with_mark_tests]. rewrite Hpg.
  assert (E4 : (tags_size h =? 0) = false) by (apply Z.eqb_neq; lia).
  rewrite E4. reflexivity.
Qed.

Lemma extend_free_block_spins end_ a h : forall fuel w,
  load_word (memory w) a = h -> tags_marked h = false -> tags_size h = 0 ->
  0 <= a < word_modulus -> a < end_ ->
  exists w', extend_free_block fuel a end_ w = Stop OutOfFuel w' /\
             pages w' = pages w /\ freelist w' = freelist w.
Proof.
  induction fuel as [|fuel IH]; intros w Hl Hm Hs Ha Hlt.
  { exists w. repeat split. }
  cbn [extend_free_block].
  assert (E : (a <? end_) = true) by (apply Z.ltb_lt; exact Hlt).
  rewrite E, bind_IsMarked, Hl, Hm, bind_HeapSize.
  cbn [memory with_mark_tests]. rewrite Hl, Hs, Z.add_0_r.
  rewrite uword_small by exact Ha.
  destruct (IH (with_mark_tests (mark_tests w ++ [a]) w) Hl Hm Hs Ha Hlt)
    as (w' & Hrun & Hpg & Hfl).
  exists w'. split; [exact Hrun|]. split; [exact Hpg | exact Hfl].
Qed.

Lemma sweep_object_spins fuel page exec locked start end_ s h w :
  on_page page (current s) ->
  load_word (memory w) (current s) = h -> tags_marked h = false -> tags_size h = 0 ->
  0 <= current s < word_modulus -> current s < end_ ->
  exists w', sweep_object fuel page exec locked start end_ s w = Stop OutOfFuel w' /\
             pages w' = pages w /\ freelist w' = freelist w.
Proof.
  intros Hown Hl Hm Hs Ha Hlt. unfold sweep_object.
  rewrite bind_ASSERT
    by (intro D; unfold HeapPage_Of; cbn [ToAddr]; apply Z.eqb_eq; exact (Hown D)).
  rewrite bind_IsMarked, Hl, Hm, bind_HeapSize.
  cbn [memory with_mark_tests]. rewrite Hl, Hs, Z.add_0_r.
  rewrite uword_small by exact Ha.
  unfold bind at 1.
  destruct (extend_free_block_spins end_ (current s) h fuel
              (with_mark_tests (mark_tests w ++ [current s]) w) Hl Hm Hs Ha Hlt)
    as (w' & Hrun & Hpg & Hfl).
  rewrite Hrun. exists w'. split; [reflexivity|]. split; [exact Hpg | exact Hfl].
Qed.

(** X3.  An object of size 0 at the start of a non-empty object area stops
    the sweep for good: the scan position cannot move past it, and whatever
    the fuel, [SweepPage] never returns; it has then handed nothing to the
    free list and has not set [used_in_bytes]. *)
Theorem SweepPage_zero_size_hangs fuel w page p locked h :
  pages w page = Some p ->
  (DEBUG = true -> is_image_page p = false) ->
  on_page page (object_start p) ->
  load_word (memory w) (object_start p) = h ->
  tags_size h = 0 ->
  0 <= object_start p < object_end p ->
  object_end p <= word_modulus ->
  exists w', SweepPage fuel page locked w = Stop OutOfFuel w' /\
             pages w' = pages w /\ freelist w' = freelist w.
Proof.
  intros Hpg Himg Hown Hl Hs Hb Hw. pose proof word_modulus_even as Hev.
  pose proof kWordSize_pos as Hws. pose proof word_modulus_pos as Hwp.
  unfold SweepPage. rewrite (load_page_runs _ _ _ _ _ Hpg).
  rewrite bind_ASSERT by (intro D; rewrite (Himg D); reflexivity).
  assert (Hloop : exists w',
            sweep_loop fuel page (PageType_eqb (type p) kExecutable) locked
              (object_start p) (object_end p)
              {| current := object_start p; used := 0 |} w
            = Stop OutOfFuel w' /\ pages w' = pages w /\ freelist w' = freelist w).
  { destruct fuel as [|fuel]; [exists w; repeat split|]. cbn [sweep_loop current].
    assert (E : (object_start p <? object_end p) = true) by (apply Z.ltb_lt; lia).
    rewrite E. destruct (tags_marked h) eqn:Hm.
    - (* marked: the mark is cleared, the position stays *)
      assert (Hstep : sweep_object fuel page (PageType_eqb (type p) kExecutable) locked
                        (object_start p) (object_end p)
                        {| current := object_start p; used := 0 |} w
                      = Ret ({| current := object_start p; used := 0 |},
                             after_marked_object p h w)).
      { unfold sweep_object. cbn [current used].
        rewrite bind_ASSERT
          by (intro D; unfold HeapPage_Of; cbn [ToAddr]; apply Z.eqb_eq; exact (Hown D)).
        rewrite bind_IsMarked, Hl, Hm, bind_ClearMarkBit, bind_HeapSize.
        cbn [memory with_memory with_mark_tests]. rewrite Hl.
        rewrite load_store_word
          by (apply clear_mark_word; rewrite <- Hl; apply load_word_range).
        rewrite clear_mark_size, Hs, Z.add_0_r.
        rewrite uword_small, intptr_small by lia. reflexivity. }
      rewrite (@bind_returns _ _ _ _ _ _ _ Hstep).
      destruct fuel as [|fuel]; [eexists; repeat split|].
      cbn [sweep_loop current]. rewrite E. unfold bind.
      destruct (sweep_object_spins fuel page (PageType_eqb (type p) kExecutable) locked
                  (object_start p) (object_end p)
                  {| current := object_start p; used := 0 |} (tags_clear_mark h)
                  (after_marked_object p h w))
        as (w' & Hrun & Hpg' & Hfl'); cbn [current]; try assumption; try lia.
      + unfold after_marked_object. cbn [memory with_memory].
        apply load_store_word. apply clear_mark_word. rewrite <- Hl. apply load_word_range.
      + apply clear_mark_unmarked.
      + rewrite clear_mark_size. exact Hs.
      + rewrite Hrun. exists w'. split; [reflexivity|].
        split; [exact Hpg' | exact Hfl'].
    - unfold bind.
      destruct (sweep_object_spins fuel page (PageType_eqb (type p) kExecutable) locked
                  (object_start p) (object_end p)
                  {| current := object_start p; used := 0 |} h w)
        as (w' & Hrun & Hpg' & Hfl'); cbn [current]; try assumption; try lia.
      rewrite Hrun. exists w'. split; [reflexivity|].
      split; [exact Hpg' | exact Hfl']. }
  destruct Hloop as (w' & Hloop & Hpg' & Hfl').
  unfold bind. rewrite Hloop. exists w'. split; [reflexivity|].
  split; [exact Hpg' | exact Hfl'].
Qed.

End SweepPageEdges.

(** ** Edges of [SweepLargePage] *)

Section LargePageEdges.
Context {P : Platform} {POK : PlatformOk P}.

(** X4.  In a release build [SweepLargePage] reads the header of the first
    object of the page and nothing else: whatever lies behind that object,
    it returns 0 if the object is unmarked, and clears the mark and returns
    the size shifted down to words if it is marked.  It needs no fuel. *)
Theorem SweepLargePage_release fuel w page p :
  DEBUG = false ->
  pages w page = Some p ->
  SweepLargePage fuel page w =
  let h := load_word (memory w) (object_start p) in
  Ret (large_page_words h,
       if tags_marked h then after_marked_object p h w
       else with_mark_tests (mark_tests w ++ [object_start p]) w).
Proof.
  intros Hd Hpg. unfold SweepLargePage, ASSERT. rewrite Hd. cbn [andb].
  rewrite (load_page_runs _ _ _ _ _ Hpg), !bind_ret.
  rewrite bind_IsMarked.
  cbv zeta. unfold large_page_words.
  destruct (tags_marked (load_word (memory w) (object_start p))) eqn:Hm.
  - rewrite !bind_assoc, bind_ClearMarkBit, !bind_assoc, bind_HeapSize.
    cbn [memory with_memory with_mark_tests].
    rewrite load_store_word by (apply clear_mark_word; apply load_word_range).
    rewrite clear_mark_size, !bind_ret. reflexivity.
  - rewrite !bind_ret. reflexivity.
Qed.

(** X5.  In a DEBUG build a marked filler object behind the first object of
    a large page fails the assertion of the loop over the fillers: the mark
    bits of the first object and of the filler were tested, the mark of the
    first object was cleared if it was set, and nothing was zapped. *)
Theorem SweepLargePage_marked_filler fuel w page p h f :
  DEBUG = true ->
  pages w page = Some p ->
  is_image_page p = false ->
  page_of_addr (object_start p) = page ->
  load_word (memory w) (object_start p) = h ->
  kWordSize <= tags_size h ->
  0 <= object_start p ->
  object_start p + tags_size h < object_end p ->
  object_end p < word_modulus ->
  load_word (memory w) (object_start p + tags_size h) = f ->
  tags_marked f = true ->
  (0 < fuel)%nat ->
  SweepLargePage fuel page w =
  Stop AssertionFailed
    (with_mark_tests
       (mark_tests w ++ [object_start p; object_start p + tags_size h])
       (with_memory
          (if tags_marked h
           then store_word (memory w) (object_start p) (tags_clear_mark h)
           else memory w) w)).
Proof.
  intros Hd Hpg Himg Hown Hl Hsz H0 Hlt Hw Hf Hm Hfuel.
  pose proof kWordSize_pos as Hws.
  destruct fuel as [|fuel]; [lia|].
  unfold SweepLargePage. rewrite (load_page_runs _ _ _ _ _ Hpg).
  rewrite bind_ASSERT by (intros _; rewrite Himg; reflexivity).
  rewrite bind_ASSERT
    by (intros _; unfold HeapPage_Of; cbn [ToAddr]; apply Z.eqb_eq; exact Hown).
  rewrite Hd, bind_IsMarked, Hl.
  assert (Hzap : forall m1 ts,
            load_word m1 (object_start p) = (if tags_marked h then tags_clear_mark h else h) ->
            (forall x, object_start p + kWordSize <= x -> m1 x = memory w x) ->
            (size <- HeapSize (FromAddr (object_start p)) ;;
             zap_fillers (S fuel) (uword (ToAddr (FromAddr (object_start p)) + size))
               (object_end p))
              (with_mark_tests ts (with_memory m1 w))
            = Stop AssertionFailed
                (with_mark_tests (ts ++ [object_start p + tags_size h])
                   (with_memory m1 w))).
  { intros m1 ts Hh Hfr.
    rewrite bind_HeapSize. cbn [memory with_memory with_mark_tests ToAddr].
    rewrite Hh.
    assert (Hsz' : tags_size (if tags_marked h then tags_clear_mark h else h) = tags_size h)
      by (destruct (tags_marked h); [apply clear_mark_size | reflexivity]).
    rewrite Hsz', uword_small by lia.
    cbn [zap_fillers].
    assert (E : (object_start p + tags_size h <? object_end p) = true)
      by (apply Z.ltb_lt; exact Hlt).
    rewrite E, bind_IsMarked. cbn [memory with_memory with_mark_tests].
    rewrite (load_word_ext (memory w)) by (intros x Hx; apply Hfr; lia).
    rewrite Hf, Hm. unfold bind at 1, ASSERT. rewrite Hd. reflexivity. }
  destruct (tags_marked h) eqn:Hmh.
  - rewrite !bind_assoc, bind_ClearMarkBit, !bind_assoc, bind_HeapSize.
    cbn [memory with_memory with_mark_tests]. rewrite Hl.
    rewrite load_store_word
      by (apply clear_mark_word; rewrite <- Hl; apply load_word_range).
    rewrite clear_mark_size, bind_ret.
    unfold bind at 1.
    match goal with
    | |- context [bind (HeapSize _) _ ?w1] =>
        change w1 with (with_mark_tests (mark_tests w ++ [object_start p])
                          (with_memory (store_word (memory w) (object_start p)
                                          (tags_clear_mark h)) w))
    end.
    rewrite Hzap; [rewrite <- app_assoc; reflexivity | |].
    + apply load_store_word. apply clear_mark_word. rewrite <- Hl. apply load_word_range.
    + intros x Hx. apply store_word_other. lia.
  - rewrite bind_ret. unfold bind at 1.
    match goal with
    | |- context [bind (HeapSize _) _ ?w1] =>
        change w1 with (with_mark_tests (mark_tests w ++ [object_start p])
                          (with_memory (memory w) w))
    end.
    rewrite Hzap; [rewrite <- app_assoc; reflexivity | exact Hl | reflexivity].
Qed.

End LargePageEdges.

(** ** The free ranges of one sweep *)

Section FreeRanges.
Context {P : Platform} {POK : PlatformOk P}.
Variables (is_executable locked : bool) (start end_ : Z).

Notation close := (close_run is_executable locked start end_).
Notation header := (sweep_header is_executable locked start end_).
Notation reference := (reference_sweep is_executable locked start end_).

(** A call for a word-aligned range that begins at or after [lo] and ends
    before [hi]. *)
Definition call_within (lo hi : Z) (c : FreeListCall) : Prop :=
  lo <= fl_addr c /\ 0 < fl_size c /\ fl_addr c + fl_size c < hi /\
  fl_size c mod kWordSize = 0 /\ fl_locked c = locked.

Lemma freed_bytes_app l1 l2 : freed_bytes (l1 ++ l2) = freed_bytes l1 + freed_bytes l2.
Proof.
  induction l1 as [|c l IH]; [reflexivity|].
  cbn [app freed_bytes fold_right] in *. fold (freed_bytes (l ++ l2)). fold (freed_bytes l).
  rewrite IH. lia.
Qed.

Lemma separated_app l1 l2 lo mid :
  separated l1 -> separated l2 ->
  Forall (call_within lo mid) l1 ->
  Forall (fun c => mid <= fl_addr c) l2 ->
  separated (l1 ++ l2).
Proof.
  unfold separated. intros S1 S2 F1 F2.
  induction S1 as [|c l S1 IH Hc]; [exact S2|].
  cbn [app]. constructor.
  - apply IH. exact (Forall_inv_tail F1).
  - apply Forall_app. split; [exact Hc|].
    destruct (Forall_inv F1) as (_ & _ & He & _).
    eapply Forall_impl; [|exact F2]. intros c2 H2. cbn beta in H2. lia.
Qed.

Lemma header_step_calls s h :
  pending_ok s -> 0 < tags_size h -> sw_pos s + tags_size h <= end_ ->
  exists new,
    sw_calls (header s h) = sw_calls s ++ new /\
    separated new /\
    Forall (call_within (run_start s) (run_start (header s h))) new /\
    freed_bytes new + (sw_used (header s h) - sw_used s)
      + (sw_pos (header s h) - run_start (header s h))
    = sw_pos (header s h) - run_start s.
Proof.
  intros Hok Hp Hfit.
  rewrite (header_run_start _ _ _ _ s h Hok), header_pos.
  unfold sweep_header. destruct (tags_marked h) eqn:Hm; cbn [sw_calls sw_used].
  - unfold close_run, run_start, pending_ok in *.
    destruct (sw_pending s) as [a|]; cbn [sw_calls].
    + assert (E : negb (a =? start) || negb (sw_pos s =? end_) = true).
      { apply orb_true_iff. right. apply negb_true_iff, Z.eqb_neq. lia. }
      rewrite E. eexists. split; [reflexivity|]. split; [|split].
      * constructor; constructor.
      * constructor; [|constructor]. unfold call_within.
        cbn [fl_addr fl_size fl_locked]. repeat split; try lia; try tauto.
      * cbn [freed_bytes fold_right fl_size]. lia.
    + exists []. rewrite app_nil_r. split; [reflexivity|]. split; [constructor|].
      split; [constructor|]. cbn [freed_bytes fold_right]. lia.
  - exists []. rewrite app_nil_r. split; [reflexivity|]. split; [constructor|].
    split; [constructor|]. cbn [freed_bytes fold_right]. lia.
Qed.

Lemma fold_calls_separated hs : forall s,
  sized hs -> pending_ok s -> 0 <= run_start s ->
  sw_pos s + extent hs <= end_ -> end_ < word_modulus ->
  exists new,
    sw_calls (fold_left header hs s) = sw_calls s ++ new /\
    separated new /\
    Forall (call_within (run_start s) (run_start (fold_left header hs s))) new /\
    freed_bytes new + (sw_used (fold_left header hs s) - sw_used s)
      + (sw_pos (fold_left header hs s) - run_start (fold_left header hs s))
    = sw_pos (fold_left header hs s) - run_start s.
Proof.
  induction hs as [|h l IH]; intros s Hs Hok Ha Hb Hw; cbn [fold_left].
  - exists []. rewrite app_nil_r. split; [reflexivity|]. split; [constructor|].
    split; [constructor|]. cbn [freed_bytes fold_right]. lia.
  - pose proof (Forall_inv Hs) as [Hp Hal].
    pose proof (Forall_inv_tail Hs) as Hsl.
    pose proof (sized_extent_nonneg _ Hsl) as Hnn.
    pose proof (run_start_le _ Hok) as Hle.
    rewrite extent_cons in Hb.
    pose proof (header_pending_ok is_executable locked start end_ _ _ Hok Hp Hal) as Hok1.
    pose proof (header_run_start is_executable locked start end_ s h Hok) as Hrs.
    pose proof (header_pos is_executable locked start end_ s h) as Hpos.
    assert (Hmono : run_start s <= run_start (header s h))
      by (rewrite Hrs; destruct (tags_marked h); lia).
    destruct (header_step_calls s h Hok Hp ltac:(lia)) as (new0 & Hc0 & S0 & F0 & A0).
    destruct (fold_calls is_executable locked start end_ l (header s h) Hsl Hok1)
      as (_ & Hmono1 & _); [lia | rewrite Hpos; lia |].
    destruct (IH (header s h) Hsl Hok1) as (new1 & Hc1 & S1 & F1 & A1);
      [lia | rewrite Hpos; lia | exact Hw |].
    exists (new0 ++ new1). split; [|split; [|split]].
    + rewrite Hc1, Hc0, app_assoc. reflexivity.
    + apply separated_app with (lo := run_start s) (mid := run_start (header s h));
        try assumption.
      eapply Forall_impl; [|exact F1]. intros c Hc. apply Hc.
    + apply Forall_app. split.
      * eapply Forall_impl; [|exact F0]. unfold call_within. intros c Hc. intuition lia.
      * eapply Forall_impl; [|exact F1]. unfold call_within. intros c Hc. intuition lia.
    + rewrite freed_bytes_app. lia.
Qed.

Lemma freed_bytes_nonneg lo hi new : Forall (call_within lo hi) new -> 0 <= freed_bytes new.
Proof.
  induction 1 as [|c l (_ & Hp & _) _ IH]; [cbn; lia|].
  cbn [freed_bytes fold_right]. fold (freed_bytes l). lia.
Qed.

(** The calls of a whole sweep, from a state in which no run is open. *)
Lemma reference_calls_separated hs s :
  sized hs -> sw_pending s = None -> sw_pos s = start -> 0 <= start ->
  start + extent hs = end_ -> end_ < word_modulus -> 0 <= sw_used s ->
  exists new,
    sw_calls (reference hs s) = sw_calls s ++ new /\
    separated new /\
    Forall (call_within start (end_ + 1)) new /\
    (live_bytes hs <> 0 -> freed_bytes new + live_bytes hs = end_ - start).
Proof.
  intros Hs Hp0 Hpos0 Hst He Hw Hu.
  assert (Hok0 : pending_ok s) by (unfold pending_ok; rewrite Hp0; exact I).
  assert (Hrs0 : run_start s = start) by (unfold run_start; rewrite Hp0; exact Hpos0).
  destruct (fold_calls_separated hs s Hs Hok0) as (new & Hc & Sn & Fn & An);
    [lia | lia | exact Hw |].
  destruct (fold_calls is_executable locked start end_ hs s Hs Hok0)
    as (Hok' & Hmono & _); [lia | lia |].
  pose proof (run_start_le _ Hok') as Hle'.
  rewrite fold_header_pos, fold_header_used in *. rewrite Hrs0, Hpos0, He in *.
  pose proof (live_bytes_bounds _ Hs) as Hlb.
  pose proof (freed_bytes_nonneg _ _ _ Fn) as Hfn.
  unfold reference_sweep, close_run.
  unfold pending_ok, run_start in *.
  rewrite fold_header_pos, Hpos0, He in *.
  destruct (sw_pending (fold_left header hs s)) as [a|] eqn:Ep; cbn [sw_calls].
  - destruct (negb (a =? start) || negb (end_ =? end_)) eqn:Ec.
    + eexists. split; [rewrite Hc, <- app_assoc; reflexivity|].
      split; [|split].
      * apply separated_app with (lo := start) (mid := a);
          [exact Sn | constructor; constructor | exact Fn |].
        constructor; [cbn [fl_addr]; lia | constructor].
      * apply Forall_app. split.
        -- eapply Forall_impl; [|exact Fn]. unfold call_within. intros c Hc'. intuition lia.
        -- constructor; [|constructor]. unfold call_within.
           cbn [fl_addr fl_size fl_locked]. repeat split; try lia; try tauto.
      * intros _. rewrite freed_bytes_app. cbn [freed_bytes fold_right fl_size]. lia.
    + exists new. split; [exact Hc|]. split; [exact Sn|]. split.
      * eapply Forall_impl; [|exact Fn]. unfold call_within. intros c Hc'. intuition lia.
      * intros Hlive. exfalso.
        rewrite Z.eqb_refl in Ec. cbn [negb] in Ec. rewrite orb_false_r in Ec.
        apply negb_false_iff, Z.eqb_eq in Ec. subst a. lia.
  - exists new. split; [exact Hc|]. split; [exact Sn|]. split.
    + eapply Forall_impl; [|exact Fn]. unfold call_within. intros c Hc'. intuition lia.
    + intros _. lia.
Qed.

End FreeRanges.

(** ** More on the sweep of an ordinary page *)

Section SweepPageMore.
Context {P : Platform} {POK : PlatformOk P}.

Lemma live_bytes_marked hs :
  sized hs -> (live_bytes hs <> 0 <-> Exists (fun h => tags_marked h = true) hs).
Proof.
  induction 1 as [|h l [Hp _] Hs IH].
  - split; [intros H; exfalso; apply H; reflexivity | intros H; inversion H].
  - pose proof (live_bytes_bounds _ Hs) as Hb.
    rewrite live_bytes_cons. destruct (tags_marked h) eqn:Hm.
    + split; [intros _; left; exact Hm | intros _; lia].
    + rewrite IH. split; [intros H; right; exact H|].
      intros H. inversion H; subst; [congruence | assumption].
Qed.

Lemma reference_tests_span exec locked start end_ hs : forall s,
  exists new,
    sw_tests (reference_sweep exec locked start end_ hs s) = sw_tests s ++ new /\
    (forall x, In x new -> In x (addresses (sw_pos s) hs)) /\
    (length hs <= length new <= 2 * length hs)%nat.
Proof.
  induction hs as [|h l IH]; intros s.
  - exists []. unfold reference_sweep. cbn [fold_left].
    rewrite close_tests, app_nil_r. split; [reflexivity|].
    split; [intros x [] | cbn; lia].
  - change (reference_sweep exec locked start end_ (h :: l) s)
      with (reference_sweep exec locked start end_ l (sweep_header exec locked start end_ s h)).
    destruct (IH (sweep_header exec locked start end_ s h)) as (new1 & T1 & T2 & T3).
    rewrite header_pos in T2.
    set (t0 := if tags_marked h
               then match sw_pending s with
                    | Some _ => [sw_pos s; sw_pos s]
                    | None => [sw_pos s]
                    end
               else [sw_pos s]).
    assert (Ht0 : sw_tests (sweep_header exec locked start end_ s h) = sw_tests s ++ t0).
    { unfold sweep_header, t0. destruct (tags_marked h); reflexivity. }
    assert (Hin0 : forall x, In x t0 -> x = sw_pos s).
    { unfold t0. intros x. destruct (tags_marked h); [destruct (sw_pending s)|];
        cbn; intuition congruence. }
    assert (Hlen0 : (1 <= length t0 <= 2)%nat).
    { unfold t0. destruct (tags_marked h); [destruct (sw_pending s)|]; cbn; lia. }
    exists (t0 ++ new1). split; [|split].
    + rewrite T1, Ht0, app_assoc. reflexivity.
    + intros x Hx. cbn [addresses]. apply in_app_or in Hx. destruct Hx as [Hx|Hx].
      * left. symmetry. apply Hin0. exact Hx.
      * right. apply T2. exact Hx.
    + rewrite length_app. cbn [length]. lia.
Qed.

(** X6.  The ranges that one sweep of a page hands to the free list lie in
    the object area, have positive word-aligned sizes, come in increasing
    address order with a gap between any two, and all go through [FreeLocked]
    if [locked] and through [Free] if not. *)
Theorem free_ranges_separated fuel w page p locked hs :
  sweepable w page p hs ->
  object_end p - object_start p + 2 <= Z.of_nat fuel ->
  exists w' new,
    SweepPage fuel page locked w = Ret (negb (live_bytes hs =? 0), w') /\
    freelist w' = freelist w ++ new /\
    separated new /\
    Forall (fun c => object_start p <= fl_addr c /\ 0 < fl_size c /\
                     fl_addr c + fl_size c <= object_end p /\
                     fl_size c mod kWordSize = 0 /\ fl_locked c = locked) new.
Proof.
  intros Hsw Hf.
  destruct (page_facts w page p hs Hsw) as (Hs & _ & He & Hst & Hew & _).
  destruct (reference_calls_separated (PageType_eqb (type p) kExecutable) locked
              (object_start p) (object_end p) hs (initial_sweep p w) Hs
              eq_refl eq_refl Hst He Hew ltac:(cbn; lia))
    as (new & Hc & Sn & Fn & _).
  exists (after_sweep w page p locked hs), new.
  split; [apply SweepPage_result; assumption|]. split; [exact Hc|].
  split; [exact Sn|].
  eapply Forall_impl; [|exact Fn]. unfold call_within. intros c Hc'. intuition lia.
Qed.

(** X7.  On a page with a marked object every byte of the object area is
    accounted for: the sizes of the ranges handed to the free list and the
    bytes recorded as used add up to the size of the area. *)
Theorem swept_bytes_accounted fuel w page p locked hs :
  sweepable w page p hs ->
  object_end p - object_start p + 2 <= Z.of_nat fuel ->
  Exists (fun h => tags_marked h = true) hs ->
  exists w' new,
    SweepPage fuel page locked w = Ret (true, w') /\
    freelist w' = freelist w ++ new /\
    option_map (fun p' => freed_bytes new + used_in_bytes p') (pages w' page)
    = Some (object_end p - object_start p).
Proof.
  intros Hsw Hf Hex.
  destruct (page_facts w page p hs Hsw) as (Hs & _ & He & Hst & Hew & _).
  assert (Hlive : live_bytes hs <> 0) by (apply live_bytes_marked; assumption).
  destruct (reference_calls_separated (PageType_eqb (type p) kExecutable) locked
              (object_start p) (object_end p) hs (initial_sweep p w) Hs
              eq_refl eq_refl Hst He Hew ltac:(cbn; lia))
    as (new & Hc & _ & _ & Ha).
  exists (after_sweep w page p locked hs), new.
  split.
  - rewrite (SweepPage_result fuel w page p locked hs Hsw Hf).
    apply Z.eqb_neq in Hlive. rewrite Hlive. reflexivity.
  - split; [exact Hc|].
    unfold after_sweep, pages_with. cbn [pages with_pages].
    rewrite Z.eqb_refl. cbn [option_map page_with_used used_in_bytes].
    rewrite (Ha Hlive). reflexivity.
Qed.

(** X8.  [SweepPage] returns true exactly when some object of the page is
    marked, and the [used_in_bytes] it records is between 0 and the size of
    the object area. *)
Theorem SweepPage_in_use_iff_marked fuel w page p locked hs :
  sweepable w page p hs ->
  object_end p - object_start p + 2 <= Z.of_nat fuel ->
  exists in_use w' p',
    SweepPage fuel page locked w = Ret (in_use, w') /\
    pages w' page = Some p' /\
    (in_use = true <-> Exists (fun h => tags_marked h = true) hs) /\
    0 <= used_in_bytes p' <= object_end p - object_start p.
Proof.
  intros Hsw Hf.
  destruct (page_facts w page p hs Hsw) as (Hs & _ & He & _).
  pose proof (live_bytes_bounds _ Hs) as Hb.
  exists (negb (live_bytes hs =? 0)), (after_sweep w page p locked hs),
         (page_with_used p (live_bytes hs)).
  split; [apply SweepPage_result; assumption|]. split.
  - unfold after_sweep, pages_with. cbn [pages with_pages]. rewrite Z.eqb_refl. reflexivity.
  - split.
    + rewrite <- (live_bytes_marked hs Hs), negb_true_iff, Z.eqb_neq. tauto.
    + cbn [page_with_used used_in_bytes]. lia.
Qed.

(** X9.  [SweepPage] leaves the count of tasks, the phase, the trace and the
    other pages alone, and of its own page it changes [used_in_bytes] and no
    other field. *)
Theorem SweepPage_frame fuel w page p locked hs :
  sweepable w page p hs ->
  object_end p - object_start p + 2 <= Z.of_nat fuel ->
  exists in_use w' p',
    SweepPage fuel page locked w = Ret (in_use, w') /\
    pages w' page = Some p' /\
    object_start p' = object_start p /\ object_end p' = object_end p /\
    type p' = type p /\ is_image_page p' = is_image_page p /\ next p' = next p /\
    (forall q, q <> page -> pages w' q = pages w q) /\
    tasks w' = tasks w /\ phase w' = phase w /\ trace w' = trace w.
Proof.
  intros Hsw Hf.
  exists (negb (live_bytes hs =? 0)), (after_sweep w page p locked hs),
         (page_with_used p (live_bytes hs)).
  split; [apply SweepPage_result; assumption|].
  unfold after_sweep, pages_with. cbn [pages with_pages]. rewrite Z.eqb_refl.
  repeat split.
  intros q Hq. apply Z.eqb_neq in Hq. rewrite Hq. reflexivity.
Qed.

(** X10.  [SweepPage] tests mark bits at the addresses of the objects of the
    page only; it tests every unmarked object once, and the number of its
    tests is at least the number of objects and at most twice that number. *)
Theorem mark_tests_at_objects fuel w page p locked hs :
  sweepable w page p hs ->
  object_end p - object_start p + 2 <= Z.of_nat fuel ->
  exists w' tests,
    SweepPage fuel page locked w = Ret (negb (live_bytes hs =? 0), w') /\
    mark_tests w' = mark_tests w ++ tests /\
    (forall x, In x tests -> In x (addresses (object_start p) hs)) /\
    (forall pre h post, hs = pre ++ h :: post -> tags_marked h = false ->
       count_occ Z.eq_dec tests (object_start p + extent pre) = 1%nat) /\
    (length hs <= length tests <= 2 * length hs)%nat.
Proof.
  intros Hsw Hf.
  destruct (swept_tests w page p locked hs Hsw) as (tests & Ht & Hcount).
  destruct (reference_tests_span (PageType_eqb (type p) kExecutable) locked
              (object_start p) (object_end p) hs (initial_sweep p w))
    as (tests' & Ht' & Hin & Hlen).
  assert (tests' = tests).
  { change (mark_tests (after_sweep w page p locked hs) = mark_tests w ++ tests') in Ht'.
    rewrite Ht in Ht'. apply app_inv_head in Ht'. symmetry. exact Ht'. }
  subst tests'.
  exists (after_sweep w page p locked hs), tests.
  split; [apply SweepPage_result; assumption|]. split; [exact Ht|].
  split; [exact Hin|]. split; [|exact Hlen].
  intros pre h post E Hm. rewrite (Hcount pre h post E).
  unfold tests_of. rewrite Hm. reflexivity.
Qed.

End SweepPageMore.

(** ** More on the sweep of a large page *)

Section LargePageMore.
Context {P : Platform} {POK : PlatformOk P}.

Lemma zap_objects_inside hs : forall m a x,
  sized hs -> 0 <= a -> a + extent hs < word_modulus ->
  a <= x < a + extent hs -> zap_objects m a hs x = kZapByte.
Proof.
  induction hs as [|h l IH]; intros m a x Hs Ha Hb Hx.
  - cbn in Hx. lia.
  - pose proof (Forall_inv Hs) as [Hp _].
    pose proof (sized_extent_nonneg _ (Forall_inv_tail Hs)) as Hn.
    rewrite extent_cons in *. cbn [zap_objects].
    destruct (Z.lt_ge_cases x (a + tags_size h)) as [Hlt|Hge].
    + rewrite zap_objects_other; [| exact (Forall_inv_tail Hs) | lia | lia | lia].
      rewrite memset_inside by (rewrite uword_small by lia; lia).
      apply Z.mod_small. apply kZapByte_byte.
    + apply IH; [exact (Forall_inv_tail Hs) | lia | lia | lia].
Qed.

(** X11.  [SweepLargePage] changes neither the page table (it does not set
    [used_in_bytes]) nor the free list, the count of tasks, the phase or the
    trace.  In memory it leaves alone everything outside the object area and
    the body of the first object; when that object is unmarked it leaves its
    header alone as well. *)
Theorem SweepLargePage_frame fuel w page p h fillers :
  large_sweepable w page p h fillers ->
  object_end p - object_start p + 1 <= Z.of_nat fuel ->
  exists words w',
    SweepLargePage fuel page w = Ret (words, w') /\
    pages w' = pages w /\ freelist w' = freelist w /\
    tasks w' = tasks w /\ phase w' = phase w /\ trace w' = trace w /\
    (forall x, ~ (object_start p <= x < object_start p + kWordSize) ->
               ~ (object_start p + tags_size h <= x < object_end p) ->
               memory w' x = memory w x) /\
    (tags_marked h = false ->
     forall x, x < object_start p + tags_size h -> memory w' x = memory w x).
Proof.
  intros Hsw Hf. pose proof kWordSize_pos as Hw.
  exists (large_page_words h), (after_large_sweep w p h fillers).
  split; [apply SweepLargePage_result; assumption|].
  destruct Hsw as (Hpg & Himg & (Hb1 & Hb2 & Hb3) & Hl & Hp & Hal & Hown & Ht & Hu).
  pose proof (tiles_sized _ _ _ _ _ Ht) as Hs.
  pose proof (tiles_extent _ _ _ _ _ Ht) as He.
  pose proof (sized_extent_nonneg _ Hs) as Hn.
  repeat (split; [reflexivity|]).
  unfold after_large_sweep. cbn [memory with_memory with_mark_tests].
  split.
  - intros x Hx1 Hx2.
    assert (H1 : (if tags_marked h
                  then store_word (memory w) (object_start p) (tags_clear_mark h)
                  else memory w) x = memory w x).
    { destruct (tags_marked h); [apply store_word_other; lia | reflexivity]. }
    destruct DEBUG; [|exact H1].
    rewrite zap_objects_other; [exact H1 | exact Hs | lia | lia | lia].
  - intros Hm x Hx. rewrite Hm.
    destruct DEBUG; [|reflexivity].
    apply zap_objects_other; [exact Hs | lia | lia | lia].
Qed.

(** X12.  What [SweepLargePage] does to the filler objects behind the first
    object: a DEBUG build overwrites each of their bytes with the zap byte,
    a release build leaves them as they are. *)
Theorem SweepLargePage_fillers fuel w page p h fillers :
  large_sweepable w page p h fillers ->
  object_end p - object_start p + 1 <= Z.of_nat fuel ->
  exists words w',
    SweepLargePage fuel page w = Ret (words, w') /\
    forall x, object_start p + tags_size h <= x < object_end p ->
      memory w' x = if DEBUG then kZapByte else memory w x.
Proof.
  intros Hsw Hf. pose proof kWordSize_pos as Hw.
  exists (large_page_words h), (after_large_sweep w p h fillers).
  split; [apply SweepLargePage_result; assumption|].
  destruct Hsw as (Hpg & Himg & (Hb1 & Hb2 & Hb3) & Hl & Hp & Hal & Hown & Ht & Hu).
  pose proof (tiles_sized _ _ _ _ _ Ht) as Hs.
  pose proof (tiles_extent _ _ _ _ _ Ht) as He.
  assert (Hfw : kWordSize <= tags_size h).
  { apply (sized_first_word h []). constructor; [split; assumption | constructor]. }
  intros x Hx. unfold after_large_sweep. cbn [memory with_memory with_mark_tests].
  destruct DEBUG.
  - apply zap_objects_inside; [exact Hs | lia | lia | lia].
  - destruct (tags_marked h); [apply store_word_other; lia | reflexivity].
Qed.

End LargePageMore.

(** ** More on the sweeper task *)

Section TaskMore.
Context {P : Platform} {POK : PlatformOk P}.

Lemma large_decision w fuel e :
  large_ready w fuel e ->
  (large_page_words (le_head e) =? 0) = negb (tags_marked (le_head e)) /\
  (tags_marked (le_head e) = true ->
   intptr (Z.shiftl (large_page_words (le_head e)) kWordSizeLog2) = tags_size (le_head e)).
Proof.
  intros ((Hpg & Himg & (Hb1 & Hb2 & Hb3) & Hl & Hp & Hal & Hown & Ht & Hu) & _ & _).
  pose proof kWordSize_pos as Hw. pose proof kWordSizeLog2_nonneg as Hk.
  pose proof (tiles_sized _ _ _ _ _ Ht) as Hs.
  pose proof (tiles_extent _ _ _ _ _ Ht) as He.
  pose proof (sized_extent_nonneg _ Hs) as Hn.
  assert (Hsmall : 0 < tags_size (le_head e) < word_modulus / 2) by lia.
  unfold large_page_words. destruct (tags_marked (le_head e)); [|split; [reflexivity | discriminate]].
  unfold kWordSize in *. rewrite Z.shiftl_1_l in *.
  apply Z.mod_divide in Hal; [|lia]. destruct Hal as [q Hq].
  rewrite Z.shiftr_div_pow2, Z.shiftl_mul_pow2 by exact Hk.
  rewrite Hq in *. rewrite Z.div_mul by lia.
  assert (q <> 0) by nia.
  split; [apply Z.eqb_neq; assumption|]. intros _. apply intptr_small. lia.
Qed.

Lemma large_events_call w fuel : forall pre prev e post,
  Forall (large_ready w fuel) (pre ++ e :: post) ->
  In (if tags_marked (le_head e)
      then CallTruncateLargePage (le_page e) (tags_size (le_head e))
      else CallFreeLargePage (le_page e)
             (fold_left (fun pv a => if tags_marked (le_head a) then le_page a else pv)
                pre prev))
     (large_events prev (pre ++ e :: post)).
Proof.
  induction pre as [|a pre IH]; intros prev e post Hr.
  - destruct (large_decision w fuel e (Forall_inv Hr)) as (Hz & Hb).
    cbn [app large_events fold_left]. rewrite Hz.
    destruct (tags_marked (le_head e)); cbn [negb].
    + rewrite (Hb eq_refl). right. left. reflexivity.
    + right. left. reflexivity.
  - destruct (large_decision w fuel a (Forall_inv Hr)) as (Hz & _).
    cbn [app large_events fold_left]. rewrite Hz.
    destruct (tags_marked (le_head a)); cbn [negb];
      right; right; apply IH; exact (Forall_inv_tail Hr).
Qed.

Lemma large_events_in w fuel ev : forall ls prev,
  Forall (large_ready w fuel) ls ->
  In ev (large_events prev ls) ->
  exists e, In e ls /\
    (ev = CallSweepLargePage (le_page e) \/
     (tags_marked (le_head e) = false /\ exists pv, ev = CallFreeLargePage (le_page e) pv) \/
     (tags_marked (le_head e) = true /\
      ev = CallTruncateLargePage (le_page e) (tags_size (le_head e)))).
Proof.
  induction ls as [|a r IH]; intros prev Hr Hin; [contradiction|].
  destruct (large_decision w fuel a (Forall_inv Hr)) as (Hz & Hb).
  cbn [large_events] in Hin. rewrite Hz in Hin.
  destruct Hin as [E|Hin].
  { exists a. split; [left; reflexivity|]. left. symmetry. exact E. }
  destruct (tags_marked (le_head a)) eqn:Hm; cbn [negb] in Hin;
    destruct Hin as [E|Hin].
  - exists a. split; [left; reflexivity|]. right. right.
    split; [exact Hm|]. rewrite <- E, (Hb eq_refl). reflexivity.
  - destruct (IH _ (Forall_inv_tail Hr) Hin) as (e & He & Hc).
    exists e. split; [right; exact He | exact Hc].
  - exists a. split; [left; reflexivity|]. right. left.
    split; [exact Hm|]. exists prev. symmetry. exact E.
  - destruct (IH _ (Forall_inv_tail Hr) Hin) as (e & He & Hc).
    exists e. split; [right; exact He | exact Hc].
Qed.

Lemma page_events_call : forall pre prev e post,
  live_bytes (pe_objects e) = 0 ->
  In (CallFreePage (pe_page e)
        (fold_left (fun pv a => if negb (live_bytes (pe_objects a) =? 0)
                                then pe_page a else pv) pre prev))
     (page_events prev (pre ++ e :: post)).
Proof.
  induction pre as [|a pre IH]; intros prev e post Hz.
  - cbn [app page_events fold_left]. rewrite Hz. cbn [Z.eqb negb].
    right. left. reflexivity.
  - cbn [app page_events fold_left].
    destruct (negb (live_bytes (pe_objects a) =? 0)).
    + do 4 right. apply IH. exact Hz.
    + do 5 right. apply IH. exact Hz.
Qed.

Lemma page_events_in ev : forall os prev,
  In ev (page_events prev os) ->
  In ev [MonitorEnter; MonitorNotify; MonitorExit] \/
  exists e, In e os /\
    (ev = CallSweepPage (pe_page e) \/
     (live_bytes (pe_objects e) = 0 /\ exists pv, ev = CallFreePage (pe_page e) pv)).
Proof.
  induction os as [|a r IH]; intros prev Hin; [contradiction|].
  cbn [page_events] in Hin.
  destruct Hin as [E|Hin].
  { right. exists a. split; [left; reflexivity|]. left. symmetry. exact E. }
  assert (Hrest : forall pv, In ev ([MonitorEnter; MonitorNotify; MonitorExit]
                                    ++ page_events pv r) ->
            In ev [MonitorEnter; MonitorNotify; MonitorExit] \/
            exists e, In e (a :: r) /\
              (ev = CallSweepPage (pe_page e) \/
               (live_bytes (pe_objects e) = 0 /\
                exists pv, ev = CallFreePage (pe_page e) pv))).
  { intros pv H. apply in_app_or in H. destruct H as [H|H]; [left; exact H|].
    destruct (IH _ H) as [H'|(e & He & Hc)]; [left; exact H'|].
    right. exists e. split; [right; exact He | exact Hc]. }
  destruct (live_bytes (pe_objects a) =? 0) eqn:Hz; cbn [negb] in Hin.
  - destruct Hin as [E|Hin]; [|apply (Hrest prev); exact Hin].
    right. exists a. split; [left; reflexivity|]. right.
    split; [apply Z.eqb_eq; exact Hz|]. exists prev. symmetry. exact E.
  - apply (Hrest (pe_page a)). exact Hin.
Qed.

Lemma large_same_head w fuel ls a b :
  Forall (large_ready w fuel) ls ->
  In a ls -> In b ls -> le_page a = le_page b -> le_head a = le_head b.
Proof.
  intros Hr Ha Hb E. rewrite Forall_forall in Hr.
  destruct (Hr a Ha) as ((Hpa & _ & _ & Hla & _) & _).
  destruct (Hr b Hb) as ((Hpb & _ & _ & Hlb & _) & _).
  rewrite E, Hpb in Hpa. injection Hpa as Hrec.
  rewrite <- Hla, <- Hlb, Hrec. reflexivity.
Qed.

Lemma same_page_entry (os : list PageEntry) a b :
  NoDup (map pe_page os) -> In a os -> In b os -> pe_page a = pe_page b -> a = b.
Proof.
  induction os as [|c r IH]; intros Hnd Ha Hb E; [contradiction|].
  cbn [map] in Hnd. inversion Hnd as [|? ? Hnotin Hnd']; subst.
  destruct Ha as [->|Ha], Hb as [->|Hb].
  - reflexivity.
  - exfalso. apply Hnotin. rewrite E. apply in_map. exact Hb.
  - exfalso. apply Hnotin. rewrite <- E. apply in_map. exact Ha.
  - apply IH; assumption.
Qed.

Lemma run_events_in ev ls os n :
  In ev (walk_events ls os ++ completion_events n) ->
  In ev (large_events NULL ls) \/ In ev (page_events NULL os) \/
  In ev (EnterIsolateAsHelper :: ExitIsolateAsHelper :: completion_events n).
Proof.
  unfold walk_events. intros H. cbn [app] in H. destruct H as [H|H].
  - right; right; left; exact H.
  - rewrite <- !app_assoc in H. apply in_app_or in H.
    destruct H as [H|H]; [left; exact H|].
    apply in_app_or in H. destruct H as [H|H]; [right; left; exact H|].
    right; right; right. exact H.
Qed.

Lemma large_events_run ev ls os n :
  In ev (large_events NULL ls) -> In ev (walk_events ls os ++ completion_events n).
Proof.
  intros H. unfold walk_events. apply in_or_app. left. right.
  apply in_or_app. left. exact H.
Qed.

Lemma page_events_run ev ls os n :
  In ev (page_events NULL os) -> In ev (walk_events ls os ++ completion_events n).
Proof.
  intros H. unfold walk_events. apply in_or_app. left. right.
  apply in_or_app. right. apply in_or_app. left. exact H.
Qed.

Ltac no_such_event :=
  repeat match goal with
         | H : In _ (completion_events _) |- _ => unfold completion_events in H
         | H : In _ (_ :: _) |- _ => destruct H as [H|H]; [discriminate H|]
         | H : In _ [] |- _ => destruct H
         end.

(** X13.  What [Run] asks of the old space for a large page.  A page whose
    object is marked is truncated, to the size of the object in bytes, and
    is never freed.  A page whose object is unmarked is freed, with the last
    page before it that was kept as its predecessor (NULL when there is
    none), and is never truncated. *)
Theorem large_page_truncated_or_freed fuel t w ls os :
  task_heap w t fuel ls os ->
  (DEBUG = true -> phase w = kSweeping) ->
  exists w' evs,
    Run fuel t w = Ret (tt, w') /\
    trace w' = trace w ++ evs /\
    forall pre e post, ls = pre ++ e :: post ->
      if tags_marked (le_head e)
      then In (CallTruncateLargePage (le_page e) (tags_size (le_head e))) evs /\
           forall prev, ~ In (CallFreeLargePage (le_page e) prev) evs
      else In (CallFreeLargePage (le_page e) (kept_large pre)) evs /\
           forall n, ~ In (CallTruncateLargePage (le_page e) n) evs.
Proof.
  intros Hheap Hph.
  destruct (Run_result fuel t w ls os Hheap Hph) as (w' & Hrun & Htr & _).
  destruct Hheap as (_ & _ & _ & Hr1 & _).
  exists w', (walk_events ls os ++ completion_events (intptr (tasks w - 1))).
  split; [exact Hrun|]. split; [exact Htr|].
  intros pre e post E.
  assert (Hine : In e ls) by (rewrite E; apply in_or_app; right; left; reflexivity).
  assert (Hcall := large_events_call w _ pre NULL e post ltac:(rewrite <- E; exact Hr1)).
  rewrite <- E in Hcall. fold (kept_large pre) in Hcall.
  assert (Hother : forall ev, In ev (walk_events ls os
                                     ++ completion_events (intptr (tasks w - 1))) ->
            (exists pv, ev = CallFreeLargePage (le_page e) pv) \/
            (exists n, ev = CallTruncateLargePage (le_page e) n) ->
            exists e', In e' ls /\ le_head e' = le_head e /\
              ((tags_marked (le_head e') = false /\
                exists pv, ev = CallFreeLargePage (le_page e') pv) \/
               (tags_marked (le_head e') = true /\
                ev = CallTruncateLargePage (le_page e') (tags_size (le_head e'))))).
  { intros ev Hin Hev. apply run_events_in in Hin. destruct Hin as [Hin|[Hin|Hin]].
    - destruct (large_events_in w _ ev ls NULL Hr1 Hin) as (e' & He' & Hc).
      assert (Hsame : le_page e' = le_page e -> le_head e' = le_head e)
        by (intros Hp; exact (large_same_head w _ ls e' e Hr1 He' Hine Hp)).
      exists e'. split; [exact He'|].
      destruct Hc as [Hc|[(Hm & pv & Hc)|(Hm & Hc)]].
      + destruct Hev as [(? & Hev)|(? & Hev)]; rewrite Hev in Hc; discriminate Hc.
      + split; [|left; split; [exact Hm | exists pv; exact Hc]].
        apply Hsame.
        destruct Hev as [(? & Hev)|(? & Hev)]; rewrite Hev in Hc;
          [injection Hc as E1 _; symmetry; exact E1 | discriminate Hc].
      + split; [|right; split; [exact Hm | exact Hc]].
        apply Hsame.
        destruct Hev as [(? & Hev)|(? & Hev)]; rewrite Hev in Hc;
          [discriminate Hc | injection Hc as E1 _; symmetry; exact E1].
    - exfalso. apply page_events_in in Hin. destruct Hin as [Hin|(e' & _ & Hc)].
      + destruct Hev as [(? & Hev)|(? & Hev)]; rewrite Hev in Hin; no_such_event.
      + destruct Hc as [Hc|(_ & pv & Hc)];
          destruct Hev as [(? & Hev)|(? & Hev)]; rewrite Hev in Hc; discriminate Hc.
    - exfalso.
      destruct Hev as [(? & Hev)|(? & Hev)]; rewrite Hev in Hin; no_such_event. }
  destruct (tags_marked (le_head e)) eqn:Hm.
  - split; [apply large_events_run; exact Hcall|].
    intros prev Hin.
    destruct (Hother _ Hin ltac:(left; eexists; reflexivity))
      as (e' & _ & Hh & [(Hm' & _)|(_ & Hc)]); [|discriminate Hc].
    rewrite Hh in Hm'. congruence.
  - split; [apply large_events_run; exact Hcall|].
    intros n Hin.
    destruct (Hother _ Hin ltac:(right; eexists; reflexivity))
      as (e' & _ & Hh & [(_ & pv & Hc)|(Hm' & _)]); [discriminate Hc|].
    rewrite Hh in Hm'. congruence.
Qed.

(** X14.  What [Run] asks of the old space for an ordinary page.  A page
    with a marked object is never freed.  A page without one is freed, with
    the last page before it that was kept as its predecessor (NULL when
    there is none). *)
Theorem ordinary_page_freed_iff_dead fuel t w ls os :
  task_heap w t fuel ls os ->
  (DEBUG = true -> phase w = kSweeping) ->
  exists w' evs,
    Run fuel t w = Ret (tt, w') /\
    trace w' = trace w ++ evs /\
    forall pre e post, os = pre ++ e :: post ->
      (Exists (fun h => tags_marked h = true) (pe_objects e) ->
       forall prev, ~ In (CallFreePage (pe_page e) prev) evs) /\
      (Forall unmarked (pe_objects e) ->
       In (CallFreePage (pe_page e) (kept_page pre)) evs).
Proof.
  intros Hheap Hph.
  destruct (Run_result fuel t w ls os Hheap Hph) as (w' & Hrun & Htr & _).
  destruct Hheap as (_ & _ & _ & Hr1 & _ & _ & Hr2 & Hnd & _).
  exists w', (walk_events ls os ++ completion_events (intptr (tasks w - 1))).
  split; [exact Hrun|]. split; [exact Htr|].
  intros pre e post E.
  assert (Hine : In e os) by (rewrite E; apply in_or_app; right; left; reflexivity).
  split.
  - intros Hex prev Hin.
    assert (Hs : sized (pe_objects e)).
    { rewrite Forall_forall in Hr2. destruct (Hr2 e Hine) as ((_ & _ & _ & Ht) & _).
      exact (tiles_sized _ _ _ _ _ Ht). }
    apply (live_bytes_marked _ Hs) in Hex. apply Hex.
    apply run_events_in in Hin. destruct Hin as [Hin|[Hin|Hin]].
    + exfalso. destruct (large_events_in w _ _ ls NULL Hr1 Hin) as (e' & _ & Hc).
      destruct Hc as [Hc|[(_ & pv & Hc)|(_ & Hc)]]; discriminate Hc.
    + apply page_events_in in Hin. destruct Hin as [Hin|(e' & He' & Hc)].
      * exfalso. no_such_event.
      * destruct Hc as [Hc|(Hz & pv & Hc)]; [discriminate Hc|].
        injection Hc as E1 _.
        rewrite (same_page_entry os e e' Hnd Hine He' E1). exact Hz.
    + exfalso. no_such_event.
  - intros Hu. apply page_events_run. rewrite E.
    apply (page_events_call pre NULL e post). apply unmarked_live_bytes. exact Hu.
Qed.

Lemma monitor_ok_large ls rest : forall prev,
  monitor_ok false (large_events prev ls ++ rest) = monitor_ok false rest.
Proof.
  induction ls as [|e r IH]; intros prev; [reflexivity|].
  cbn [large_events]. destruct (large_page_words (le_head e) =? 0);
    cbn [app monitor_ok negb andb]; apply IH.
Qed.

Lemma monitor_ok_pages os rest : forall prev,
  monitor_ok false (page_events prev os ++ rest) = monitor_ok false rest.
Proof.
  induction os as [|e r IH]; intros prev; [reflexivity|].
  cbn [page_events]. destruct (negb (live_bytes (pe_objects e) =? 0));
    cbn [app monitor_ok negb andb]; apply IH.
Qed.

Lemma isolate_ok_large ls rest : forall prev,
  isolate_ok Attached (large_events prev ls ++ rest) = isolate_ok Attached rest.
Proof.
  induction ls as [|e r IH]; intros prev; [reflexivity|].
  cbn [large_events]. destruct (large_page_words (le_head e) =? 0);
    cbn [app isolate_ok]; apply IH.
Qed.

Lemma isolate_ok_pages os rest : forall prev,
  isolate_ok Attached (page_events prev os ++ rest) = isolate_ok Attached rest.
Proof.
  induction os as [|e r IH]; intros prev; [reflexivity|].
  cbn [page_events]. destruct (negb (live_bytes (pe_objects e) =? 0));
    cbn [app isolate_ok]; apply IH.
Qed.

(** X15.  [Run] keeps to the monitor discipline: it enters the monitor only
    when it does not hold it and leaves it only when it does; it notifies
    and sets the count of tasks and the phase only while it holds the
    monitor; it sweeps pages and hands them to the old space only while it
    does not; and it does not hold the monitor when it returns. *)
Theorem Run_monitor_discipline fuel t w ls os :
  task_heap w t fuel ls os ->
  (DEBUG = true -> phase w = kSweeping) ->
  exists w' evs,
    Run fuel t w = Ret (tt, w') /\
    trace w' = trace w ++ evs /\
    monitor_ok false evs = true.
Proof.
  intros Hheap Hph.
  destruct (Run_result fuel t w ls os Hheap Hph) as (w' & Hrun & Htr & _).
  exists w', (walk_events ls os ++ completion_events (intptr (tasks w - 1))).
  split; [exact Hrun|]. split; [exact Htr|].
  unfold walk_events. cbn [app monitor_ok]. rewrite <- !app_assoc.
  rewrite monitor_ok_large, monitor_ok_pages. reflexivity.
Qed.

(** X16.  [Run] enters the isolate first and once, sweeps pages, hands them
    over and notifies the mutator only while it is in the isolate, and has
    left the isolate before it gives back its count, sets the phase to Done
    and wakes all waiters. *)
Theorem Run_leaves_isolate_before_done fuel t w ls os :
  task_heap w t fuel ls os ->
  (DEBUG = true -> phase w = kSweeping) ->
  exists w' evs,
    Run fuel t w = Ret (tt, w') /\
    trace w' = trace w ++ evs /\
    isolate_ok NotYet evs = true.
Proof.
  intros Hheap Hph.
  destruct (Run_result fuel t w ls os Hheap Hph) as (w' & Hrun & Htr & _).
  exists w', (walk_events ls os ++ completion_events (intptr (tasks w - 1))).
  split; [exact Hrun|]. split; [exact Htr|].
  unfold walk_events. cbn [app isolate_ok]. rewrite <- !app_assoc.
  rewrite isolate_ok_large, isolate_ok_pages. reflexivity.
Qed.

(** X18.  The assertion at the end of [Run].  A DEBUG build that runs the
    task while the phase is not Sweeping stops on the assertion after it has
    swept all the pages, left the isolate, taken the monitor and taken one
    from the count of tasks: the phase is not set to Done, no waiter is
    woken and the monitor is not left. *)
Theorem Run_phase_assert fuel t w ls os :
  task_heap w t fuel ls os ->
  DEBUG = true -> phase w <> kSweeping ->
  exists w3,
    Run fuel t w = Stop AssertionFailed w3 /\
    trace w3 = trace w
               ++ (EnterIsolateAsHelper :: large_events NULL ls
                   ++ page_events NULL os ++ [ExitIsolateAsHelper])
               ++ [MonitorEnter; SetTasks (intptr (tasks w - 1))] /\
    tasks w3 = intptr (tasks w - 1) /\ phase w3 = phase w.
Proof.
  intros Hheap HD Hph.
  destruct (Run_outcome fuel t w ls os Hheap) as (w3 & Ht3 & Htk3 & Hph3 & Hrun).
  exists w3. split; [|split; [exact Ht3 | split; [exact Htk3 | exact Hph3]]].
  rewrite Hrun, HD.
  assert (E : Phase_eqb (phase w) kSweeping = false)
    by (destruct (phase w); try reflexivity; exfalso; apply Hph; reflexivity).
  rewrite E. reflexivity.
Qed.

End TaskMore.

(** ** The two entry points of the free list *)

Section EntryPoints.
Context {P : Platform} {POK : PlatformOk P}.

(** The range of a free-list call, whichever entry point it went through. *)
Definition range_of (c : FreeListCall) : Z * Z := (fl_addr c, fl_size c).

(** Two sweep states that differ at most in the entry points of their
    free-list calls. *)
Definition same_ranges (s1 s2 : Sweep) : Prop :=
  sw_pending s1 = sw_pending s2 /\ sw_pos s1 = sw_pos s2 /\ sw_mem s1 = sw_mem s2 /\
  sw_tests s1 = sw_tests s2 /\ sw_used s1 = sw_used s2 /\
  map range_of (sw_calls s1) = map range_of (sw_calls s2).

Lemma close_same_ranges exec l1 l2 start end_ s1 s2 :
  same_ranges s1 s2 ->
  same_ranges (close_run exec l1 start end_ s1) (close_run exec l2 start end_ s2).
Proof.
  intros Hs. pose proof Hs as (H1 & H2 & H3 & H4 & H5 & H6).
  unfold close_run. rewrite <- H1.
  destruct (sw_pending s1) as [a|]; [|exact Hs].
  - unfold same_ranges. cbn [sw_pending sw_pos sw_mem sw_tests sw_used sw_calls].
    rewrite <- H2, <- H3.
    repeat (split; [first [reflexivity | assumption]|]).
    destruct (negb (a =? start) || negb (sw_pos s1 =? end_)); [|exact H6].
    rewrite !map_app, H6. reflexivity.
Qed.

Lemma header_same_ranges exec l1 l2 start end_ s1 s2 h :
  same_ranges s1 s2 ->
  same_ranges (sweep_header exec l1 start end_ s1 h) (sweep_header exec l2 start end_ s2 h).
Proof.
  intros Hs. pose proof (close_same_ranges exec l1 l2 start end_ s1 s2 Hs)
    as (_ & _ & C3 & _ & _ & C6).
  destruct Hs as (H1 & H2 & H3 & H4 & H5 & H6).
  unfold sweep_header. destruct (tags_marked h);
    unfold same_ranges; cbn [sw_pending sw_pos sw_mem sw_tests sw_used sw_calls];
    rewrite <- ?H1, <- ?H2, <- ?H4, <- ?H5, ?C3;
    repeat (split; [first [reflexivity | assumption]|]); assumption.
Qed.

Lemma reference_same_ranges exec l1 l2 start end_ hs : forall s1 s2,
  same_ranges s1 s2 ->
  same_ranges (reference_sweep exec l1 start end_ hs s1)
              (reference_sweep exec l2 start end_ hs s2).
Proof.
  unfold reference_sweep.
  induction hs as [|h l IH]; intros s1 s2 Hs; cbn [fold_left].
  - apply close_same_ranges. exact Hs.
  - apply IH. apply header_same_ranges. exact Hs.
Qed.

(** X19.  [locked] selects the entry point of the free list and nothing
    else: with it and without it [SweepPage] returns the same value and
    leaves the same memory, the same page table and the same mark tests, and
    the ranges handed to the free list are the same, in the same order. *)
Theorem locked_selects_entry_point fuel w page p hs :
  sweepable w page p hs ->
  object_end p - object_start p + 2 <= Z.of_nat fuel ->
  exists in_use w1 w2,
    SweepPage fuel page true w = Ret (in_use, w1) /\
    SweepPage fuel page false w = Ret (in_use, w2) /\
    memory w1 = memory w2 /\ pages w1 = pages w2 /\
    mark_tests w1 = mark_tests w2 /\
    map range_of (freelist w1) = map range_of (freelist w2).
Proof.
  intros Hsw Hf.
  exists (negb (live_bytes hs =? 0)), (after_sweep w page p true hs),
         (after_sweep w page p false hs).
  split; [apply SweepPage_result; assumption|].
  split; [apply SweepPage_result; assumption|].
  destruct (reference_same_ranges (PageType_eqb (type p) kExecutable) true false
              (object_start p) (object_end p) hs (initial_sweep p w) (initial_sweep p w))
    as (_ & _ & R3 & R4 & _ & R6).
  { repeat split. }
  repeat split; assumption.
Qed.

End EntryPoints.

(** ** The links that the mutator may change *)

Section LastLinks.
Context {P : Platform} {POK : PlatformOk P}.
Variables (t : ConcurrentSweeperTask) (nxl nxo : Z).

(** A page with another [next] link. *)
Definition with_next (p : HeapPage) (n : Z) : HeapPage :=
  {| object_start := object_start p; object_end := object_end p; type := type p;
     is_image_page := is_image_page p; used_in_bytes := used_in_bytes p; next := n |}.

(** The pages of the two lists, the link of [large_last_] set to [nxl] and
    the link of [last_] set to [nxo]. *)
Definition relink_large (e : LargeEntry) : LargeEntry :=
  {| le_page := le_page e;
     le_rec := with_next (le_rec e)
                 (if le_page e =? large_last_ t then nxl else next (le_rec e));
     le_head := le_head e; le_fillers := le_fillers e |}.

Definition relink_page (e : PageEntry) : PageEntry :=
  {| pe_page := pe_page e;
     pe_rec := with_next (pe_rec e)
                 (if pe_page e =? last_ t then nxo else next (pe_rec e));
     pe_objects := pe_objects e |}.

Lemma walk_relink ps ps2 last l : forall page,
  (forall q, In q l -> q <> last ->
     exists p p', ps q = Some p /\ ps2 q = Some p' /\ next p' = next p) ->
  walk ps last page l -> walk ps2 last page l.
Proof.
  induction l as [|q r IH]; intros page Hps H; [exact H|].
  destruct H as (Hq & Hn & H). cbn [walk]. split; [exact Hq|]. split; [exact Hn|].
  destruct (q =? last) eqn:E; [exact H|].
  destruct H as (pq & Hpq & H).
  destruct (Hps q (or_introl eq_refl) ltac:(apply Z.eqb_neq; exact E))
    as (p & p' & H1 & H2 & H3).
  exists p'. split; [exact H2|]. rewrite H3. rewrite Hpq in H1. injection H1 as <-.
  apply IH; [|exact H]. intros q' Hq'. apply Hps. right. exact Hq'.
Qed.

Lemma large_events_relink ls : forall prev,
  large_events prev (map relink_large ls) = large_events prev ls.
Proof.
  induction ls as [|e r IH]; intros prev; [reflexivity|].
  cbn [map large_events relink_large le_page le_head]. rewrite !IH. reflexivity.
Qed.

Lemma page_events_relink os : forall prev,
  page_events prev (map relink_page os) = page_events prev os.
Proof.
  induction os as [|e r IH]; intros prev; [reflexivity|].
  cbn [map page_events relink_page pe_page pe_objects]. rewrite !IH. reflexivity.
Qed.

Lemma ForallOrdPairs_map A B (f : A -> B) (R : A -> A -> Prop) (R' : B -> B -> Prop) l :
  (forall a b, R a b -> R' (f a) (f b)) ->
  ForallOrdPairs R l -> ForallOrdPairs R' (map f l).
Proof.
  intros HR. induction 1 as [|a l Ha Hl IH]; cbn [map]; constructor; [|exact IH].
  rewrite Forall_forall in *. intros b Hb. apply in_map_iff in Hb.
  destruct Hb as (x & <- & Hx). apply HR, Ha, Hx.
Qed.

Lemma task_heap_relink w fuel ls os ps2 :
  task_heap w t fuel ls os ->
  (forall e, In e ls -> ps2 (le_page e) = Some (le_rec (relink_large e))) ->
  (forall e, In e os -> ps2 (pe_page e) = Some (pe_rec (relink_page e))) ->
  task_heap (with_pages ps2 w) t fuel (map relink_large ls) (map relink_page os).
Proof.
  intros (Hl1 & Hl2 & Hw1 & Hr1 & Ha1 & Hw2 & Hr2 & Hnd & Ha2 & Hx) H1 H2.
  assert (Ml : map le_page (map relink_large ls) = map le_page ls).
  { rewrite map_map. apply map_ext. reflexivity. }
  assert (Mo : map pe_page (map relink_page os) = map pe_page os).
  { rewrite map_map. apply map_ext. reflexivity. }
  unfold task_heap. rewrite !length_map, Ml, Mo.
  split; [exact Hl1|]. split; [exact Hl2|].
  split; [|split; [|split; [|split; [|split; [|split; [|split]]]]]].
  - apply walk_relink with (ps := pages w); [|exact Hw1].
    intros q Hq Hne. apply in_map_iff in Hq. destruct Hq as (e & <- & He).
    rewrite Forall_forall in Hr1. destruct (Hr1 e He) as ((Hpg & _) & _).
    exists (le_rec e), (le_rec (relink_large e)).
    split; [exact Hpg|]. split; [exact (H1 e He)|].
    cbn [relink_large le_rec with_next next].
    apply Z.eqb_neq in Hne. rewrite Hne. reflexivity.
  - rewrite Forall_forall in Hr1. apply Forall_forall. intros e' He'.
    apply in_map_iff in He'. destruct He' as (e & <- & He).
    destruct (Hr1 e He)
      as ((Hpg & Himg & Hb & Hl & Hp & Hal & Hown & Ht & Hu) & Hty & Hfe).
    split; [|split; [exact Hty | exact Hfe]].
    unfold large_sweepable.
    split; [exact (H1 e He)|]. split; [exact Himg|]. split; [exact Hb|].
    split; [exact Hl|]. split; [exact Hp|]. split; [exact Hal|].
    split; [exact Hown|]. split; [exact Ht | exact Hu].
  - apply ForallOrdPairs_map with (R := fun a b => apart (le_rec a) (le_rec b));
      [|exact Ha1]. intros a b H. exact H.
  - apply walk_relink with (ps := pages w); [|exact Hw2].
    intros q Hq Hne. apply in_map_iff in Hq. destruct Hq as (e & <- & He).
    rewrite Forall_forall in Hr2. destruct (Hr2 e He) as ((Hpg & _) & _).
    exists (pe_rec e), (pe_rec (relink_page e)).
    split; [exact Hpg|]. split; [exact (H2 e He)|].
    cbn [relink_page pe_rec with_next next].
    apply Z.eqb_neq in Hne. rewrite Hne. reflexivity.
  - rewrite Forall_forall in Hr2. apply Forall_forall. intros e' He'.
    apply in_map_iff in He'. destruct He' as (e & <- & He).
    destruct (Hr2 e He) as ((Hpg & Himg & Hb & Ht) & Hty & Hfe).
    split; [|split; [exact Hty | exact Hfe]].
    unfold sweepable.
    split; [exact (H2 e He)|]. split; [exact Himg|]. split; [exact Hb | exact Ht].
  - exact Hnd.
  - apply ForallOrdPairs_map with (R := fun a b => apart (pe_rec a) (pe_rec b));
      [|exact Ha2]. intros a b H. exact H.
  - rewrite Forall_forall in Hx. apply Forall_forall. intros a' Ha'.
    apply in_map_iff in Ha'. destruct Ha' as (a & <- & Ha).
    specialize (Hx a Ha). rewrite Forall_forall in Hx. apply Forall_forall.
    intros b' Hb'. apply in_map_iff in Hb'. destruct Hb' as (b & <- & Hb).
    exact (Hx b Hb).
Qed.

(** X20.  [Run] does not depend on the [next] link of [last_] nor on that of
    [large_last_], the two links that the mutator may change while the task
    runs: with any other values in them the task makes the same requests in
    the same order and leaves the same count of tasks and the same phase. *)
Theorem Run_ignores_last_links fuel w ls os ps2 :
  task_heap w t fuel ls os ->
  (DEBUG = true -> phase w = kSweeping) ->
  (forall e, In e ls ->
     ps2 (le_page e)
     = Some (with_next (le_rec e)
               (if le_page e =? large_last_ t then nxl else next (le_rec e)))) ->
  (forall e, In e os ->
     ps2 (pe_page e)
     = Some (with_next (pe_rec e)
               (if pe_page e =? last_ t then nxo else next (pe_rec e)))) ->
  exists w1 w2,
    Run fuel t w = Ret (tt, w1) /\
    Run fuel t (with_pages ps2 w) = Ret (tt, w2) /\
    trace w2 = trace w1 /\ tasks w2 = tasks w1 /\ phase w2 = phase w1.
Proof.
  intros Hheap Hph H1 H2.
  destruct (Run_result fuel t w ls os Hheap Hph) as (w1 & R1 & T1 & K1 & P1).
  destruct (Run_result fuel t (with_pages ps2 w) _ _
              (task_heap_relink w fuel ls os ps2 Hheap H1 H2) Hph)
    as (w2 & R2 & T2 & K2 & P2).
  exists w1, w2. split; [exact R1|]. split; [exact R2|].
  split; [|split].
  - rewrite T1, T2. unfold walk_events.
    rewrite large_events_relink, page_events_relink. reflexivity.
  - rewrite K1, K2. reflexivity.
  - rewrite P1, P2. reflexivity.
Qed.

End LastLinks.

(** ** The further properties at small heaps *)

(** A heap of one ordinary page [p] at 0x40000 whose memory holds the words
    [ws] from the start of the object area. *)
Definition edge_world (p : HeapPage) (ws : list Z) : World := {|
  memory := mem_of_words 262208 ws;
  pages := fun q => if q =? 262144 then Some p else None;
  freelist := [];
  mark_tests := [];
  tasks := 0;
  phase := kMarking;
  trace := []
|}.

(** A page with no room for objects, and one with room for 16 bytes. *)
Definition empty_page : HeapPage := {|
  object_start := 262208; object_end := 262208; type := kData;
  is_image_page := false; used_in_bytes := 7; next := NULL
|}.

Definition small_page : HeapPage := {|
  object_start := 262208; object_end := 262224; type := kData;
  is_image_page := false; used_in_bytes := 0; next := NULL
|}.

(** The sample heap with the filler of the large page marked. *)
Definition marked_filler_world : World :=
  with_memory (mem_of_words 524352 [1025; 1; 2; 3; 513; 4]) (sample_world kData).

Ltac not_within :=
  let Ha := fresh in let Hb := fresh in
  vm_compute; intros [Ha Hb]; first [apply Ha; reflexivity | discriminate Hb].

Lemma sample_has_marked debug :
  Exists (fun h => @tags_marked (sample_platform debug) h = true) sample_objects.
Proof. left. reflexivity. Defined.

Lemma SweepPage_empty_area_witness :
  @SweepPage (sample_platform true) 1 262144 false (edge_world empty_page [])
  = Ret (false, with_used 262144 empty_page 0 (edge_world empty_page [])).
Proof.
  exact (@SweepPage_empty_area (sample_platform true) 1
           (edge_world empty_page []) 262144 empty_page false
           eq_refl (fun _ => eq_refl) ltac:(closed) ltac:(lia)).
Defined.

(** A marked object of 32 bytes on a page with room for 16. *)
Lemma SweepPage_overshoot_witness :
  @SweepPage (sample_platform false) 2 262144 false (edge_world small_page [1025; 1; 2; 3])
  = Ret (true, with_used 262144 small_page 32
                 (@after_marked_object (sample_platform false) small_page 1025
                    (edge_world small_page [1025; 1; 2; 3]))).
Proof.
  exact (@SweepPage_overshoot (sample_platform false) (sample_ok false) 2
           (edge_world small_page [1025; 1; 2; 3]) 262144 small_page false 1025
           eq_refl (fun _ => eq_refl) (fun _ => eq_refl) ltac:(closed) eq_refl
           ltac:(split; closed) ltac:(closed) ltac:(closed) ltac:(closed) ltac:(lia)).
Defined.

(** A header of size 0 at the start of the page. *)
Lemma SweepPage_zero_size_hangs_witness :
  exists w',
    @SweepPage (sample_platform true) 1000 262144 false (edge_world small_page [0; 0])
    = Stop OutOfFuel w' /\
    pages w' = pages (edge_world small_page [0; 0]) /\ freelist w' = [].
Proof.
  exact (@SweepPage_zero_size_hangs (sample_platform true) (sample_ok true) 1000
           (edge_world small_page [0; 0]) 262144 small_page false 0
           eq_refl (fun _ => eq_refl) (fun _ => eq_refl) ltac:(closed) eq_refl
           ltac:(split; closed) ltac:(closed)).
Defined.

Lemma SweepLargePage_release_witness :
  value_of (@SweepLargePage (sample_platform false) 0 524288 (sample_world kData))
  = Some 4.
Proof.
  exact (f_equal value_of
           (@SweepLargePage_release (sample_platform false) (sample_ok false) 0
              (sample_world kData) 524288 sample_large_page eq_refl eq_refl)).
Defined.

Lemma SweepLargePage_marked_filler_witness :
  exists w',
    @SweepLargePage (sample_platform true) 64 524288 marked_filler_world
    = Stop AssertionFailed w' /\
    mark_tests w' = [524352; 524384].
Proof.
  eexists. split.
  - exact (@SweepLargePage_marked_filler (sample_platform true) (sample_ok true) 64
             marked_filler_world 524288 sample_large_page 1025 513
             eq_refl eq_refl eq_refl eq_refl ltac:(closed) ltac:(closed) ltac:(closed)
             ltac:(closed) ltac:(closed) ltac:(closed) eq_refl ltac:(lia)).
  - reflexivity.
Defined.

Lemma free_ranges_separated_witness :
  exists w' new,
    @SweepPage (sample_platform true) 64 262144 false (sample_world kData)
    = Ret (true, w') /\
    freelist w' = new /\ separated new.
Proof.
  destruct (@free_ranges_separated (sample_platform true) (sample_ok true)
              64 (sample_world kData) 262144 (sample_page kData) false
              sample_objects (sample_sweepable true kData) (sample_fuel kData))
    as (w' & new & H1 & H2 & H3 & _).
  exists w', new. split; [exact H1|]. split; [exact H2 | exact H3].
Defined.

Lemma swept_bytes_accounted_witness :
  exists w' new,
    @SweepPage (sample_platform true) 64 262144 false (sample_world kData)
    = Ret (true, w') /\
    freelist w' = new /\
    option_map (fun p' => freed_bytes new + used_in_bytes p') (pages w' 262144)
    = Some 48.
Proof.
  exact (@swept_bytes_accounted (sample_platform true) (sample_ok true)
           64 (sample_world kData) 262144 (sample_page kData) false
           sample_objects (sample_sweepable true kData) (sample_fuel kData)
           (sample_has_marked true)).
Defined.

Lemma SweepPage_in_use_iff_marked_witness :
  exists in_use w',
    @SweepPage (sample_platform true) 64 262144 false (sample_world kData)
    = Ret (in_use, w') /\
    in_use = true.
Proof.
  destruct (@SweepPage_in_use_iff_marked (sample_platform true) (sample_ok true)
              64 (sample_world kData) 262144 (sample_page kData) false
              sample_objects (sample_sweepable true kData) (sample_fuel kData))
    as (b & w' & p' & H1 & _ & H3 & _).
  exists b, w'. split; [exact H1|]. apply H3. exact (sample_has_marked true).
Defined.

Lemma SweepPage_frame_witness :
  exists in_use w',
    @SweepPage (sample_platform true) 64 262144 false (sample_world kData)
    = Ret (in_use, w') /\
    pages w' 524288 = Some sample_large_page /\
    tasks w' = 0 /\ phase w' = kMarking /\ trace w' = [].
Proof.
  destruct (@SweepPage_frame (sample_platform true) (sample_ok true)
              64 (sample_world kData) 262144 (sample_page kData) false
              sample_objects (sample_sweepable true kData) (sample_fuel kData))
    as (b & w' & p' & H1 & _ & _ & _ & _ & _ & _ & H8 & H9 & H10 & H11).
  exists b, w'. split; [exact H1|].
  split; [exact (H8 524288 ltac:(discriminate))|].
  split; [exact H9|]. split; [exact H10 | exact H11].
Defined.

Lemma mark_tests_at_objects_witness :
  exists w' tests,
    @SweepPage (sample_platform true) 64 262144 false (sample_world kData)
    = Ret (true, w') /\
    mark_tests w' = tests /\
    count_occ Z.eq_dec tests 262224 = 1%nat /\
    (length tests <= 6)%nat.
Proof.
  destruct (@mark_tests_at_objects (sample_platform true) (sample_ok true)
              64 (sample_world kData) 262144 (sample_page kData) false
              sample_objects (sample_sweepable true kData) (sample_fuel kData))
    as (w' & tests & H1 & H2 & _ & H4 & H5).
  exists w', tests. split; [exact H1|]. split; [exact H2|].
  split; [exact (H4 [513] 512 [513] eq_refl eq_refl) | exact (proj2 H5)].
Defined.

Lemma SweepLargePage_frame_witness :
  exists words w',
    @SweepLargePage (sample_platform true) 64 524288 (sample_world kData)
    = Ret (words, w') /\
    pages w' = pages (sample_world kData) /\ freelist w' = [] /\
    memory w' 524360 = 1.
Proof.
  destruct (@SweepLargePage_frame (sample_platform true) (sample_ok true)
              64 (sample_world kData) 524288 sample_large_page 1025 [512]
              (sample_large_sweepable true kData) sample_large_fuel)
    as (words & w' & H1 & H2 & H3 & _ & _ & _ & H7 & _).
  exists words, w'. split; [exact H1|]. split; [exact H2|]. split; [exact H3|].
  exact (H7 524360 ltac:(not_within) ltac:(not_within)).
Defined.

Lemma SweepLargePage_fillers_witness :
  exists words w',
    @SweepLargePage (sample_platform true) 64 524288 (sample_world kData)
    = Ret (words, w') /\
    memory w' 524384 = 243.
Proof.
  destruct (@SweepLargePage_fillers (sample_platform true) (sample_ok true)
              64 (sample_world kData) 524288 sample_large_page 1025 [512]
              (sample_large_sweepable true kData) sample_large_fuel)
    as (words & w' & H1 & H2).
  exists words, w'. split; [exact H1|].
  exact (H2 524384 ltac:(split; closed)).
Defined.

Lemma large_page_truncated_or_freed_witness :
  exists w' evs,
    @Run (sample_platform true) 64 sample_task sweeping_world = Ret (tt, w') /\
    trace w' = evs /\
    In (CallTruncateLargePage 524288 32) evs /\
    forall prev, ~ In (CallFreeLargePage 524288 prev) evs.
Proof.
  destruct (@large_page_truncated_or_freed (sample_platform true) (sample_ok true)
              64 sample_task sweeping_world [sample_large_entry] [sample_page_entry]
              (sample_task_heap true) (sample_sweeping true))
    as (w' & evs & H1 & H2 & H3).
  exists w', evs. split; [exact H1|]. split; [exact H2|].
  exact (H3 [] sample_large_entry [] eq_refl).
Defined.

Lemma ordinary_page_freed_iff_dead_witness :
  exists w' evs,
    @Run (sample_platform true) 64 sample_task sweeping_world = Ret (tt, w') /\
    trace w' = evs /\
    forall prev, ~ In (CallFreePage 262144 prev) evs.
Proof.
  destruct (@ordinary_page_freed_iff_dead (sample_platform true) (sample_ok true)
              64 sample_task sweeping_world [sample_large_entry] [sample_page_entry]
              (sample_task_heap true) (sample_sweeping true))
    as (w' & evs & H1 & H2 & H3).
  exists w', evs. split; [exact H1|]. split; [exact H2|].
  exact (proj1 (H3 [] sample_page_entry [] eq_refl) (sample_has_marked true)).
Defined.

Lemma Run_monitor_discipline_witness :
  exists w' evs,
    @Run (sample_platform true) 64 sample_task sweeping_world = Ret (tt, w') /\
    trace w' = evs /\ monitor_ok false evs = true.
Proof.
  exact (@Run_monitor_discipline (sample_platform true) (sample_ok true)
           64 sample_task sweeping_world [sample_large_entry] [sample_page_entry]
           (sample_task_heap true) (sample_sweeping true)).
Defined.

Lemma Run_leaves_isolate_before_done_witness :
  exists w' evs,
    @Run (sample_platform true) 64 sample_task sweeping_world = Ret (tt, w') /\
    trace w' = evs /\ isolate_ok NotYet evs = true.
Proof.
  exact (@Run_leaves_isolate_before_done (sample_platform true) (sample_ok true)
           64 sample_task sweeping_world [sample_large_entry] [sample_page_entry]
           (sample_task_heap true) (sample_sweeping true)).
Defined.

(** The task run on the sample heap while the phase is still Marking. *)
Lemma Run_phase_assert_witness :
  exists w3,
    @Run (sample_platform true) 64 sample_task (sample_world kData)
    = Stop AssertionFailed w3 /\
    trace w3 = [EnterIsolateAsHelper;
                CallSweepLargePage 524288; CallTruncateLargePage 524288 32;
                CallSweepPage 262144; MonitorEnter; MonitorNotify; MonitorExit;
                ExitIsolateAsHelper; MonitorEnter; SetTasks (-1)] /\
    phase w3 = kMarking.
Proof.
  destruct (@Run_phase_assert (sample_platform true) (sample_ok true)
              64 sample_task (sample_world kData) [sample_large_entry] [sample_page_entry]
              (sample_task_heap true) eq_refl ltac:(discriminate))
    as (w3 & H1 & H2 & _ & H4).
  exists w3. split; [exact H1|]. split; [exact H2 | exact H4].
Defined.

Lemma locked_selects_entry_point_witness :
  exists in_use w1 w2,
    @SweepPage (sample_platform true) 64 262144 true (sample_world kData)
    = Ret (in_use, w1) /\
    @SweepPage (sample_platform true) 64 262144 false (sample_world kData)
    = Ret (in_use, w2) /\
    memory w1 = memory w2 /\ pages w1 = pages w2 /\
    mark_tests w1 = mark_tests w2 /\
    map range_of (freelist w1) = map range_of (freelist w2).
Proof.
  exact (@locked_selects_entry_point (sample_platform true) (sample_ok true)
           64 (sample_world kData) 262144 (sample_page kData)
           sample_objects (sample_sweepable true kData) (sample_fuel kData)).
Defined.

(** The sample heap with the links of its two pages, each the last of its
    list, set to an address that holds no page. *)
Definition relinked_pages : Z -> option HeapPage :=
  fun q => if q =? 262144 then Some (with_next (sample_page kData) 786432)
           else if q =? 524288 then Some (with_next sample_large_page 786432)
           else None.

Lemma sample_large_relinked e :
  In e [sample_large_entry] ->
  relinked_pages (le_page e)
  = Some (with_next (le_rec e)
            (if le_page e =? large_last_ sample_task then 786432 else next (le_rec e))).
Proof. intros [<-|[]]. reflexivity. Defined.

Lemma sample_page_relinked e :
  In e [sample_page_entry] ->
  relinked_pages (pe_page e)
  = Some (with_next (pe_rec e)
            (if pe_page e =? last_ sample_task then 786432 else next (pe_rec e))).
Proof. intros [<-|[]]. reflexivity. Defined.

Lemma Run_ignores_last_links_witness :
  exists w1 w2,
    @Run (sample_platform true) 64 sample_task sweeping_world = Ret (tt, w1) /\
    @Run (sample_platform true) 64 sample_task (with_pages relinked_pages sweeping_world)
    = Ret (tt, w2) /\
    trace w2 = trace w1 /\ tasks w2 = tasks w1 /\ phase w2 = phase w1.
Proof.
  exact (@Run_ignores_last_links (sample_platform true) (sample_ok true)
           sample_task 786432 786432 64 sweeping_world
           [sample_large_entry] [sample_page_entry] relinked_pages
           (sample_task_heap true) (sample_sweeping true)
           sample_large_relinked sample_page_relinked).
Defined.
